(** * iNasas telemetry node: the durable store-and-forward queue

    A shallow embedding of the SD-card queue of the three Arduino sketches
    of the repository, and the properties of the queue that the design
    document states about them.

    - [Respaldo]   : [SD_HTTP_SIM800.ino], one file [datos.csv] whose lines
                     carry a PENDIENTE / ENVIADO status field;
    - [Optimizado] : the "v2.0 OPTIMIZADO" sketch of
                     [Modular_sensores_SD.ino], two logs
                     [pendient.csv] / [enviado.csv], string fields;
    - [Modular]    : the "v3.0" sketch of [Modular_sensores_SD.ino], two
                     logs, numeric fields rendered by [generarLineaCSV].

    The card is a finite map from file names to byte contents.  The cellular
    link is an oracle: the list of the outcomes of the HTTP requests still
    to come ([true] = the reply contains "200" or "OK").  Every request the
    code issues is recorded in a trace.  [log.txt] and the serial console
    are write-only diagnostics that no queue operation reads; they are not
    part of the state. *)

From Stdlib Require Import ZArith Ascii String List Lia DecimalString DecimalN.
From stdpp Require Import gmap strings list fin_maps.

Open Scope Z_scope.

(* ===================================================================== *)
(** * Bytes, C strings and the Arduino file API                           *)
(* ===================================================================== *)

Abbreviation bytes := (list ascii).

Definition NUL : ascii := "000"%char.
Definition LF  : ascii := "010"%char.
Definition CR  : ascii := "013"%char.
Definition PYC : ascii := ";"%char.

(** A string literal of the sketch as the bytes it denotes. *)
Definition texto (s : string) : bytes := list_ascii_of_string s.

(** The value of a [char] buffer read as a C string: the bytes before the
    first NUL. *)
Fixpoint cstr (b : bytes) : bytes :=
  match b with
  | [] => []
  | c :: r => if Ascii.eqb c NUL then [] else c :: cstr r
  end.

(** [Print::println(s)] of the Arduino core writes the C string and then
    carriage return, line feed. *)
Definition println (s : bytes) : bytes := cstr s ++ [CR; LF].

(** [Print::print(unsigned long)]: the decimal digits of the number. *)
Definition decimal (n : Z) : bytes :=
  texto (NilZero.string_of_uint (N.to_uint (Z.to_N n))).

(** [int] is 16 bits on the ATmega328P, [unsigned long] is 32 bits. *)
Definition int16 (z : Z) : Z := (z + 32768) mod 65536 - 32768.
Definition uint32 (z : Z) : Z := z mod 4294967296.

(** [SD.open(nombre, FILE_WRITE)] creates the file when it is missing and
    positions every write at the end; [anexar] is open, write, close. *)
Definition anexar (sd : gmap string bytes) (nombre : string) (datos : bytes)
  : gmap string bytes :=
  <[nombre := default [] (sd !! nombre) ++ datos]> sd.

(** [strtok] with a one-character delimiter set.  [saltar_delim] skips the
    leading delimiters, [hasta_delim] cuts the token and returns what
    follows the delimiter that ended it (the position [strtok] saves). *)
Fixpoint saltar_delim (d : ascii) (s : bytes) : bytes :=
  match s with
  | [] => []
  | c :: r => if Ascii.eqb c d then saltar_delim d r else s
  end.

Fixpoint hasta_delim (d : ascii) (s : bytes) : bytes * bytes :=
  match s with
  | [] => ([], [])
  | c :: r =>
      if Ascii.eqb c d then ([], r)
      else let (t, r') := hasta_delim d r in (c :: t, r')
  end.

Definition strtok (d : ascii) (s : bytes) : option bytes * bytes :=
  match saltar_delim d s with
  | [] => (None, [])
  | s' => let (t, r) := hasta_delim d s' in (Some t, r)
  end.

(** What is left in the buffer, read as a C string, after the first
    [strtok]: the first delimiter after the first token became NUL. *)
Definition tras_strtok (d : ascii) (s : bytes) : bytes :=
  let s' := saltar_delim d s in
  take (length s - length s')%nat s ++ fst (hasta_delim d s').

(** The bytes that follow the first line feed (nothing when there is none):
    what the "skip the first line, copy the rest" loops copy. *)
Fixpoint tras_primera_linea (f : bytes) : bytes :=
  match f with
  | [] => []
  | c :: r => if Ascii.eqb c LF then r else tras_primera_linea r
  end.

(** The lines of a file: the runs of bytes ended by a line feed, without
    it.  Bytes after the last line feed are not a line. *)
Fixpoint lineas_desde (actual : bytes) (f : bytes) : list bytes :=
  match f with
  | [] => []
  | c :: r =>
      if Ascii.eqb c LF then actual :: lineas_desde [] r
      else lineas_desde (actual ++ [c]) r
  end.

Definition lineas (f : bytes) : list bytes := lineas_desde [] f.

(** A record text [r] is present in a log when one of its lines is [r]
    once the carriage returns are dropped. *)
Definition sin_cr (l : bytes) : bytes :=
  filter (fun c => c <> CR) l.


(** The number of lines of a log that hold the record text [r]. *)
Definition copias (r : bytes) (f : option bytes) : nat :=
  match f with
  | None => O
  | Some c => length (filter (fun l => l = r) (map sin_cr (lineas c)))
  end.

(** The bytes after the last line feed; a log is complete when there are
    none. *)
Fixpoint cola_desde (actual : bytes) (f : bytes) : bytes :=
  match f with
  | [] => actual
  | c :: r =>
      if Ascii.eqb c LF then cola_desde [] r else cola_desde (actual ++ [c]) r
  end.

Definition completo (f : bytes) : Prop := cola_desde [] f = [].

(** One HTTP request: the five values placed in the URL. *)
Record Envio := mkEnvio {
  e_temp : bytes; e_cond : bytes; e_bat : bytes; e_volt : bytes; e_cob : bytes
}.

(* ===================================================================== *)
(** * The "v2.0 OPTIMIZADO" sketch                                        *)
(* ===================================================================== *)

Module Optimizado.

Definition MAX_REINTENTOS : Z := 3.
Definition BUFFER_SIZE : Z := 120.
Definition ARCHIVO_PENDIENTES : string := "pendient.csv".
Definition ARCHIVO_ENVIADOS : string := "enviado.csv".
Definition TEMP_TMP : string := "temp.tmp".
Definition ARCHIVO_LOG : string := "log.txt".
Definition ENCABEZADO : bytes :=
  texto "ID;Timestamp;Temperatura;Conductividad;Bateria;Voltaje;Cobertura".

(** The globals of the sketch that the queue uses, the card, and the
    environment: [red] holds the outcomes of the requests to come, [traza]
    the requests made so far.  [sd] holds the files of the card other than
    [log.txt]: [escribirLog] appends a line with the value of [millis()]
    to that file, which nothing reads back, and the model does not follow
    it. *)
Record Estado := mkEstado {
  sdDisponible : bool;
  contadorMediciones : Z;
  bufferLinea : bytes;
  sd : gmap string bytes;
  red : list bool;
  traza : list (Envio * bool)
}.

Definition con_sd (e : Estado) (s : gmap string bytes) : Estado :=
  mkEstado (sdDisponible e) (contadorMediciones e) (bufferLinea e) s
           (red e) (traza e).

Definition con_buffer (e : Estado) (b : bytes) : Estado :=
  mkEstado (sdDisponible e) (contadorMediciones e) b (sd e)
           (red e) (traza e).

Definition con_contador (e : Estado) (n : Z) : Estado :=
  mkEstado (sdDisponible e) n (bufferLinea e) (sd e) (red e) (traza e).

(** [contarLineas]: one increment of the 16-bit [int lineas] per line feed. *)
Fixpoint contarLineas_bucle (resto : bytes) (lineas : Z) : Z :=
  match resto with
  | [] => lineas
  | c :: r =>
      contarLineas_bucle r (if Ascii.eqb c LF then int16 (lineas + 1) else lineas)
  end.

Definition contarLineas (e : Estado) (nombreArchivo : string) : Z :=
  if negb (sdDisponible e) then 0
  else match sd e !! nombreArchivo with
       | None => 0
       | Some archivo => contarLineas_bucle archivo 0
       end.

(** [leerLineaN]: [buffer] holds the bytes stored so far ([pos] is its
    length).  [Some] is the C string left in the buffer on [return true];
    [None] is [return false]. *)
Fixpoint leerLineaN_bucle (resto : bytes) (numeroLinea lineaActual : Z)
  (bufferSize : Z) (buffer : bytes) : option bytes :=
  match resto with
  | [] => None
  | c :: r =>
      if lineaActual =? numeroLinea then
        if Ascii.eqb c LF || (bufferSize - 1 <=? Z.of_nat (length buffer))
        then Some (cstr buffer)
        else leerLineaN_bucle r numeroLinea lineaActual bufferSize (buffer ++ [c])
      else if Ascii.eqb c LF then
        if int16 (lineaActual + 1) >? numeroLinea then None
        else leerLineaN_bucle r numeroLinea (int16 (lineaActual + 1)) bufferSize buffer
      else leerLineaN_bucle r numeroLinea lineaActual bufferSize buffer
  end.

Definition leerLineaN (e : Estado) (nombreArchivo : string) (numeroLinea : Z)
  (bufferSize : Z) : option bytes :=
  if negb (sdDisponible e) then None
  else match sd e !! nombreArchivo with
       | None => None
       | Some archivo => leerLineaN_bucle archivo numeroLinea 0 bufferSize []
       end.

(** [eliminarPrimeraLinea]: copy all but the first line to [temp.tmp]
    (opened with FILE_WRITE, so after what it may already hold), remove the
    file, copy [temp.tmp] back byte by byte, remove [temp.tmp]. *)
Definition eliminarPrimeraLinea (e : Estado) (nombreArchivo : string)
  : bool * Estado :=
  if negb (sdDisponible e) then (false, e)
  else match sd e !! nombreArchivo with
       | None => (false, e)
       | Some origen =>
           let sd1 := anexar (sd e) TEMP_TMP (tras_primera_linea origen) in
           let sd2 := delete nombreArchivo sd1 in
           match sd2 !! TEMP_TMP with
           | Some temp_read =>
               let sd3 := anexar sd2 nombreArchivo temp_read in
               (true, con_sd e (delete TEMP_TMP sd3))
           | None => (false, con_sd e (anexar sd2 nombreArchivo []))
           end
       end.

(** [guardarMedicion]: one CSV line at the end of the pending log, ended
    by the [println] of the last field.  [ms] is the value [millis()]
    returns. *)
Definition lineaCSV (id ms : Z) (m : Envio) : bytes :=
  decimal id ++ [PYC] ++ decimal ms ++ [PYC] ++ cstr (e_temp m) ++ [PYC]
  ++ cstr (e_cond m) ++ [PYC] ++ cstr (e_bat m) ++ [PYC]
  ++ cstr (e_volt m) ++ [PYC] ++ cstr (e_cob m).

Definition guardarMedicion (e : Estado) (ms : Z) (m : Envio) : bool * Estado :=
  if negb (sdDisponible e) then (false, e)
  else (true, con_sd e (anexar (sd e) ARCHIVO_PENDIENTES
                          (lineaCSV (contadorMediciones e) ms m ++ [CR; LF]))).

(** [marcarComoEnviado]: append the line to the sent log, then remove the
    first line of the pending log. *)
Definition marcarComoEnviado (e : Estado) (linea : bytes) : bool * Estado :=
  if negb (sdDisponible e) then (false, e)
  else
    let e1 := con_sd e (anexar (sd e) ARCHIVO_ENVIADOS (println linea)) in
    eliminarPrimeraLinea e1 ARCHIVO_PENDIENTES.

(** [setup]: a boot.  The globals take their initial values; when
    [SD.begin] succeeds the two logs that are missing are created with the
    header line.  The card and the environment are what they were.  The
    creation of [log.txt] and the line [escribirLog("Sistema iniciado")]
    appends to it are outside [sd]. *)
Definition crear_si_falta (s : gmap string bytes) (nombre : string)
  : gmap string bytes :=
  match s !! nombre with
  | Some _ => s
  | None => anexar s nombre (println ENCABEZADO)
  end.

Definition setup (sd_begin : bool) (tarjeta : gmap string bytes)
  (enlace : list bool) (hechos : list (Envio * bool)) : Estado :=
  if sd_begin then
    mkEstado true 0 []
      (crear_si_falta (crear_si_falta tarjeta ARCHIVO_PENDIENTES) ARCHIVO_ENVIADOS)
      enlace hechos
  else mkEstado false 0 [] tarjeta enlace hechos.

(** [enviarHTTP]: the request is recorded, its outcome is the next one of
    the link (no reply at all counts as a failure).  The update of
    [periodo] and [acumula] from the reply does not touch the queue. *)
Definition enviarHTTP (e : Estado) (m : Envio) : bool * Estado :=
  let exitoso := hd false (red e) in
  (exitoso,
   mkEstado (sdDisponible e) (contadorMediciones e) (bufferLinea e) (sd e)
            (tl (red e)) (traza e ++ [(m, exitoso)])).

(** The [strtok] calls of the drain on the line read.  [SinCabecera]: the
    first or the second call returned NULL (the two [break]);
    [Corrupta]: one of the five data tokens is NULL. *)
Inductive Parseo :=
| SinCabecera
| Corrupta
| Campos (m : Envio).

Definition parsear (linea : bytes) : Parseo :=
  match strtok PYC linea with
  | (None, _) => SinCabecera
  | (Some _, r1) =>
      match strtok PYC r1 with
      | (None, _) => SinCabecera
      | (Some _, r2) =>
          let '(temp, r3) := strtok PYC r2 in
          let '(cond, r4) := strtok PYC r3 in
          let '(bat, r5) := strtok PYC r4 in
          let '(volt, r6) := strtok PYC r5 in
          let '(cob, _) := strtok PYC r6 in
          match temp, cond, bat, volt, cob with
          | Some temp, Some cond, Some bat, Some volt, Some cob =>
              Campos (mkEnvio temp cond bat volt cob)
          | _, _, _, _, _ => Corrupta
          end
      end
  end.

(** What the drain decodes from a pending log: line 0, then the tokens. *)
Definition decodificar (archivo : bytes) : option Parseo :=
  match leerLineaN_bucle archivo 0 0 BUFFER_SIZE [] with
  | Some linea => Some (parsear linea)
  | None => None
  end.

(** One turn of the [while] of [reintentarPendientes].  The boolean tells
    whether the loop goes on ([false] is a [break]); the two numbers are
    [enviados] and [intentos].  After the first [strtok] the buffer reads
    as [tras_strtok].  A failed [leerLineaN] leaves the buffer without
    terminator; the model keeps the previous buffer there. *)
Definition iteracion (e : Estado) (enviados intentos : Z)
  : bool * (Estado * Z * Z) :=
  match leerLineaN e ARCHIVO_PENDIENTES 0 BUFFER_SIZE with
  | None => (false, (e, enviados, intentos))
  | Some linea =>
      let e1 := con_buffer e (tras_strtok PYC linea) in
      match parsear linea with
      | SinCabecera => (false, (e1, enviados, intentos))
      | Corrupta =>
          let (_, e2) := eliminarPrimeraLinea e1 ARCHIVO_PENDIENTES in
          (true, (e2, enviados, intentos + 1))
      | Campos m =>
          let (exitoso, e2) := enviarHTTP e1 m in
          if exitoso then
            let e3 :=
              match leerLineaN e2 ARCHIVO_PENDIENTES 0 BUFFER_SIZE with
              | Some l => con_buffer e2 l
              | None => e2
              end in
            let (_, e4) := marcarComoEnviado e3 (bufferLinea e3) in
            (true, (e4, enviados + 1, intentos + 1))
          else (false, (e2, enviados, intentos))
      end
  end.

(** The [while (intentos < MAX_REINTENTOS && intentos < pendientes)].  The
    first argument bounds the number of turns; [MAX_REINTENTOS] turns are
    always enough (lemma [reintentar_bucle_mas] below). *)
Fixpoint reintentar_bucle (vueltas : nat) (pendientes : Z) (e : Estado)
  (enviados intentos : Z) : Estado * Z * Z :=
  match vueltas with
  | O => (e, enviados, intentos)
  | S n =>
      if (intentos <? MAX_REINTENTOS) && (intentos <? pendientes) then
        match iteracion e enviados intentos with
        | (true, (e', enviados', intentos')) =>
            reintentar_bucle n pendientes e' enviados' intentos'
        | (false, fin) => fin
        end
      else (e, enviados, intentos)
  end.

(** [reintentarPendientes]: the state after the drain, the value returned
    ([enviados]) and the final value of the local [intentos]. *)
Definition reintentarPendientes (e : Estado) : Estado * Z * Z :=
  if negb (sdDisponible e) then (e, 0, 0)
  else
    let pendientes := contarLineas e ARCHIVO_PENDIENTES in
    if pendientes =? 0 then (e, 0, 0)
    else reintentar_bucle (Z.to_nat MAX_REINTENTOS) pendientes e 0 0.

(** Step 4 of [loop] after the record was saved: send it, and on success
    mark the last line of the pending log as sent.  On a failed request
    the sketch calls [escribirLog("Envio fallido, en cola")]: that line of
    [log.txt] is outside [sd]. *)
Definition enviar_inmediato (e : Estado) (guardado : bool) (m : Envio) : Estado :=
  let (enviado, e1) := enviarHTTP e m in
  if enviado && guardado then
    let numLineas := contarLineas e1 ARCHIVO_PENDIENTES in
    if numLineas >? 1 then
      let e2 :=
        match leerLineaN e1 ARCHIVO_PENDIENTES (numLineas - 1) BUFFER_SIZE with
        | Some l => con_buffer e1 l
        | None => e1
        end in
      snd (marcarComoEnviado e2 (bufferLinea e2))
    else e1
  else e1.

(** One cycle of [loop] once the battery gate lets it run.  [ms] is what
    [millis()] returns in [guardarMedicion], [m] holds the five buffers
    filled by the sampling step. *)
Definition loop (e : Estado) (ms : Z) (m : Envio) : Estado :=
  let '(e1, _, _) := reintentarPendientes e in
  let e2 := con_contador e1 (uint32 (contadorMediciones e1 + 1)) in
  let (guardado, e3) := guardarMedicion e2 ms m in
  enviar_inmediato e3 guardado m.

(** A power cut followed by a boot: the card and the link survive, the
    globals do not. *)
Definition reinicio (e : Estado) : Estado :=
  setup true (sd e) (red e) (traza e).

(** The life of a device: cycles and power cuts.  [vida] lists the
    identifiers given to the records created, in order. *)
Inductive Evento :=
| Ciclo (ms : Z) (m : Envio)
| Corte.

Fixpoint vida (e : Estado) (eventos : list Evento) : list Z :=
  match eventos with
  | [] => []
  | Ciclo ms m :: r =>
      let e' := loop e ms m in contadorMediciones e' :: vida e' r
  | Corte :: r => vida (reinicio e) r
  end.

(** ** Power cuts

    What [marcarComoEnviado] does to the card, effect by effect and in
    program order: a file opened with FILE_WRITE is created when it is
    missing, a byte written goes to the end of its file, a file is
    removed.  [println(linea)] is a [write] of the line and a [write] of
    carriage return, line feed; a [write] that is cut short leaves the
    bytes it had written, so the effects are listed byte by byte.  The
    card after a power cut is the card after a prefix of the effects. *)
Inductive Efecto :=
| Abre (nombre : string)
| Escribe (nombre : string) (c : ascii)
| Quita (nombre : string).

Definition efecto (s : gmap string bytes) (x : Efecto) : gmap string bytes :=
  match x with
  | Abre nombre => anexar s nombre []
  | Escribe nombre c => anexar s nombre [c]
  | Quita nombre => delete nombre s
  end.

Definition tras (s : gmap string bytes) (efectos : list Efecto)
  : gmap string bytes :=
  fold_left efecto efectos s.

(** The effects of [eliminarPrimeraLinea] on the card [s], in the order of
    the source: [SD.open(temp, FILE_WRITE)]; one [destino.write(c)] for
    every byte after the first line feed; [SD.remove(nombreArchivo)];
    [SD.open(nombreArchivo, FILE_WRITE)]; one [original_write.write] for
    every byte that [temp.tmp] holds by then; [SD.remove(temp)]. *)
Definition efectos_eliminarPrimeraLinea (s : gmap string bytes)
  (nombreArchivo : string) : list Efecto :=
  match s !! nombreArchivo with
  | None => []
  | Some origen =>
      let copia :=
        Abre TEMP_TMP :: map (Escribe TEMP_TMP) (tras_primera_linea origen) in
      let s2 := delete nombreArchivo (tras s copia) in
      copia ++ Quita nombreArchivo ::
        match s2 !! TEMP_TMP with
        | Some temp_read =>
            Abre nombreArchivo :: map (Escribe nombreArchivo) temp_read
            ++ [Quita TEMP_TMP]
        | None => [Abre nombreArchivo]
        end
  end.

(** The effects of [marcarComoEnviado e linea]:
    [SD.open(ARCHIVO_ENVIADOS, FILE_WRITE)], the bytes of
    [enviados.println(linea)], then the effects of
    [eliminarPrimeraLinea(ARCHIVO_PENDIENTES)] on the card as it is by
    then. *)
Definition efectos_marcarComoEnviado (e : Estado) (linea : bytes)
  : list Efecto :=
  if negb (sdDisponible e) then []
  else
    let anexo :=
      Abre ARCHIVO_ENVIADOS :: map (Escribe ARCHIVO_ENVIADOS) (println linea) in
    anexo ++ efectos_eliminarPrimeraLinea (tras (sd e) anexo) ARCHIVO_PENDIENTES.

(** The promotion the drain performs on an acknowledgement: read line 0
    again and mark it as sent (lines 1326-1330 of the sketch). *)
Definition promover (e : Estado) : bool * Estado :=
  let e1 :=
    match leerLineaN e ARCHIVO_PENDIENTES 0 BUFFER_SIZE with
    | Some l => con_buffer e l
    | None => e
    end in
  marcarComoEnviado e1 (bufferLinea e1).

(** The effects of the promotion, and the card when the power is cut after
    the first [n] of them. *)
Definition efectos_promover (e : Estado) : list Efecto :=
  let e1 :=
    match leerLineaN e ARCHIVO_PENDIENTES 0 BUFFER_SIZE with
    | Some l => con_buffer e l
    | None => e
    end in
  efectos_marcarComoEnviado e1 (bufferLinea e1).

Definition corte (e : Estado) (n : nat) : gmap string bytes :=
  tras (sd e) (take n (efectos_promover e)).

End Optimizado.

(* ===================================================================== *)
(** * The "v3.0" modular sketch                                           *)
(* ===================================================================== *)

Module Modular.

Definition MAX_REINTENTOS : Z := 3.
Definition ARCHIVO_PENDIENTES : string := "pendient.csv".
Definition ARCHIVO_ENVIADOS : string := "enviado.csv".
Definition TEMP_TMP : string := "temp.tmp".

(** [itoa(n, temp, 10)] and [ultoa(n, temp, 10)]. *)
Definition ultoa (n : Z) : bytes := decimal n.
Definition itoa (n : Z) : bytes :=
  if n <? 0 then "-"%char :: decimal (- n) else decimal n.

Section Sketch.

(** [float] and [dtostrf(valor, ancho, decimales, temp)] belong to avr-libc;
    the sketch is modelled over any rendering of the sensor values. *)
Variable flotante : Type.
Variable dtostrf : flotante -> Z -> Z -> bytes.

Record DatosSensores := mkDatos {
  temperatura : flotante;
  conductividad : flotante;
  oxigeno_disuelto : flotante;
  bateria : Z;
  voltaje : Z;
  cobertura_gsm : Z;
  timestamp : Z
}.

(** A request is built either from the tokens of a stored line (drain) or
    from the measurement just taken (immediate send). *)
Inductive Peticion :=
| DeLinea (campos : list (option bytes))
| DeMedicion (datos : DatosSensores).

(** [montada] tells whether [SD.begin] succeeded: every [SD.open] fails
    when it did not. *)
Record Estado := mkEstado {
  montada : bool;
  sd : gmap string bytes;
  red : list bool;
  traza : list (Peticion * bool)
}.

Definition con_sd (e : Estado) (s : gmap string bytes) : Estado :=
  mkEstado (montada e) s (red e) (traza e).

(** [generarLineaCSV]: the buffer after the chain of [strcat]. *)
Definition generarLineaCSV (datos : DatosSensores) : bytes :=
  cstr (ultoa (timestamp datos)) ++ [PYC]
  ++ cstr (dtostrf (temperatura datos) 5 2) ++ [PYC]
  ++ cstr (dtostrf (conductividad datos) 6 1) ++ [PYC]
  ++ cstr (dtostrf (oxigeno_disuelto datos) 5 2) ++ [PYC]
  ++ cstr (itoa (bateria datos)) ++ [PYC]
  ++ cstr (itoa (voltaje datos)) ++ [PYC]
  ++ cstr (itoa (cobertura_gsm datos)).

(** [guardarEnSD]. *)
Definition guardarEnSD (e : Estado) (datos : DatosSensores) : bool * Estado :=
  if negb (montada e) then (false, e)
  else (true, con_sd e (anexar (sd e) ARCHIVO_PENDIENTES
                               (println (generarLineaCSV datos)))).

(** [contarLineas]. *)
Definition contarLineas (e : Estado) (nombreArchivo : string) : Z :=
  if negb (montada e) then 0
  else match sd e !! nombreArchivo with
       | None => 0
       | Some archivo => Optimizado.contarLineas_bucle archivo 0
       end.

(** [leerPrimeraLinea]: the bytes stored before the first line feed or
    carriage return, 149 at most; [None] is [return false]. *)
Fixpoint leerPrimeraLinea_bucle (resto : bytes) (buffer : bytes) : bytes :=
  match resto with
  | [] => buffer
  | c :: r =>
      if (Z.of_nat (length buffer) <? 149) then
        if Ascii.eqb c LF || Ascii.eqb c CR then buffer
        else leerPrimeraLinea_bucle r (buffer ++ [c])
      else buffer
  end.

Definition leerPrimeraLinea (e : Estado) (nombreArchivo : string) : option bytes :=
  if negb (montada e) then None
  else match sd e !! nombreArchivo with
       | None => None
       | Some archivo =>
           let buffer := leerPrimeraLinea_bucle archivo [] in
           if (0 <? Z.of_nat (length buffer)) then Some (cstr buffer) else None
       end.

(** [moverPrimeraLineaAEnviados]: append the first line to the sent log,
    copy the rest of the pending log after what [temp.tmp] holds, remove
    the pending log and give [temp.tmp] its name. *)
Definition moverPrimeraLineaAEnviados (e : Estado) : bool * Estado :=
  match leerPrimeraLinea e ARCHIVO_PENDIENTES with
  | None => (false, e)
  | Some linea =>
      let sd1 := anexar (sd e) ARCHIVO_ENVIADOS (println linea) in
      match sd1 !! ARCHIVO_PENDIENTES with
      | None => (false, con_sd e sd1)
      | Some origen =>
          let sd2 := anexar sd1 TEMP_TMP (tras_primera_linea origen) in
          let temp := default [] (sd2 !! TEMP_TMP) in
          (true, con_sd e (<[ARCHIVO_PENDIENTES := temp]>
                             (delete TEMP_TMP (delete ARCHIVO_PENDIENTES sd2))))
      end
  end.

(** [enviarHTTP]: as in the other sketches, the outcome comes from the link. *)
Definition enviarHTTP (e : Estado) (p : Peticion) : bool * Estado :=
  let exito := hd false (red e) in
  (exito, mkEstado (montada e) (sd e) (tl (red e)) (traza e ++ [(p, exito)])).

(** The seven [strtok] calls of the drain.  A call that returns NULL gives
    [None]: the sketch hands the null pointer to [atol], [atof] or [atoi]
    and goes on with whatever number comes out.  The numeric conversion of
    the tokens is avr-libc's; the request is recorded with the tokens. *)
Fixpoint tokens (n : nat) (s : bytes) : list (option bytes) :=
  match n with
  | O => []
  | S k => let (t, r) := strtok PYC s in t :: tokens k r
  end.

(** The [while (reintentos < MAX_REINTENTOS && leerPrimeraLinea(...))].
    The first argument bounds the number of turns; [MAX_REINTENTOS] turns
    are always enough. *)
Fixpoint reintentar_bucle (vueltas : nat) (e : Estado) (reintentos : Z)
  : Estado * Z :=
  match vueltas with
  | O => (e, reintentos)
  | S n =>
      if reintentos <? MAX_REINTENTOS then
        match leerPrimeraLinea e ARCHIVO_PENDIENTES with
        | None => (e, reintentos)
        | Some linea =>
            let (exito, e1) := enviarHTTP e (DeLinea (tokens 7 linea)) in
            if exito then
              let (_, e2) := moverPrimeraLineaAEnviados e1 in
              reintentar_bucle n e2 (reintentos + 1)
            else (e1, reintentos)
        end
      else (e, reintentos)
  end.

Definition reintentarPendientes (e : Estado) : Estado * Z :=
  let pendientes := contarLineas e ARCHIVO_PENDIENTES in
  if pendientes =? 0 then (e, 0)
  else reintentar_bucle (Z.to_nat MAX_REINTENTOS) e 0.

(** Steps 1 and 2 of [loop] for the measurement [datos]. *)
Definition guardar_y_enviar (e : Estado) (datos : DatosSensores) : Estado :=
  let (_, e1) := guardarEnSD e datos in
  let (exito, e2) := enviarHTTP e1 (DeMedicion datos) in
  if exito then snd (moverPrimeraLineaAEnviados e2) else e2.

(** One cycle of [loop] once the battery gate lets it run. *)
Definition loop (e : Estado) (datos : DatosSensores) : Estado :=
  guardar_y_enviar (fst (reintentarPendientes e)) datos.

End Sketch.

Arguments mkDatos {flotante}.
Arguments DeLinea {flotante}.
Arguments DeMedicion {flotante}.
Arguments mkEstado {flotante}.
Arguments montada {flotante}.
Arguments sd {flotante}.
Arguments red {flotante}.
Arguments traza {flotante}.
Arguments con_sd {flotante}.
Arguments contarLineas {flotante}.
Arguments leerPrimeraLinea {flotante}.
Arguments moverPrimeraLineaAEnviados {flotante}.
Arguments enviarHTTP {flotante}.
Arguments reintentar_bucle {flotante}.
Arguments reintentarPendientes {flotante}.
Arguments generarLineaCSV {flotante}.
Arguments guardarEnSD {flotante}.
Arguments guardar_y_enviar {flotante}.
Arguments loop {flotante}.

End Modular.

(* ===================================================================== *)
(** * The single-file sketch [SD_HTTP_SIM800.ino]                          *)
(* ===================================================================== *)

Module Respaldo.

Definition MAX_REINTENTOS : Z := 3.
Definition DATOS_CSV : string := "datos.csv".
Definition TEMP_CSV : string := "temp.csv".
Definition PENDIENTE : bytes := texto "PENDIENTE".
Definition ENVIADO : bytes := texto "ENVIADO".

(** ** The methods of the Arduino [String] class that the sketch calls.
    A [String] is a buffer and a length.  [+= c] stores any byte, NUL
    included, and [print] writes [length()] bytes; [indexOf],
    [lastIndexOf] and [substring] go through [strstr], [strchr],
    [strrchr] and a C-string copy, which stop at the first NUL of the
    buffer.  [unsigned int] is 16 bits: a negative [int] argument arrives
    as [65536 + n]. *)
Definition uint16 (z : Z) : Z := z mod 65536.

(** [long] is 32 bits. *)
Definition int32 (z : Z) : Z := (z + 2147483648) mod 4294967296 - 2147483648.

(** [s.startsWith(p)] is [strncmp] over the length of [p], a text without
    NUL. *)
Fixpoint startsWith (s p : bytes) : bool :=
  match p, s with
  | [], _ => true
  | _ :: _, [] => false
  | a :: p', b :: s' => Ascii.eqb a b && startsWith s' p'
  end.

(** [strstr] on two C strings given by their bytes: the first position
    where [p] occurs, counted from [i], [-1] if none. *)
Fixpoint strstr_bucle (s p : bytes) (i : Z) : Z :=
  match s with
  | [] => if startsWith [] p then i else -1
  | _ :: r => if startsWith s p then i else strstr_bucle r p (i + 1)
  end.

(** [s.indexOf(p, desde)] for a literal [p]: [strstr] from [buffer + desde]. *)
Definition indexOf_str (s p : bytes) (desde : Z) : Z :=
  let d := uint16 desde in
  if Z.of_nat (length s) <=? d then -1
  else strstr_bucle (cstr (drop (Z.to_nat d) s)) p d.

(** [s.indexOf(c, desde)]: [strchr] from [buffer + desde]. *)
Fixpoint indexOf_bucle (s : bytes) (c : ascii) (i : Z) : Z :=
  match s with
  | [] => -1
  | a :: r => if Ascii.eqb a c then i else indexOf_bucle r c (i + 1)
  end.

Definition indexOf (s : bytes) (c : ascii) (desde : Z) : Z :=
  let d := uint16 desde in
  if Z.of_nat (length s) <=? d then -1
  else indexOf_bucle (cstr (drop (Z.to_nat d) s)) c d.

(** [s.lastIndexOf(c)]: [strrchr] on the buffer. *)
Fixpoint lastIndexOf_bucle (s : bytes) (c : ascii) (i ultimo : Z) : Z :=
  match s with
  | [] => ultimo
  | a :: r => lastIndexOf_bucle r c (i + 1) (if Ascii.eqb a c then i else ultimo)
  end.

Definition lastIndexOf (s : bytes) (c : ascii) : Z :=
  lastIndexOf_bucle (cstr s) c 0 (-1).

(** [s.substring(izq, der)]: the bounds are swapped when out of order and
    cut at the length; the result is the C string that starts at
    [buffer + izq] once [buffer[der]] is set to NUL. *)
Definition substring (s : bytes) (izq der : Z) : bytes :=
  let a := Z.min (uint16 izq) (uint16 der) in
  let b := Z.max (uint16 izq) (uint16 der) in
  if Z.of_nat (length s) <=? a then []
  else cstr (take (Z.to_nat (Z.min b (Z.of_nat (length s)) - a))
                  (drop (Z.to_nat a) s)).

(** [s.toInt()] is [atol] on the buffer: blanks, a sign, then digits,
    accumulated in a [long].  [valor_decimal] is the number the text
    denotes, [toInt] what 32 bits keep of it. *)
Definition es_blanco (c : ascii) : bool :=
  let n := Z.of_nat (nat_of_ascii c) in (n =? 32) || ((9 <=? n) && (n <=? 13)).

Definition digito (c : ascii) : option Z :=
  let n := Z.of_nat (nat_of_ascii c) in
  if (48 <=? n) && (n <=? 57) then Some (n - 48) else None.

Fixpoint saltar_blancos (s : bytes) : bytes :=
  match s with
  | [] => []
  | c :: r => if es_blanco c then saltar_blancos r else s
  end.

Fixpoint leer_digitos (s : bytes) (acc : Z) : Z :=
  match s with
  | [] => acc
  | c :: r =>
      match digito c with
      | Some d => leer_digitos r (10 * acc + d)
      | None => acc
      end
  end.

Definition valor_decimal (s : bytes) : Z :=
  match saltar_blancos s with
  | c :: r =>
      if Ascii.eqb c "-"%char then - leer_digitos r 0
      else if Ascii.eqb c "+"%char then leer_digitos r 0
      else leer_digitos (c :: r) 0
  | [] => 0
  end.

Definition toInt (s : bytes) : Z := int32 (valor_decimal s).

(** ** The sketch *)

Record Estado := mkEstado {
  sdDisponible : bool;
  contadorMediciones : Z;
  sd : gmap string bytes;
  red : list bool;
  traza : list (Envio * bool)
}.

Definition con_sd (e : Estado) (s : gmap string bytes) : Estado :=
  mkEstado (sdDisponible e) (contadorMediciones e) s (red e) (traza e).

Definition con_contador (e : Estado) (n : Z) : Estado :=
  mkEstado (sdDisponible e) n (sd e) (red e) (traza e).

(** [guardarDatosSD]: [ms] is the value of [millis()]. *)
Definition lineaCSV (id ms : Z) (m : Envio) : bytes :=
  decimal id ++ [PYC] ++ decimal ms ++ [PYC] ++ e_temp m ++ [PYC]
  ++ e_cond m ++ [PYC] ++ e_bat m ++ [PYC] ++ e_volt m ++ [PYC]
  ++ e_cob m ++ [PYC] ++ PENDIENTE.

Definition guardarDatosSD (e : Estado) (id ms : Z) (m : Envio) : bool * Estado :=
  if negb (sdDisponible e) then (false, e)
  else (true, con_sd e (anexar (sd e) DATOS_CSV (lineaCSV id ms m ++ [CR; LF]))).

(** [marcarComoEnviado]: the line that starts with the identifier gets the
    text after its last semicolon replaced by ENVIADO.  [println(linea)]
    on a [String] writes its [length()] bytes, then carriage return, line
    feed. *)
Definition marcar_linea (id : Z) (linea : bytes) : bytes :=
  if startsWith linea (decimal id ++ [PYC]) then
    substring linea 0 (lastIndexOf linea PYC + 1) ++ ENVIADO
  else linea.

Fixpoint marcar_bucle (resto : bytes) (id : Z) (linea : bytes) : bytes :=
  match resto with
  | [] =>
      if (0 <? Z.of_nat (length linea)) then marcar_linea id linea ++ [CR; LF]
      else []
  | c :: r =>
      if Ascii.eqb c LF then
        (marcar_linea id linea ++ [CR; LF]) ++ marcar_bucle r id []
      else marcar_bucle r id (linea ++ [c])
  end.

Definition marcarComoEnviado (e : Estado) (id : Z) : bool * Estado :=
  if negb (sdDisponible e) then (false, e)
  else
    let sd0 := delete TEMP_CSV (sd e) in
    match sd0 !! DATOS_CSV with
    | None => (false, con_sd e (anexar sd0 TEMP_CSV []))
    | Some original =>
        let sd1 := anexar sd0 TEMP_CSV (marcar_bucle original id []) in
        let sd2 := delete DATOS_CSV sd1 in
        match sd2 !! TEMP_CSV with
        | Some origen =>
            (true, con_sd e (delete TEMP_CSV (anexar sd2 DATOS_CSV origen)))
        | None => (false, con_sd e (anexar sd2 DATOS_CSV []))
        end
    end.

(** [enviahttp] and the test of the reply for "200" or "OK". *)
Definition enviahttp (e : Estado) (m : Envio) : bool * Estado :=
  let exito := hd false (red e) in
  (exito, mkEstado (sdDisponible e) (contadorMediciones e) (sd e)
                   (tl (red e)) (traza e ++ [(m, exito)])).

(** The fields of a stored line, cut at the positions of its semicolons. *)
Definition campos (linea : bytes) : Z * Envio :=
  let i0 := indexOf linea PYC 0 in
  let i1 := indexOf linea PYC (i0 + 1) in
  let i2 := indexOf linea PYC (i1 + 1) in
  let i3 := indexOf linea PYC (i2 + 1) in
  let i4 := indexOf linea PYC (i3 + 1) in
  let i5 := indexOf linea PYC (i4 + 1) in
  let i6 := indexOf linea PYC (i5 + 1) in
  (uint32 (toInt (substring linea 0 i0)),
   mkEnvio (substring linea (i1 + 1) i2) (substring linea (i2 + 1) i3)
           (substring linea (i3 + 1) i4) (substring linea (i4 + 1) i5)
           (substring linea (i5 + 1) i6)).

(** [reintentarEnviosPendientes].  [resto] is what the handle opened on
    [datos.csv] still has to deliver.  [marcarComoEnviado] replaces the
    file while the handle is open; the model lets the handle go on with the
    bytes it was opened on. *)
Fixpoint reintentar_bucle (resto : bytes) (linea : bytes) (e : Estado)
  (enviados intentos : Z) : Estado * Z * Z :=
  match resto with
  | [] => (e, enviados, intentos)
  | c :: r =>
      if intentos <? MAX_REINTENTOS then
        if Ascii.eqb c LF then
          if indexOf_str linea PENDIENTE 0 >? 0 then
            let '(id, m) := campos linea in
            let (exito, e1) := enviahttp e m in
            if exito then
              let (_, e2) := marcarComoEnviado e1 id in
              reintentar_bucle r [] e2 (enviados + 1) (intentos + 1)
            else reintentar_bucle r [] e1 enviados (intentos + 1)
          else reintentar_bucle r [] e enviados intentos
        else reintentar_bucle r (linea ++ [c]) e enviados intentos
      else (e, enviados, intentos)
  end.

Definition reintentarEnviosPendientes (e : Estado) : Estado * Z * Z :=
  if negb (sdDisponible e) then (e, 0, 0)
  else match sd e !! DATOS_CSV with
       | None => (e, 0, 0)
       | Some archivo => reintentar_bucle archivo [] e 0 0
       end.

(** One cycle of [loop] once the battery gate lets it run. *)
Definition loop (e : Estado) (ms : Z) (m : Envio) : Estado :=
  let '(e1, _, _) := reintentarEnviosPendientes e in
  let e2 := con_contador e1 (uint32 (contadorMediciones e1 + 1)) in
  let (guardadoOK, e3) := guardarDatosSD e2 (contadorMediciones e2) ms m in
  let (exito, e4) := enviahttp e3 m in
  if exito && guardadoOK then snd (marcarComoEnviado e4 (contadorMediciones e4))
  else e4.

End Respaldo.

(* ===================================================================== *)
(** * The rest of the cycle: replies, battery check, sampling             *)
(* ===================================================================== *)

(** The two avr-libc functions the sketches apply to what the modem
    answers. *)
Module Libc.

(** [atoi]: blanks, a sign, digits, in the 16 bits of an [int]. *)
Definition atoi (s : bytes) : Z := int16 (Respaldo.toInt s).

(** [strstr(s, p) != NULL]. *)
Definition strstr (s p : bytes) : bool := 0 <=? Respaldo.strstr_bucle s p 0.

End Libc.

(** What the sketches do with the reply of the server. *)
Module Parametros.

Definition BARRA : ascii := "|"%char.

(** The test of the reply, the same in the three sketches. *)
Definition exitoso (respuesta : bytes) : bool :=
  Libc.strstr respuesta (texto "200") || Libc.strstr respuesta (texto "OK").

(** The end of [enviarHTTP] of the v2.0 sketch: on success the second and
    the third token of the reply replace [periodo] and [acumula] when they
    read as a positive number.  The result is the value returned and the
    two globals. *)
Definition nuevo_valor (token : option bytes) (actual : Z) : Z :=
  match token with
  | Some t => let nuevo := Libc.atoi t in if nuevo >? 0 then nuevo else actual
  | None => actual
  end.

Definition tras_enviarHTTP (bufferRespuesta : bytes) (periodo acumula : Z)
  : bool * Z * Z :=
  let respuesta := cstr bufferRespuesta in
  if exitoso respuesta then
    let '(_, r1) := strtok BARRA respuesta in
    let '(t1, r2) := strtok BARRA r1 in
    let '(t2, _) := strtok BARRA r2 in
    (true, nuevo_valor t1 periodo, nuevo_valor t2 acumula)
  else (false, periodo, acumula).

(** The end of [loop] of the single-file sketch: the tokens are taken
    whatever the outcome and as they read; a zero in either global sets
    both to their defaults. *)
Definition valor_leido (token : option bytes) (actual : Z) : Z :=
  match token with
  | Some t => Libc.atoi t
  | None => actual
  end.

Definition tras_loop (respuesta : bytes) (periodo acumula : Z) : Z * Z :=
  let '(_, r1) := strtok BARRA (cstr respuesta) in
  let '(t1, r2) := strtok BARRA r1 in
  let '(t2, _) := strtok BARRA r2 in
  let periodo1 := valor_leido t1 periodo in
  let acumula1 := valor_leido t2 acumula in
  if (periodo1 =? 0) || (acumula1 =? 0) then (60, 1)
  else (periodo1, acumula1).

End Parametros.

(** The low-battery counter and the check at the top of [loop]. *)
Module Bateria.

Definition UMBRAL_BATERIA_BAJA : Z := 25.

(** The end of [leerBateria] of the v2.0 sketch: [contador_bateria_baja]
    after a reading of [voltios] millivolts. *)
Definition leerBateria (voltios contador : Z) : Z :=
  if (voltios >? 3000) && (voltios <? 3300) then int16 (contador + 1)
  else if voltios >=? 3300 then 0
  else contador.

(** The end of [GetBateria] of the single-file sketch and of [leerBateria]
    of the v3.0 sketch. *)
Definition GetBateria (voltios contador : Z) : Z :=
  if (voltios >? 3000) && (voltios <? 3300) then int16 (contador + 1)
  else if (voltios >? 3300) && (voltios <? 4200) then 0
  else contador.

(** The check: [loop] powers the board down for good. *)
Definition critica (contador : Z) : bool := contador >? UMBRAL_BATERIA_BAJA.

(** The counter after a run of readings, oldest first. *)
Definition tras_lecturas (leer : Z -> Z -> Z) (lecturas : list Z) (contador : Z)
  : Z :=
  fold_left (fun c v => leer v c) lecturas contador.

End Bateria.

(** The accumulation of the readings of one cycle of the v2.0 sketch in
    the 50-byte buffers of [loop]: for each further measurement a bar and
    the number are added with [strcat]. *)
Module Acumulacion.

Definition TAM : Z := 50.

Definition acumular (buffer : bytes) (valor : Z) : bytes :=
  buffer ++ [Parametros.BARRA] ++ Modular.itoa valor.

(** What the cycle writes to [batBuffer], [voltBuffer] or [cobBuffer] for
    the readings [primera :: otras]; [acumula] is [S (length otras)]. *)
Definition buffer_de (primera : Z) (otras : list Z) : bytes :=
  fold_left acumular otras (Modular.itoa primera).

(** The string and its terminator fit the buffer. *)
Definition cabe (b : bytes) : bool := Z.of_nat (length b) + 1 <=? TAM.

End Acumulacion.

(** The integer part of [leerOxigenoDisuelto] of the v3.0 sketch: the
    microgrammes per litre computed from the reading of the converter and
    the temperature cast to [uint8_t].  [None] is a read outside the table
    or a division by zero. *)
Module Oxigeno.

Definition DO_VREF : Z := 5000.
Definition DO_ADC_RES : Z := 1024.
Definition DO_CAL1_V : Z := 1600.
Definition DO_CAL1_T : Z := 25.

Definition DO_Table : list Z :=
  [14460; 14220; 13820; 13440; 13090; 12740; 12420; 12110; 11810; 11530;
   11260; 11010; 10770; 10530; 10300; 10080; 9860; 9660; 9460; 9270;
   9080; 8900; 8730; 8570; 8410; 8250; 8110; 7960; 7820; 7690;
   7560; 7430; 7300; 7180; 7070; 6950; 6840; 6730; 6630; 6530; 6410].

Definition uint16 (z : Z) : Z := z mod 65536.

Definition adc_voltage (adc_raw : Z) : Z :=
  uint16 (uint32 (DO_VREF * adc_raw) / DO_ADC_RES).

Definition V_saturation (temp : Z) : Z :=
  uint16 (uint32 (DO_CAL1_V + 35 * temp - DO_CAL1_T * 35)).

Definition DO_ug (adc_raw temperatura : Z) : option Z :=
  let temp := if temperatura >? 40 then 40 else temperatura in
  match DO_Table !! Z.to_nat temp with
  | Some tabla =>
      if V_saturation temp =? 0 then None
      else Some (uint16 (uint32 (adc_voltage adc_raw * tabla) / V_saturation temp))
  | None => None
  end.

End Oxigeno.

(* ===================================================================== *)
(** * Vocabulary of the properties and sample data                        *)
(* ===================================================================== *)

(** What a line feed does to the line in progress [p]: the first line that
    follows absorbs it. *)
Definition cabeza (p : bytes) (ls : list bytes) : list bytes :=
  match ls with
  | [] => []
  | l :: ls' => (p ++ l) :: ls'
  end.

(** A decimal digit. *)
Definition es_digito (c : ascii) : Prop :=
  (48 <= nat_of_ascii c <= 57)%nat.

(** A token: not empty, no semicolon. *)
Definition campo (f : bytes) : Prop := f <> [] /\ (PYC ∉ f).

(** A line without NUL, line feed or carriage return. *)
Definition limpia (l : bytes) : Prop := forall c, c ∈ [NUL; LF; CR] -> c ∉ l.

(** [n] measurements saved one after the other, as [loop] does it: the
    counter is incremented, then the record is appended. *)
Fixpoint guardar_varias (e : Optimizado.Estado) (ms : list (Z * Envio))
  : Optimizado.Estado :=
  match ms with
  | [] => e
  | (t, m) :: r =>
      let e1 :=
        Optimizado.con_contador e
          (uint32 (Optimizado.contadorMediciones e + 1)) in
      guardar_varias (Optimizado.guardarMedicion e1 t m).2 r
  end.

(** A measurement none of whose values holds a line feed. *)
Definition sin_lf (m : Envio) : Prop :=
  (LF ∉ e_temp m) /\ (LF ∉ e_cond m) /\ (LF ∉ e_bat m) /\ (LF ∉ e_volt m)
  /\ (LF ∉ e_cob m).

(** The globals that no queue operation writes. *)
Definition misma_ram (e e' : Optimizado.Estado) : Prop :=
  Optimizado.sdDisponible e' = Optimizado.sdDisponible e /\
  Optimizado.contadorMediciones e' = Optimizado.contadorMediciones e.

(** The link and the trace, which only [enviarHTTP] touches. *)
Definition mismo_enlace (e e' : Optimizado.Estado) : Prop :=
  Optimizado.red e' = Optimizado.red e /\
  Optimizado.traza e' = Optimizado.traza e.



Definition solo_ciclos (eventos : list Optimizado.Evento) : Prop :=
  Forall (fun ev => ev <> Optimizado.Corte) eventos.
Definition medicion1 : Envio :=
  mkEnvio (texto "25.0") (texto " 100.0") (texto "90") (texto "4000") (texto "20").

(** A field value the line format can carry: not empty, no NUL, no line
    break, no semicolon. *)
Definition campo_valido (f : bytes) : Prop :=
  f <> [] /\ (NUL ∉ f) /\ (LF ∉ f) /\ (CR ∉ f) /\ (PYC ∉ f).

(** The values of a request hold no NUL byte. *)
Definition valores_sin_nul (m : Envio) : Prop :=
  (NUL ∉ e_temp m) /\ (NUL ∉ e_cond m) /\ (NUL ∉ e_bat m)
  /\ (NUL ∉ e_volt m) /\ (NUL ∉ e_cob m).

Definition medicion_valida (m : Envio) : Prop :=
  campo_valido (e_temp m) /\ campo_valido (e_cond m) /\ campo_valido (e_bat m)
  /\ campo_valido (e_volt m) /\ campo_valido (e_cob m).

(** Fields joined by semicolons. *)
Fixpoint unir (fs : list bytes) : bytes :=
  match fs with
  | [] => []
  | [f] => f
  | f :: r => f ++ PYC :: unir r
  end.

(** The state in which the promotion of record 1 was cut right after the
    append to the sent log (the file opened and the [length r + 3] bytes
    of the line written), then the device booted again. *)
Definition estado_interrumpido : Optimizado.Estado :=
  let r := Optimizado.lineaCSV 1 100 medicion1 in
  let pendientes := r ++ [CR; LF] in
  let e :=
    Optimizado.mkEstado true 1 []
      (<[Optimizado.ARCHIVO_PENDIENTES := pendientes]>
         (<[Optimizado.ARCHIVO_ENVIADOS := println Optimizado.ENCABEZADO]> ∅))
      [true] [] in
  Optimizado.reinicio
    (Optimizado.con_sd e (Optimizado.corte e (length r + 4))).

(** In a run of requests, a failed one is the last one. *)
Definition fallo_al_final {A} (t : list (A * bool)) : Prop :=
  forall i a, t !! i = Some (a, false) -> S i = length t.

(** A card of the single-file sketch with two records waiting, and a link
    that fails once and then works. *)
Definition estado_dos_pendientes : Respaldo.Estado :=
  let e0 :=
    Respaldo.mkEstado true 0
      (<[Respaldo.DATOS_CSV :=
           texto "ID;Timestamp;Temperatura;Conductividad;Bateria;Voltaje;Cobertura;Estado"
           ++ [CR; LF]]> ∅) [false; true] [] in
  let e1 := (Respaldo.guardarDatosSD e0 1 100 medicion1).2 in
  (Respaldo.guardarDatosSD e1 2 200 medicion1).2.

(** A line as [guardarEnSD] stores it: not empty, no NUL or line break, and
    short enough for the 150-byte line buffer. *)
Definition registro (l : bytes) : Prop :=
  l <> [] /\ limpia l /\ (length l <= 149)%nat.

(** The log that holds the lines [ls], each ended by CR LF. *)
Fixpoint archivo_de (ls : list bytes) : bytes :=
  match ls with
  | [] => []
  | l :: r => l ++ [CR; LF] ++ archivo_de r
  end.

Definition medicion2 : Envio :=
  mkEnvio (texto "24.8") (texto "  98.5") (texto "89") (texto "3990") (texto "19").

(** Two records wait behind nothing else; the sent log holds its header. *)
Definition estado_dos : Optimizado.Estado :=
  Optimizado.mkEstado true 2 []
    (<[Optimizado.ARCHIVO_PENDIENTES :=
         Optimizado.lineaCSV 1 100 medicion1 ++ [CR; LF]
         ++ Optimizado.lineaCSV 2 200 medicion2 ++ [CR; LF]]>
       (<[Optimizado.ARCHIVO_ENVIADOS := println Optimizado.ENCABEZADO]> ∅))
    [true; true] [].

(** A line of one field in front of a good record. *)
Definition estado_basura : Optimizado.Estado :=
  Optimizado.mkEstado true 1 []
    (<[Optimizado.ARCHIVO_PENDIENTES :=
         (texto "basura" ++ [CR; LF])
         ++ Optimizado.lineaCSV 1 100 medicion1 ++ [CR; LF]]>
       (<[Optimizado.ARCHIVO_ENVIADOS := println Optimizado.ENCABEZADO]> ∅))
    [true; true] [].

(** A line of three fields in front of a good record. *)
Definition estado_corta : Optimizado.Estado :=
  Optimizado.mkEstado true 1 []
    (<[Optimizado.ARCHIVO_PENDIENTES :=
         (unir [texto "7"; texto "300"; texto "21.5"] ++ [CR; LF])
         ++ Optimizado.lineaCSV 1 100 medicion1 ++ [CR; LF]]>
       (<[Optimizado.ARCHIVO_ENVIADOS := println Optimizado.ENCABEZADO]> ∅))
    [true; true] [].

(** Validity of concrete data, by evaluation. *)
Definition limpia_b (l : bytes) : bool :=
  forallb (fun c => negb (Ascii.eqb c NUL) && negb (Ascii.eqb c LF)
                    && negb (Ascii.eqb c CR)) l.

Definition campo_valido_b (f : bytes) : bool :=
  negb (Nat.eqb (length f) 0) && limpia_b f
  && forallb (fun c => negb (Ascii.eqb c PYC)) f.

Definition medicion_valida_b (m : Envio) : bool :=
  campo_valido_b (e_temp m) && campo_valido_b (e_cond m)
  && campo_valido_b (e_bat m) && campo_valido_b (e_volt m)
  && campo_valido_b (e_cob m).

(** A card of the v3.0 sketch with two stored lines, the link up. *)
Definition estado_modular : Modular.Estado Z :=
  Modular.mkEstado true
    (<[Modular.ARCHIVO_PENDIENTES :=
         archivo_de [texto "1234;25.00; 100.0; 8.00;90;4000;20";
                     texto "61234;25.10; 100.2; 7.90;90;3990;21"]]> ∅)
    [true; false] [].

(** A card on which a cut during the copy to [temp.tmp] left that file
    behind: it holds the second record, the pending log holds both. *)
Definition estado_con_temporal : Optimizado.Estado :=
  Optimizado.con_sd estado_dos
    (<[Optimizado.TEMP_TMP := Optimizado.lineaCSV 2 200 medicion2 ++ [CR; LF]]>
       (Optimizado.sd estado_dos)).

(** The values the drain of the v2.0 sketch decodes from a stored line. *)
Definition campos_de (l : bytes) : Envio :=
  match Optimizado.parsear (l ++ [CR]) with
  | Optimizado.Campos m => m
  | _ => mkEnvio [] [] [] [] []
  end.

(** A line of the pending log that the drain reads whole and decodes. *)
Definition legible (l : bytes) : Prop :=
  limpia l /\ (length l <= 118)%nat /\
  Optimizado.parsear (l ++ [CR]) = Optimizado.Campos (campos_de l).

(** A link on which every request fails. *)
Definition sin_enlace (enlace : list bool) : Prop :=
  Forall (fun b => b = false) enlace.

Definition legible_b (l : bytes) : bool :=
  limpia_b l && Nat.leb (length l) 118 &&
  match Optimizado.parsear (l ++ [CR]) with
  | Optimizado.Campos _ => true
  | _ => false
  end.

(** A card of the single-file sketch with two records waiting. *)
Definition estado_respaldo : Respaldo.Estado :=
  Respaldo.mkEstado true 2
    (<[Respaldo.DATOS_CSV :=
         Respaldo.lineaCSV 1 100 medicion1 ++ [CR; LF]
         ++ Respaldo.lineaCSV 2 200 medicion2 ++ [CR; LF]]> ∅)
    [true] [].

(** The line of a record of the single-file sketch up to its status. *)
Definition cuerpo (id ms : Z) (m : Envio) : bytes :=
  decimal id ++ [PYC] ++ decimal ms ++ [PYC] ++ e_temp m ++ [PYC]
  ++ e_cond m ++ [PYC] ++ e_bat m ++ [PYC] ++ e_volt m ++ [PYC]
  ++ e_cob m ++ [PYC].

(** What may follow a number in a reply: nothing, or a byte that is not a
    digit. *)
Definition fin_de_numero (cola : bytes) : Prop :=
  match cola with
  | [] => True
  | c :: _ => Respaldo.digito c = None
  end.

(** A reading in the window that counts as low. *)
Definition baja (v : Z) : Prop := 3000 < v < 3300.

(** [itoa] writes at most six bytes for every [int] from [n] on, [k] of
    them checked. *)
Fixpoint itoa_breve (k : nat) (n : Z) : bool :=
  match k with
  | O => true
  | S k' => (Z.of_nat (length (Modular.itoa n)) <=? 6) && itoa_breve k' (n + 1)
  end.




(** The request the drain builds from the header line. *)
Definition envio_del_encabezado : Envio :=
  mkEnvio (texto "Temperatura") (texto "Conductividad") (texto "Bateria")
          (texto "Voltaje") (texto "Cobertura" ++ [CR]).

(** A card whose pending log has been drained, with the link up. *)
Definition estado_al_dia : Optimizado.Estado :=
  Optimizado.mkEstado true 4 []
    (<[Optimizado.ARCHIVO_PENDIENTES := []]>
       (<[Optimizado.ARCHIVO_ENVIADOS := println Optimizado.ENCABEZADO]> ∅))
    [true; true] [].

(* ===================================================================== *)
(** * Bytes and lines                                                     *)
(* ===================================================================== *)

Section Bytes.

Implicit Types (c d : ascii) (s l r f x y : bytes).

Lemma eqb_dec c d : {Ascii.eqb c d = true /\ c = d} + {Ascii.eqb c d = false /\ c <> d}.
Proof.
  destruct (Ascii.eqb_spec c d); [left | right]; auto.
Qed.

(** Absence of a byte, decided by evaluation. *)
Lemma ausente_b c l :
  forallb (fun d => negb (Ascii.eqb d c)) l = true -> c ∉ l.
Proof.
  induction l as [|d l IH]; simpl; intros H; [apply not_elem_of_nil|].
  apply andb_prop in H as [Hd Hl]. apply not_elem_of_cons.
  split; [|auto].
  intros ->. by rewrite Ascii.eqb_refl in Hd.
Qed.

Lemma cstr_id s : NUL ∉ s -> cstr s = s.
Proof.
  induction s as [|c s IH]; simpl; intros H; [done|].
  apply not_elem_of_cons in H as [Hc Hs].
  destruct (eqb_dec c NUL) as [[_ ->]|[-> _]]; [done|].
  by rewrite IH.
Qed.

Lemma cstr_sin_nul s : NUL ∉ cstr s.
Proof.
  induction s as [|c s IH]; simpl; [apply not_elem_of_nil|].
  destruct (eqb_dec c NUL) as [[-> _]|[-> Hc]]; [apply not_elem_of_nil|].
  apply not_elem_of_cons; auto.
Qed.

Lemma cstr_cstr s : cstr (cstr s) = cstr s.
Proof. apply cstr_id, cstr_sin_nul. Qed.

Lemma cstr_subseteq s c : c ∈ cstr s -> c ∈ s.
Proof.
  induction s as [|a s IH]; simpl; [done|].
  destruct (Ascii.eqb a NUL); [intros H; by apply elem_of_nil in H|].
  intros [->|H]%elem_of_cons; [left | right; auto].
Qed.

Lemma cstr_length s : (length (cstr s) <= length s)%nat.
Proof.
  induction s as [|a s IH]; simpl; [lia|].
  destruct (Ascii.eqb a NUL); simpl; lia.
Qed.

(** Lines of a concatenation. *)
Lemma lineas_desde_app a x y :
  lineas_desde a (x ++ y) = lineas_desde a x ++ lineas_desde (cola_desde a x) y.
Proof.
  revert a; induction x as [|c x IH]; intros a; simpl; [done|].
  destruct (Ascii.eqb c LF); simpl; by rewrite IH.
Qed.

Lemma cola_desde_app a x y :
  cola_desde a (x ++ y) = cola_desde (cola_desde a x) y.
Proof.
  revert a; induction x as [|c x IH]; intros a; simpl; [done|].
  destruct (Ascii.eqb c LF); simpl; by rewrite IH.
Qed.

Lemma lineas_desde_sin_lf a l : LF ∉ l -> lineas_desde a l = [].
Proof.
  revert a; induction l as [|c l IH]; intros a H; simpl; [done|].
  apply not_elem_of_cons in H as [Hc Hl].
  destruct (eqb_dec c LF) as [[_ ->]|[-> _]]; [done|]. auto.
Qed.

Lemma cola_desde_sin_lf a l : LF ∉ l -> cola_desde a l = a ++ l.
Proof.
  revert a; induction l as [|c l IH]; intros a H; simpl; [by rewrite app_nil_r|].
  apply not_elem_of_cons in H as [Hc Hl].
  destruct (eqb_dec c LF) as [[_ ->]|[-> _]]; [done|].
  rewrite IH by done. by rewrite <- app_assoc.
Qed.

Lemma lineas_desde_linea a l y :
  LF ∉ l -> lineas_desde a (l ++ LF :: y) = (a ++ l) :: lineas y.
Proof.
  intros H. rewrite lineas_desde_app, lineas_desde_sin_lf, cola_desde_sin_lf by done.
  simpl. done.
Qed.

Lemma cola_desde_linea a l y :
  cola_desde a (l ++ LF :: y) = cola_desde [] y.
Proof.
  revert a; induction l as [|c l IH]; intros a; simpl; [done|].
  destruct (eqb_dec c LF) as [[-> ->]|[-> _]]; [|done].
  rewrite IH. by rewrite <- (IH []).
Qed.

Lemma cabeza_cabeza p q ls : cabeza p (cabeza q ls) = cabeza (p ++ q) ls.
Proof. destruct ls; simpl; [done|]. by rewrite app_assoc. Qed.

Lemma lineas_desde_cabeza p y : lineas_desde p y = cabeza p (lineas y).
Proof.
  unfold lineas. revert p; induction y as [|c y IH]; intros p; simpl; [done|].
  destruct (Ascii.eqb c LF); simpl; [by rewrite app_nil_r|].
  rewrite (IH (p ++ [c])), (IH [c]), cabeza_cabeza. done.
Qed.

Lemma lineas_app x y :
  lineas (x ++ y) = lineas x ++ cabeza (cola_desde [] x) (lineas y).
Proof.
  unfold lineas at 1 2.
  by rewrite lineas_desde_app, (lineas_desde_cabeza (cola_desde [] x)).
Qed.

Lemma lineas_app_completo x y :
  completo x -> lineas (x ++ y) = lineas x ++ lineas y.
Proof.
  intros H. rewrite lineas_app, H. destruct (lineas y); done.
Qed.

Lemma cola_desde_lf a y : LF ∈ y -> cola_desde a y = cola_desde [] y.
Proof.
  intros H. apply list_elem_of_split in H as (l & r & ->).
  by rewrite !cola_desde_linea.
Qed.

Lemma completo_lf y : completo y -> y <> [] -> LF ∈ y.
Proof.
  intros Hy Hne. destruct (decide (LF ∈ y)) as [|Hn]; [done|].
  unfold completo in Hy. rewrite cola_desde_sin_lf in Hy by done. done.
Qed.

Lemma completo_app x y : completo y -> y <> [] -> completo (x ++ y).
Proof.
  unfold completo. intros Hy Hne. rewrite cola_desde_app.
  rewrite cola_desde_lf by (by apply completo_lf). done.
Qed.

Lemma completo_linea x l : completo (x ++ l ++ [LF]).
Proof.
  unfold completo. rewrite app_assoc, cola_desde_linea. done.
Qed.

(** Skipping the first line. *)
Lemma tras_primera_linea_linea l y :
  LF ∉ l -> tras_primera_linea (l ++ LF :: y) = y.
Proof.
  induction l as [|c l IH]; simpl; intros H; [done|].
  apply not_elem_of_cons in H as [Hc Hl].
  destruct (eqb_dec c LF) as [[_ ->]|[-> _]]; [done|]. auto.
Qed.

Lemma tras_primera_linea_sin_lf l : LF ∉ l -> tras_primera_linea l = [].
Proof.
  induction l as [|c l IH]; simpl; intros H; [done|].
  apply not_elem_of_cons in H as [Hc Hl].
  destruct (eqb_dec c LF) as [[_ ->]|[-> _]]; [done|]. auto.
Qed.

Lemma partir_linea f :
  LF ∈ f -> exists l y, f = l ++ LF :: y /\ LF ∉ l.
Proof.
  induction f as [|c f IH]; intros H; [by apply elem_of_nil in H|].
  destruct (decide (c = LF)) as [->|Hc].
  - exists [], f. split; [done|apply not_elem_of_nil].
  - apply elem_of_cons in H as [H|H]; [done|].
    destruct (IH H) as (l & y & -> & Hl).
    exists (c :: l), y. split; [done|]. apply not_elem_of_cons; auto.
Qed.

Lemma lineas_tras_primera_linea f :
  lineas (tras_primera_linea f) = tail (lineas f).
Proof.
  destruct (decide (LF ∈ f)) as [H|H].
  - destruct (partir_linea f H) as (l & y & -> & Hl).
    rewrite tras_primera_linea_linea by done.
    unfold lineas at 2. by rewrite lineas_desde_linea.
  - rewrite tras_primera_linea_sin_lf by done.
    unfold lineas. rewrite (lineas_desde_sin_lf [] f) by done. done.
Qed.

Lemma completo_tras_primera_linea f :
  completo f -> completo (tras_primera_linea f).
Proof.
  destruct (decide (LF ∈ f)) as [H|H].
  - destruct (partir_linea f H) as (l & y & -> & Hl).
    rewrite tras_primera_linea_linea by done.
    unfold completo. by rewrite cola_desde_linea.
  - rewrite tras_primera_linea_sin_lf by done. done.
Qed.





Lemma sin_cr_app x y : sin_cr (x ++ y) = sin_cr x ++ sin_cr y.
Proof. apply filter_app. Qed.

Lemma sin_cr_id x : CR ∉ x -> sin_cr x = x.
Proof.
  induction x as [|c x IH]; intros H; [done|].
  apply not_elem_of_cons in H as [Hc Hx].
  unfold sin_cr. rewrite filter_cons_True by done. f_equal. by apply IH.
Qed.


(** Decimal digits. *)
Lemma string_of_uint_digitos u :
  Forall es_digito (texto (NilEmpty.string_of_uint u)).
Proof.
  unfold texto. induction u; simpl;
    try (constructor; [unfold es_digito; vm_compute; lia|done]).
  constructor.
Qed.

Lemma decimal_digitos n : Forall es_digito (decimal n).
Proof.
  unfold decimal, NilZero.string_of_uint.
  destruct (N.to_uint (Z.to_N n)) eqn:E;
    try (rewrite <- E; apply string_of_uint_digitos).
  repeat constructor; unfold es_digito; vm_compute; lia.
Qed.

Lemma decimal_no_vacio n : decimal n <> [].
Proof.
  unfold decimal, NilZero.string_of_uint.
  destruct (N.to_uint (Z.to_N n)); simpl; done.
Qed.

Lemma digito_distinto c d :
  es_digito c -> ~ (48 <= nat_of_ascii d <= 57)%nat -> c <> d.
Proof. intros Hc Hd ->. done. Qed.

Lemma decimal_sin c n : ~ (48 <= nat_of_ascii c <= 57)%nat -> c ∉ decimal n.
Proof.
  intros Hc Hin. pose proof (decimal_digitos n) as H.
  rewrite Forall_forall in H. apply H in Hin. done.
Qed.

Lemma decimal_sin_nul n : NUL ∉ decimal n.
Proof. apply decimal_sin; vm_compute; lia. Qed.
Lemma decimal_sin_lf n : LF ∉ decimal n.
Proof. apply decimal_sin; vm_compute; lia. Qed.
Lemma decimal_sin_cr n : CR ∉ decimal n.
Proof. apply decimal_sin; vm_compute; lia. Qed.
Lemma decimal_sin_pyc n : PYC ∉ decimal n.
Proof. apply decimal_sin; vm_compute; lia. Qed.

(** [strtok] on well-formed fields. *)
Lemma saltar_delim_campo f r : campo f -> saltar_delim PYC (f ++ r) = f ++ r.
Proof.
  intros [Hne Hf]. destruct f as [|c f]; [done|].
  apply not_elem_of_cons in Hf as [Hc _]. simpl.
  destruct (eqb_dec c PYC) as [[_ ->]|[-> _]]; done.
Qed.

Lemma hasta_delim_campo f r : PYC ∉ f -> hasta_delim PYC (f ++ PYC :: r) = (f, r).
Proof.
  induction f as [|c f IH]; simpl; intros H; [done|].
  apply not_elem_of_cons in H as [Hc Hf].
  destruct (eqb_dec c PYC) as [[_ ->]|[-> _]]; [done|].
  by rewrite IH.
Qed.

Lemma hasta_delim_final f : PYC ∉ f -> hasta_delim PYC f = (f, []).
Proof.
  induction f as [|c f IH]; simpl; intros H; [done|].
  apply not_elem_of_cons in H as [Hc Hf].
  destruct (eqb_dec c PYC) as [[_ ->]|[-> _]]; [done|].
  by rewrite IH.
Qed.

Lemma strtok_campo f r : campo f -> strtok PYC (f ++ PYC :: r) = (Some f, r).
Proof.
  intros Hf. unfold strtok. rewrite saltar_delim_campo by done.
  destruct Hf as [Hne Hf].
  destruct (f ++ PYC :: r) as [|c w] eqn:E; [by destruct f|].
  rewrite <- E, hasta_delim_campo by done. done.
Qed.

Lemma strtok_final f : campo f -> strtok PYC f = (Some f, []).
Proof.
  intros Hf. unfold strtok.
  rewrite <- (app_nil_r f) at 1. rewrite saltar_delim_campo by done.
  rewrite app_nil_r. destruct Hf as [Hne Hf].
  destruct f as [|c w] eqn:E; [done|].
  rewrite <- E, hasta_delim_final by (by rewrite E). done.
Qed.

Lemma strtok_nil : strtok PYC [] = (None, []).
Proof. done. Qed.

Lemma campo_app_cr f : campo f -> campo (f ++ [CR]).
Proof.
  intros [Hne Hf]. split; [by destruct f|].
  apply not_elem_of_app. split; [done|].
  apply not_elem_of_cons. split; [done|apply not_elem_of_nil].
Qed.

Lemma campo_decimal n : campo (decimal n).
Proof. split; [apply decimal_no_vacio|apply decimal_sin_pyc]. Qed.

(** The 16-bit counters. *)
Lemma int16_id z : -32768 <= z < 32768 -> int16 z = z.
Proof. intros H. unfold int16. rewrite Z.mod_small; lia. Qed.

Lemma int16_rango z : -32768 <= int16 z < 32768.
Proof. unfold int16. pose proof (Z.mod_pos_bound (z + 32768) 65536). lia. Qed.

Lemma int16_suc z : -32768 <= z < 32768 -> int16 (z + 1) <= z + 1.
Proof.
  intros H. unfold int16.
  destruct (Z.eq_dec z 32767) as [->|Hz]; [done|].
  rewrite Z.mod_small; lia.
Qed.

Lemma length_lineas_desde a f : length (lineas_desde a f) = length (lineas f).
Proof. rewrite lineas_desde_cabeza. by destruct (lineas f). Qed.

Lemma length_lineas_cons c f :
  length (lineas (c :: f)) =
  ((if Ascii.eqb c LF then 1 else 0) + length (lineas f))%nat.
Proof.
  unfold lineas at 1. simpl. destruct (Ascii.eqb c LF); simpl.
  - done.
  - by rewrite length_lineas_desde.
Qed.

End Bytes.

(* ===================================================================== *)
(** * The v2.0 sketch: reading the logs                                   *)
(* ===================================================================== *)

Section LecturaOptimizado.
Import Optimizado.

Implicit Types (c d : ascii) (s l r f x y : bytes).

Lemma contarLineas_bucle_exacto f acc :
  -32768 <= acc -> acc + Z.of_nat (length (lineas f)) < 32768 ->
  contarLineas_bucle f acc = acc + Z.of_nat (length (lineas f)).
Proof.
  revert acc; induction f as [|c f IH]; intros acc Hlo Hhi; simpl.
  - unfold lineas; simpl. lia.
  - rewrite length_lineas_cons in *. destruct (Ascii.eqb c LF).
    + rewrite int16_id by lia. rewrite IH; lia.
    + rewrite IH; lia.
Qed.

Lemma int16_suma (u v : Z) : int16 (int16 u + v) = int16 (u + v).
Proof.
  unfold int16. f_equal.
  pose proof (Z.div_mod (u + 32768) 65536 ltac:(lia)) as H.
  replace ((u + 32768) mod 65536 - 32768 + v + 32768)
    with (u + v + 32768 + (- ((u + 32768) / 65536)) * 65536) by lia.
  by rewrite Z.mod_add.
Qed.

(** The count of a file of any length: the number of lines, in 16 bits. *)
Lemma contarLineas_bucle_int16 f acc :
  -32768 <= acc < 32768 ->
  contarLineas_bucle f acc = int16 (acc + Z.of_nat (length (lineas f))).
Proof.
  revert acc; induction f as [|c f IH]; intros acc Hacc;
    cbn [contarLineas_bucle].
  - unfold lineas; cbn [lineas_desde length]. rewrite Z.add_0_r.
    by rewrite int16_id.
  - rewrite length_lineas_cons. destruct (Ascii.eqb c LF).
    + rewrite IH by apply int16_rango. rewrite int16_suma. f_equal. lia.
    + rewrite IH by done. f_equal.
Qed.

Lemma contarLineas_bucle_cota f acc :
  -32768 <= acc < 32768 ->
  -32768 <= contarLineas_bucle f acc <= acc + Z.of_nat (length (lineas f)).
Proof.
  revert acc; induction f as [|c f IH]; intros acc Hacc; simpl.
  - unfold lineas; simpl. lia.
  - rewrite length_lineas_cons. destruct (Ascii.eqb c LF).
    + pose proof (int16_rango (acc + 1)). pose proof (int16_suc acc Hacc).
      specialize (IH (int16 (acc + 1)) ltac:(lia)). lia.
    + specialize (IH acc Hacc). lia.
Qed.

(** Line 0 of a file that starts with a line short enough for the buffer. *)
Lemma leerLineaN_bucle_primera l y tam buf :
  LF ∉ l -> Z.of_nat (length (buf ++ l)) <= tam - 1 ->
  leerLineaN_bucle (l ++ LF :: y) 0 0 tam buf = Some (cstr (buf ++ l)).
Proof.
  revert buf; induction l as [|c l IH]; intros buf Hl Hlen; simpl.
  - by rewrite app_nil_r.
  - apply not_elem_of_cons in Hl as [Hc Hl].
    destruct (eqb_dec c LF) as [[_ ->]|[-> _]]; [done|]. simpl.
    rewrite length_app in Hlen. simpl in Hlen.
    destruct (Z.leb_spec (tam - 1) (Z.of_nat (length buf))); [lia|].
    rewrite IH; [by rewrite <- app_assoc|done|].
    rewrite <- app_assoc. simpl. rewrite length_app. simpl. lia.
Qed.

(** The line being read is delivered as soon as a line feed follows. *)
Lemma leerLineaN_bucle_actual f n tam buf :
  LF ∈ f -> is_Some (leerLineaN_bucle f n n tam buf).
Proof.
  revert buf; induction f as [|c f IH]; intros buf H; [by apply elem_of_nil in H|].
  simpl. rewrite Z.eqb_refl.
  destruct (eqb_dec c LF) as [[-> ->]|[-> Hc]]; simpl; [done|].
  destruct (tam - 1 <=? Z.of_nat (length buf)); [done|].
  apply IH. apply elem_of_cons in H as [H|H]; done.
Qed.

(** Every line below the number of line feeds can be read. *)
Lemma leerLineaN_bucle_existe f n k tam :
  0 <= k <= n -> n < 32767 -> n - k < Z.of_nat (length (lineas f)) ->
  is_Some (leerLineaN_bucle f n k tam []).
Proof.
  revert k; induction f as [|c f IH]; intros k Hk Hn Hlen.
  - unfold lineas in Hlen; simpl in Hlen. lia.
  - destruct (Z.eq_dec k n) as [->|Hne].
    + apply leerLineaN_bucle_actual.
      destruct (decide (LF ∈ c :: f)) as [|Hno]; [done|].
      unfold lineas in Hlen. rewrite lineas_desde_sin_lf in Hlen by done.
      simpl in Hlen. lia.
    + simpl. rewrite length_lineas_cons in Hlen.
      destruct (Z.eqb_spec k n); [done|].
      destruct (Ascii.eqb c LF).
      * rewrite int16_id by lia.
        destruct (Z.gtb_spec (k + 1) n); [lia|]. apply IH; lia.
      * apply IH; lia.
Qed.

End LecturaOptimizado.

Section Marco.
Import Optimizado.

Lemma nombres_distintos :
  ARCHIVO_PENDIENTES <> ARCHIVO_ENVIADOS /\ ARCHIVO_PENDIENTES <> TEMP_TMP /\
  ARCHIVO_ENVIADOS <> TEMP_TMP.
Proof. repeat split; discriminate. Qed.

Lemma lookup_anexar_eq (s : gmap string bytes) n d :
  anexar s n d !! n = Some (default [] (s !! n) ++ d).
Proof. unfold anexar. apply lookup_insert_eq. Qed.

Lemma lookup_anexar_ne (s : gmap string bytes) n n' d :
  n <> n' -> anexar s n d !! n' = s !! n'.
Proof. intros H. unfold anexar. by apply lookup_insert_ne. Qed.

End Marco.

(** C2.  Saving a record never rewrites what the log holds: in the three
    sketches the log after the call is the log before it followed by the
    record line and CR LF, every other file is untouched, and when the call
    fails nothing at all changes. *)
Theorem C2_anexar_conserva_lo_escrito :
  (forall e ms m,
     let previo := default [] (Optimizado.sd e !! Optimizado.ARCHIVO_PENDIENTES) in
     let r := Optimizado.guardarMedicion e ms m in
     delete Optimizado.ARCHIVO_PENDIENTES (Optimizado.sd r.2) =
       delete Optimizado.ARCHIVO_PENDIENTES (Optimizado.sd e) /\
     if r.1
     then Optimizado.sd r.2 !! Optimizado.ARCHIVO_PENDIENTES =
          Some (previo ++ Optimizado.lineaCSV (Optimizado.contadorMediciones e) ms m
                       ++ [CR; LF])
     else r.2 = e) /\
  (forall flotante (dtostrf : flotante -> Z -> Z -> bytes) e datos,
     let previo := default [] (Modular.sd e !! Modular.ARCHIVO_PENDIENTES) in
     let r := Modular.guardarEnSD dtostrf e datos in
     delete Modular.ARCHIVO_PENDIENTES (Modular.sd r.2) =
       delete Modular.ARCHIVO_PENDIENTES (Modular.sd e) /\
     if r.1
     then Modular.sd r.2 !! Modular.ARCHIVO_PENDIENTES =
          Some (previo ++ Modular.generarLineaCSV dtostrf datos ++ [CR; LF])
     else r.2 = e) /\
  (forall e id ms m,
     let previo := default [] (Respaldo.sd e !! Respaldo.DATOS_CSV) in
     let r := Respaldo.guardarDatosSD e id ms m in
     delete Respaldo.DATOS_CSV (Respaldo.sd r.2) =
       delete Respaldo.DATOS_CSV (Respaldo.sd e) /\
     if r.1
     then Respaldo.sd r.2 !! Respaldo.DATOS_CSV =
          Some (previo ++ Respaldo.lineaCSV id ms m ++ [CR; LF])
     else r.2 = e).
Proof.
  split; [|split].
  - intros e ms m. unfold Optimizado.guardarMedicion.
    destruct (Optimizado.sdDisponible e); simpl; [|done].
    split; [apply delete_insert_eq|apply lookup_anexar_eq].
  - intros fl dt e datos. unfold Modular.guardarEnSD.
    destruct (Modular.montada e); simpl; [|done].
    split; [apply delete_insert_eq|].
    rewrite lookup_anexar_eq. unfold println.
    assert (cstr (Modular.generarLineaCSV dt datos) = Modular.generarLineaCSV dt datos) as ->; [|done].
    apply cstr_id. unfold Modular.generarLineaCSV.
    rewrite !not_elem_of_app, !not_elem_of_cons.
    repeat split; try apply cstr_sin_nul; try apply not_elem_of_nil; done.
  - intros e id ms m. unfold Respaldo.guardarDatosSD.
    destruct (Respaldo.sdDisponible e); simpl; [|done].
    split; [apply delete_insert_eq|apply lookup_anexar_eq].
Qed.

(* ===================================================================== *)
(** * The v2.0 sketch: what each operation leaves alone                   *)
(* ===================================================================== *)

Section MarcoOptimizado.
Import Optimizado.

Lemma misma_ram_refl e : misma_ram e e.
Proof. done. Qed.

Lemma misma_ram_trans e1 e2 e3 :
  misma_ram e1 e2 -> misma_ram e2 e3 -> misma_ram e1 e3.
Proof. intros [? ?] [? ?]. split; congruence. Qed.

Lemma eliminarPrimeraLinea_ram e n : misma_ram e (eliminarPrimeraLinea e n).2.
Proof.
  unfold eliminarPrimeraLinea.
  destruct (sdDisponible e); simpl; [|done].
  destruct (sd e !! n); simpl; [|done].
  match goal with |- context [match ?x with _ => _ end] => destruct x end; done.
Qed.

Lemma marcarComoEnviado_ram e l : misma_ram e (marcarComoEnviado e l).2.
Proof.
  unfold marcarComoEnviado.
  destruct (sdDisponible e) eqn:E; simpl; [|done].
  eapply misma_ram_trans; [|apply eliminarPrimeraLinea_ram]. done.
Qed.

Lemma enviarHTTP_ram e m : misma_ram e (enviarHTTP e m).2.
Proof. done. Qed.

Lemma guardarMedicion_ram e ms m : misma_ram e (guardarMedicion e ms m).2.
Proof. unfold guardarMedicion. by destruct (sdDisponible e). Qed.

Lemma iteracion_ram e a b : misma_ram e (iteracion e a b).2.1.1.
Proof.
  unfold iteracion.
  destruct (leerLineaN e ARCHIVO_PENDIENTES 0 BUFFER_SIZE) as [l|]; [|done].
  destruct (parsear l) as [| |m]; simpl; [done| |].
  - destruct (eliminarPrimeraLinea _ _) as [b' e2] eqn:E. simpl.
    change e2 with (b', e2).2. rewrite <- E.
    eapply misma_ram_trans; [|apply eliminarPrimeraLinea_ram]. done.
  - destruct (hd false (red _)); simpl; [|done].
    destruct (marcarComoEnviado _ _) as [b' e4] eqn:E. simpl.
    change e4 with (b', e4).2. rewrite <- E.
    eapply misma_ram_trans; [|apply marcarComoEnviado_ram].
    by destruct (leerLineaN _ _ _ _).
Qed.

Lemma reintentar_bucle_ram v p e a b :
  misma_ram e (reintentar_bucle v p e a b).1.1.
Proof.
  revert e a b; induction v as [|v IH]; intros e a b; simpl; [done|].
  destruct ((b <? MAX_REINTENTOS) && (b <? p)); [|done].
  pose proof (iteracion_ram e a b) as H.
  destruct (iteracion e a b) as [[] [[e' a'] b']]; simpl in *; [|done].
  eapply misma_ram_trans; [exact H|apply IH].
Qed.

Lemma reintentarPendientes_ram e : misma_ram e (reintentarPendientes e).1.1.
Proof.
  unfold reintentarPendientes.
  destruct (sdDisponible e); cbn [negb]; [|done].
  destruct (contarLineas e ARCHIVO_PENDIENTES =? 0); [done|].
  apply reintentar_bucle_ram.
Qed.

Lemma enviar_inmediato_ram e g m : misma_ram e (enviar_inmediato e g m).
Proof.
  unfold enviar_inmediato. simpl.
  destruct (hd false (red e) && g); [|done].
  destruct (contarLineas _ _ >? 1); [|done].
  eapply misma_ram_trans; [|apply marcarComoEnviado_ram].
  by destruct (leerLineaN _ _ _ _).
Qed.

Lemma loop_contador e ms m :
  contadorMediciones (loop e ms m) = uint32 (contadorMediciones e + 1).
Proof.
  unfold loop.
  pose proof (reintentarPendientes_ram e) as [_ H1].
  destruct (reintentarPendientes e) as [[e1 a] b]. simpl in H1.
  destruct (guardarMedicion _ ms m) as [g e3] eqn:E3.
  pose proof (guardarMedicion_ram (con_contador e1 (uint32 (contadorMediciones e1 + 1))) ms m) as [_ H3].
  rewrite E3 in H3. simpl in H3.
  destruct (enviar_inmediato_ram e3 g m) as [_ H4].
  rewrite H4, H3, H1. done.
Qed.

End MarcoOptimizado.

Section C6.
Import Optimizado.

Lemma uint32_id z : 0 <= z < 4294967296 -> uint32 z = z.
Proof. intros H. unfold uint32. by rewrite Z.mod_small. Qed.

Lemma vida_ciclos e eventos :
  solo_ciclos eventos ->
  0 <= contadorMediciones e ->
  contadorMediciones e + Z.of_nat (length eventos) < 4294967296 ->
  vida e eventos =
  map (fun i => contadorMediciones e + Z.of_nat i) (seq 1 (length eventos)).
Proof.
  revert e; induction eventos as [|ev evs IH]; intros e Hc H0 Hn; [done|].
  apply Forall_cons in Hc as [Hev Hc].
  destruct ev as [ms m|]; [|done].
  simpl in Hn |- *.
  assert (contadorMediciones (loop e ms m) = contadorMediciones e + 1) as E.
  { rewrite loop_contador, uint32_id; lia. }
  f_equal; [lia|].
  rewrite IH by (try done; lia).
  rewrite <- (seq_shift (length evs) 1), map_map. apply map_ext. intros i. lia.
Qed.

End C6.

(** C6, as the code has it.  The counter is a global of the sketch: every
    cycle adds one to it modulo 2^32, every boot sets it to zero whatever
    the card holds, and between two boots (fewer than 2^32 cycles) the
    identifiers given are consecutive, hence all different. *)
Theorem C6_contador_por_arranque :
  (forall e ms m,
     Optimizado.contadorMediciones (Optimizado.loop e ms m) =
     uint32 (Optimizado.contadorMediciones e + 1)) /\
  (forall sd_begin tarjeta enlace hechos,
     Optimizado.contadorMediciones
       (Optimizado.setup sd_begin tarjeta enlace hechos) = 0) /\
  (forall e eventos,
     solo_ciclos eventos ->
     0 <= Optimizado.contadorMediciones e ->
     Optimizado.contadorMediciones e + Z.of_nat (length eventos) < 4294967296 ->
     Optimizado.vida e eventos =
       map (fun i => Optimizado.contadorMediciones e + Z.of_nat i)
           (seq 1 (length eventos)) /\
     NoDup (Optimizado.vida e eventos)).
Proof.
  split; [apply loop_contador|]. split.
  - intros b t en h. unfold Optimizado.setup. by destruct b.
  - intros e evs Hc H0 Hn. split; [by apply vida_ciclos|].
    rewrite vida_ciclos by done.
    apply NoDup_fmap_2; [|apply NoDup_seq].
    intros i j Hij. lia.
Qed.

Lemma C6_contador_por_arranque_testigo :
  solo_ciclos [Optimizado.Ciclo 100 medicion1; Optimizado.Ciclo 200 medicion1] /\
  Optimizado.vida (Optimizado.setup true ∅ [] [])
    [Optimizado.Ciclo 100 medicion1; Optimizado.Ciclo 200 medicion1] = [1; 2].
Proof.
  assert (solo_ciclos [Optimizado.Ciclo 100 medicion1; Optimizado.Ciclo 200 medicion1]) as H.
  { repeat constructor; discriminate. }
  split; [exact H|].
  exact (proj1 (proj2 (proj2 C6_contador_por_arranque)
                  (Optimizado.setup true ∅ [] []) _ H
                  ltac:(simpl; lia) ltac:(simpl; lia))).
Defined.

Lemma C6_contraejemplo :
  ~ NoDup (Optimizado.vida (Optimizado.setup true ∅ [] [])
             [Optimizado.Ciclo 100 medicion1; Optimizado.Corte;
              Optimizado.Ciclo 100 medicion1]).
Proof.
  assert (Optimizado.vida (Optimizado.setup true ∅ [] [])
             [Optimizado.Ciclo 100 medicion1; Optimizado.Corte;
              Optimizado.Ciclo 100 medicion1] = [1; 1]) as -> by (vm_compute; reflexivity).
  intros H. apply NoDup_cons in H as [H _]. apply H. left.
Qed.

Section C10.
Import Optimizado.

Lemma cstr_sin c s : c ∉ s -> c ∉ cstr s.
Proof. intros H Hin. by apply H, cstr_subseteq. Qed.

Lemma lineaCSV_sin_lf id ms m : sin_lf m -> LF ∉ lineaCSV id ms m.
Proof.
  intros (H1 & H2 & H3 & H4 & H5). unfold lineaCSV.
  rewrite !not_elem_of_app, !not_elem_of_cons.
  repeat split; try apply decimal_sin_lf; try (by apply cstr_sin);
    try apply not_elem_of_nil; done.
Qed.

Lemma cstr_encabezado : cstr ENCABEZADO = ENCABEZADO.
Proof. reflexivity. Qed.

(** The pending log after [setup] on a card without one and [n] saved
    measurements: the header line, then [n] complete lines. *)
Lemma guardar_varias_pendientes e ms cuerpo :
  sdDisponible e = true ->
  Forall (fun p => sin_lf p.2) ms ->
  sd e !! ARCHIVO_PENDIENTES = Some (println ENCABEZADO ++ cuerpo) ->
  completo cuerpo ->
  exists cuerpo',
    sdDisponible (guardar_varias e ms) = true /\
    sd (guardar_varias e ms) !! ARCHIVO_PENDIENTES =
      Some (println ENCABEZADO ++ cuerpo') /\
    completo cuerpo' /\
    length (lineas cuerpo') = (length (lineas cuerpo) + length ms)%nat.
Proof.
  revert e cuerpo; induction ms as [|[t m] ms IH]; intros e cuerpo Hd Hms He Hc.
  - exists cuerpo. simpl. repeat split; try done; lia.
  - apply Forall_cons in Hms as [Hm Hms]. simpl in Hm.
    simpl. unfold guardarMedicion. simpl. rewrite Hd. simpl.
    set (l := lineaCSV _ t m).
    edestruct (IH (con_sd (con_contador e (uint32 (contadorMediciones e + 1)))
                 (anexar (sd e) ARCHIVO_PENDIENTES (l ++ [CR; LF])))
                 (cuerpo ++ (l ++ [CR]) ++ [LF]))
      as (c' & Hd' & Hs' & Hc' & Hl'); try done.
    + simpl. rewrite lookup_anexar_eq, He. simpl.
      by rewrite <- !app_assoc.
    + apply completo_linea.
    + exists c'. repeat split; try done.
      rewrite Hl', lineas_app_completo by done.
      unfold lineas at 2. rewrite lineas_desde_linea.
      * rewrite length_app. simpl. lia.
      * apply not_elem_of_app. split; [by apply lineaCSV_sin_lf|].
        apply not_elem_of_cons. split; [done|apply not_elem_of_nil].
Qed.

Lemma setup_pendientes (tarjeta : gmap string bytes) enlace hechos :
  tarjeta !! ARCHIVO_PENDIENTES = None ->
  sd (setup true tarjeta enlace hechos) !! ARCHIVO_PENDIENTES =
    Some (println ENCABEZADO).
Proof.
  intros Ht. simpl. unfold crear_si_falta. rewrite Ht.
  destruct (anexar tarjeta ARCHIVO_PENDIENTES (println ENCABEZADO)
              !! ARCHIVO_ENVIADOS).
  - by rewrite lookup_anexar_eq, Ht.
  - rewrite lookup_anexar_ne by discriminate.
    by rewrite lookup_anexar_eq, Ht.
Qed.

End C10.

(** C10, as the code has it.  On a mounted card without pending log, after
    [setup] and fewer than 32767 saved measurements whose values hold no
    line feed, [contarLineas] answers the number of measurements plus one
    and line 0 is the header line, with the carriage return [println]
    wrote after it. *)
Theorem C10_encabezado_cuenta_como_registro
  (tarjeta : gmap string bytes) enlace hechos (ms : list (Z * Envio)) :
  tarjeta !! Optimizado.ARCHIVO_PENDIENTES = None ->
  Forall (fun p => sin_lf p.2) ms ->
  Z.of_nat (length ms) < 32767 ->
  let e := guardar_varias (Optimizado.setup true tarjeta enlace hechos) ms in
  Optimizado.contarLineas e Optimizado.ARCHIVO_PENDIENTES =
    Z.of_nat (length ms) + 1 /\
  Optimizado.leerLineaN e Optimizado.ARCHIVO_PENDIENTES 0 Optimizado.BUFFER_SIZE =
    Some (Optimizado.ENCABEZADO ++ [CR]).
Proof.
  intros Ht Hms Hn e.
  destruct (guardar_varias_pendientes
              (Optimizado.setup true tarjeta enlace hechos) ms [])
    as (c' & Hd & Hs & Hc & Hl); try done.
  { rewrite setup_pendientes by done. by rewrite app_nil_r. }
  fold e in Hd, Hs. cbn [lineas lineas_desde length Nat.add] in Hl.
  assert (println Optimizado.ENCABEZADO ++ c' =
          (Optimizado.ENCABEZADO ++ [CR]) ++ LF :: c') as Hf.
  { unfold println. rewrite cstr_encabezado. by rewrite <- !app_assoc. }
  assert (LF ∉ Optimizado.ENCABEZADO ++ [CR]) as Hlf by (by apply ausente_b).
  unfold Optimizado.contarLineas, Optimizado.leerLineaN.
  rewrite Hd, Hs, Hf. cbn [negb].
  assert (length (lineas ((Optimizado.ENCABEZADO ++ [CR]) ++ LF :: c')) =
          S (length ms)) as Hlen.
  { unfold lineas at 1. rewrite lineas_desde_linea by done.
    cbn [length]. by rewrite Hl. }
  split.
  - rewrite contarLineas_bucle_exacto; rewrite ?Hlen; lia.
  - rewrite leerLineaN_bucle_primera; [reflexivity|done|].
    vm_compute. discriminate.
Qed.

Ltac mapa :=
  repeat first
    [ rewrite lookup_anexar_eq
    | rewrite lookup_anexar_ne by discriminate
    | rewrite lookup_insert_eq
    | rewrite lookup_insert_ne by discriminate
    | rewrite lookup_delete_eq
    | rewrite lookup_delete_ne by discriminate ].

Section PromocionOptimizado.
Import Optimizado.

(** What [eliminarPrimeraLinea] and [marcarComoEnviado] do to each file
    when the card works and the pending log exists. *)
Lemma eliminarPrimeraLinea_efecto e origen :
  sdDisponible e = true ->
  sd e !! ARCHIVO_PENDIENTES = Some origen ->
  exists s',
    eliminarPrimeraLinea e ARCHIVO_PENDIENTES = (true, con_sd e s') /\
    s' !! ARCHIVO_PENDIENTES =
      Some (default [] (sd e !! TEMP_TMP) ++ tras_primera_linea origen) /\
    s' !! TEMP_TMP = None /\
    s' !! ARCHIVO_ENVIADOS = sd e !! ARCHIVO_ENVIADOS.
Proof.
  intros Hd Hp. unfold eliminarPrimeraLinea. rewrite Hd, Hp. cbn [negb].
  mapa. eexists. split; [reflexivity|]. by mapa.
Qed.

Lemma marcarComoEnviado_efecto e linea origen :
  sdDisponible e = true ->
  sd e !! ARCHIVO_PENDIENTES = Some origen ->
  exists s',
    marcarComoEnviado e linea = (true, con_sd e s') /\
    s' !! ARCHIVO_PENDIENTES =
      Some (default [] (sd e !! TEMP_TMP) ++ tras_primera_linea origen) /\
    s' !! TEMP_TMP = None /\
    s' !! ARCHIVO_ENVIADOS =
      Some (default [] (sd e !! ARCHIVO_ENVIADOS) ++ println linea).
Proof.
  intros Hd Hp. unfold marcarComoEnviado. rewrite Hd. cbn [negb].
  edestruct (eliminarPrimeraLinea_efecto
               (con_sd e (anexar (sd e) ARCHIVO_ENVIADOS (println linea))) origen)
    as (s' & E & H1 & H2 & H3); [done|by simpl; mapa|].
  exists s'. rewrite E. simpl in *. revert H1 H3. mapa. done.
Qed.

(** Without the pending log only the sent log changes. *)
Lemma marcarComoEnviado_enviados e linea :
  sdDisponible e = true ->
  sd (marcarComoEnviado e linea).2 !! ARCHIVO_ENVIADOS =
    Some (default [] (sd e !! ARCHIVO_ENVIADOS) ++ println linea).
Proof.
  intros Hd. destruct (sd e !! ARCHIVO_PENDIENTES) as [origen|] eqn:Hp.
  - destruct (marcarComoEnviado_efecto e linea origen Hd Hp)
      as (s' & -> & _ & _ & H). done.
  - unfold marcarComoEnviado, eliminarPrimeraLinea. rewrite Hd. cbn [negb].
    simpl. mapa. rewrite Hp, Hd. simpl. by mapa.
Qed.

Lemma contarLineas_bucle_max f a :
  a < 32768 -> contarLineas_bucle f a < 32768.
Proof.
  revert a; induction f as [|c f IH]; intros a Ha; simpl; [done|].
  destruct (Ascii.eqb c LF); [|auto].
  apply IH. pose proof (int16_rango (a + 1)). lia.
Qed.

(** What [leerLineaN] delivers is a C string. *)
Lemma leerLineaN_bucle_cstr f n k tam buf u :
  leerLineaN_bucle f n k tam buf = Some u -> cstr u = u.
Proof.
  revert k buf; induction f as [|c f IH]; intros k buf; simpl; [done|].
  destruct (k =? n).
  - destruct (_ || _); [intros [= <-]; apply cstr_cstr|apply IH].
  - destruct (Ascii.eqb c LF); [|apply IH].
    destruct (_ >? _); [done|apply IH].
Qed.

End PromocionOptimizado.

Section Parseo.
Import Optimizado.

Lemma campo_valido_campo f : campo_valido f -> campo f.
Proof. intros (? & ? & ? & ? & ?). by split. Qed.

Lemma campo_valido_cstr f : campo_valido f -> cstr f = f.
Proof. intros (? & ? & ? & ? & ?). by apply cstr_id. Qed.

Lemma decimal_valido n : campo_valido (decimal n).
Proof.
  repeat split;
    auto using decimal_no_vacio, decimal_sin_nul, decimal_sin_lf,
               decimal_sin_cr, decimal_sin_pyc.
Qed.

Lemma lineaCSV_valida id ms m :
  medicion_valida m ->
  lineaCSV id ms m =
    decimal id ++ PYC :: decimal ms ++ PYC :: e_temp m ++ PYC :: e_cond m
    ++ PYC :: e_bat m ++ PYC :: e_volt m ++ PYC :: e_cob m.
Proof.
  intros (H1 & H2 & H3 & H4 & H5). unfold lineaCSV.
  by rewrite !campo_valido_cstr.
Qed.

Lemma control_no_pyc c : c ∈ [NUL; LF; CR] -> c <> PYC.
Proof.
  intros Hc ->. repeat (apply elem_of_cons in Hc as [Hc|Hc]; [discriminate Hc|]).
  by apply elem_of_nil in Hc.
Qed.

Lemma campo_valido_control f c :
  campo_valido f -> c ∈ [NUL; LF; CR] -> c ∉ f.
Proof.
  intros (_ & ? & ? & ? & _) Hc.
  apply elem_of_cons in Hc as [->|Hc]; [done|].
  apply elem_of_cons in Hc as [->|Hc]; [done|].
  by apply list_elem_of_singleton in Hc as ->.
Qed.

Lemma lineaCSV_limpia id ms m c :
  medicion_valida m -> c ∈ [NUL; LF; CR] -> c ∉ lineaCSV id ms m.
Proof.
  intros Hm Hc. rewrite lineaCSV_valida by done.
  destruct Hm as (H1 & H2 & H3 & H4 & H5).
  pose proof (control_no_pyc c Hc).
  repeat (rewrite not_elem_of_app || rewrite not_elem_of_cons).
  repeat split; auto using campo_valido_control, decimal_valido.
Qed.

(** The tokens of a stored line, as line 0 delivers it (with its carriage
    return). *)
Lemma parsear_linea id ms m :
  medicion_valida m ->
  parsear (lineaCSV id ms m ++ [CR]) =
    Campos (mkEnvio (e_temp m) (e_cond m) (e_bat m) (e_volt m) (e_cob m ++ [CR])).
Proof.
  intros Hm. rewrite lineaCSV_valida by done.
  destruct Hm as (H1 & H2 & H3 & H4 & H5).
  apply campo_valido_campo in H1, H2, H3, H4, H5.
  unfold parsear. repeat (rewrite <- app_assoc; simpl).
  rewrite !strtok_campo by (done || apply campo_decimal).
  rewrite strtok_final by (by apply campo_app_cr). done.
Qed.

(** A line with at least two and fewer than seven fields. *)
Lemma parsear_corrupta fs :
  Forall campo_valido fs -> (2 <= length fs <= 6)%nat ->
  parsear (unir fs ++ [CR]) = Corrupta.
Proof.
  intros Hfs Hn. unfold parsear.
  destruct fs as [|f1 [|f2 [|f3 [|f4 [|f5 [|f6 [|f7 fs]]]]]]];
    simpl in Hn; try lia;
    repeat match goal with
           | H : Forall _ (_ :: _) |- _ =>
               apply Forall_cons in H as [?%campo_valido_campo H]
           end;
    cbn [unir]; repeat (rewrite <- app_assoc; simpl);
    rewrite ?strtok_campo by done;
    rewrite strtok_final by (by apply campo_app_cr);
    rewrite ?strtok_nil; done.
Qed.

Lemma unir_limpia fs c :
  Forall campo_valido fs -> c ∈ [NUL; LF; CR] -> c ∉ unir fs.
Proof.
  intros Hfs Hc. induction Hfs as [|f fs Hf Hfs IH]; [apply not_elem_of_nil|].
  pose proof (campo_valido_control f c Hf Hc).
  destruct fs as [|g fs]; [done|]. cbn [unir].
  apply not_elem_of_app. split; [done|].
  apply not_elem_of_cons. split; [by apply control_no_pyc|done].
Qed.

(** Line 0 of a pending log that starts with a clean line of at most 118
    bytes: the line and its carriage return. *)
Lemma leer_primera_limpia e l resto :
  sdDisponible e = true ->
  (forall c, c ∈ [NUL; LF; CR] -> c ∉ l) -> (length l <= 118)%nat ->
  sd e !! ARCHIVO_PENDIENTES = Some (l ++ [CR; LF] ++ resto) ->
  leerLineaN e ARCHIVO_PENDIENTES 0 BUFFER_SIZE = Some (l ++ [CR]).
Proof.
  intros Hd Hl Hn Hp. unfold leerLineaN. rewrite Hd, Hp. cbn [negb].
  change (l ++ [CR; LF] ++ resto) with (l ++ [CR] ++ LF :: resto).
  rewrite app_assoc, leerLineaN_bucle_primera.
  - simpl. apply f_equal, cstr_id. apply not_elem_of_app.
    split; [apply Hl; repeat constructor|by apply ausente_b].
  - apply not_elem_of_app. split; [apply Hl; repeat constructor|by apply ausente_b].
  - simpl. rewrite length_app. simpl. unfold BUFFER_SIZE. lia.
Qed.

End Parseo.

(** X26.  The v2.0 drain reads back what [guardarMedicion] wrote.  For a
    record whose five values are not empty and hold no NUL, line break or
    semicolon, and whose line has at most 118 bytes, the drain decodes
    from the stored line the values of temperature, conductivity, battery
    and voltage unchanged, and the coverage value up to carriage returns.
    The identifier and the timestamp are skipped. *)
Theorem ida_y_vuelta_de_los_campos_v2 id ms m resto :
  medicion_valida m ->
  (length (Optimizado.lineaCSV id ms m) <= 118)%nat ->
  exists m',
    Optimizado.decodificar (Optimizado.lineaCSV id ms m ++ [CR; LF] ++ resto)
      = Some (Optimizado.Campos m') /\
    e_temp m' = e_temp m /\ e_cond m' = e_cond m /\ e_bat m' = e_bat m /\
    e_volt m' = e_volt m /\ sin_cr (e_cob m') = e_cob m.
Proof.
  intros Hm Hn.
  exists (mkEnvio (e_temp m) (e_cond m) (e_bat m) (e_volt m) (e_cob m ++ [CR])).
  split; [|repeat split].
  - unfold Optimizado.decodificar.
    change (Optimizado.lineaCSV id ms m ++ [CR; LF] ++ resto)
      with (Optimizado.lineaCSV id ms m ++ [CR] ++ LF :: resto).
    rewrite app_assoc, leerLineaN_bucle_primera.
    + simpl. rewrite cstr_id; [by rewrite parsear_linea|].
      apply not_elem_of_app.
      split; [apply lineaCSV_limpia; [done|repeat constructor]|by apply ausente_b].
    + apply not_elem_of_app.
      split; [apply lineaCSV_limpia; [done|repeat constructor]|by apply ausente_b].
    + simpl. rewrite length_app. simpl. unfold Optimizado.BUFFER_SIZE. lia.
  - simpl. rewrite sin_cr_app, sin_cr_id by apply Hm. by rewrite app_nil_r.
Qed.

Section IteracionOptimizado.
Import Optimizado.

Lemma limpia_sin_lf_cr l : limpia l -> LF ∉ l ++ [CR].
Proof.
  intros H. apply not_elem_of_app. split; [apply H; repeat constructor|by apply ausente_b].
Qed.

Lemma tras_primera_linea_limpia l resto :
  limpia l -> tras_primera_linea (l ++ [CR; LF] ++ resto) = resto.
Proof.
  intros H. change (l ++ [CR; LF] ++ resto) with (l ++ [CR] ++ LF :: resto).
  rewrite app_assoc. by apply tras_primera_linea_linea, limpia_sin_lf_cr.
Qed.

(** The four ways a turn of the drain can go on a log that starts with a
    clean line of at most 118 bytes. *)
Lemma iteracion_sin_cabecera e l resto a b :
  sdDisponible e = true -> limpia l -> (length l <= 118)%nat ->
  sd e !! ARCHIVO_PENDIENTES = Some (l ++ [CR; LF] ++ resto) ->
  parsear (l ++ [CR]) = SinCabecera ->
  exists e',
    iteracion e a b = (false, (e', a, b)) /\
    sd e' = sd e /\ red e' = red e /\ traza e' = traza e.
Proof.
  intros Hd Hl Hn Hp Hpar. unfold iteracion.
  rewrite (leer_primera_limpia e l resto) by done. rewrite Hpar.
  by eexists.
Qed.

Lemma iteracion_corrupta e l resto a b :
  sdDisponible e = true -> limpia l -> (length l <= 118)%nat ->
  sd e !! ARCHIVO_PENDIENTES = Some (l ++ [CR; LF] ++ resto) ->
  parsear (l ++ [CR]) = Corrupta ->
  exists e',
    iteracion e a b = (true, (e', a, b + 1)) /\
    sdDisponible e' = true /\
    sd e' !! ARCHIVO_PENDIENTES = Some (default [] (sd e !! TEMP_TMP) ++ resto) /\
    sd e' !! TEMP_TMP = None /\
    sd e' !! ARCHIVO_ENVIADOS = sd e !! ARCHIVO_ENVIADOS /\
    red e' = red e /\ traza e' = traza e.
Proof.
  intros Hd Hl Hn Hp Hpar. unfold iteracion.
  rewrite (leer_primera_limpia e l resto) by done. rewrite Hpar.
  edestruct (eliminarPrimeraLinea_efecto
               (con_buffer e (tras_strtok PYC (l ++ [CR]))))
    as (s' & -> & H1 & H2 & H3); [done|exact Hp|].
  rewrite tras_primera_linea_limpia in H1 by done.
  eexists. split; [reflexivity|]. done.
Qed.

Lemma iteracion_fallida e l resto a b m :
  sdDisponible e = true -> limpia l -> (length l <= 118)%nat ->
  sd e !! ARCHIVO_PENDIENTES = Some (l ++ [CR; LF] ++ resto) ->
  parsear (l ++ [CR]) = Campos m ->
  hd false (red e) = false ->
  exists e',
    iteracion e a b = (false, (e', a, b)) /\
    sd e' = sd e /\ red e' = tl (red e) /\ traza e' = traza e ++ [(m, false)].
Proof.
  intros Hd Hl Hn Hp Hpar Hr. unfold iteracion.
  rewrite (leer_primera_limpia e l resto) by done. rewrite Hpar.
  cbn [enviarHTTP red con_buffer]. rewrite Hr.
  by eexists.
Qed.

Lemma iteracion_enviada e l resto a b m :
  sdDisponible e = true -> limpia l -> (length l <= 118)%nat ->
  sd e !! ARCHIVO_PENDIENTES = Some (l ++ [CR; LF] ++ resto) ->
  parsear (l ++ [CR]) = Campos m ->
  hd false (red e) = true ->
  exists e',
    iteracion e a b = (true, (e', a + 1, b + 1)) /\
    sdDisponible e' = true /\
    sd e' !! ARCHIVO_PENDIENTES = Some (default [] (sd e !! TEMP_TMP) ++ resto) /\
    sd e' !! TEMP_TMP = None /\
    sd e' !! ARCHIVO_ENVIADOS =
      Some (default [] (sd e !! ARCHIVO_ENVIADOS) ++ (l ++ [CR]) ++ [CR; LF]) /\
    red e' = tl (red e) /\ traza e' = traza e ++ [(m, true)].
Proof.
  intros Hd Hl Hn Hp Hpar Hr. unfold iteracion.
  rewrite (leer_primera_limpia e l resto) by done. rewrite Hpar.
  cbn [enviarHTTP red con_buffer]. rewrite Hr.
  set (e2 := mkEstado _ _ _ _ _ _).
  rewrite (leer_primera_limpia e2 l resto) by done.
  edestruct (marcarComoEnviado_efecto (con_buffer e2 (l ++ [CR])) (l ++ [CR]))
    as (s' & E & H1 & H2 & H3); [done|exact Hp|].
  rewrite tras_primera_linea_limpia in H1 by done.
  cbn [bufferLinea con_buffer] in *. rewrite E.
  eexists. split; [reflexivity|]. subst e2.
  cbn [sd con_sd sdDisponible red traza con_buffer] in *.
  repeat split; try done.
  rewrite H3. unfold println. rewrite cstr_id; [done|].
  apply not_elem_of_app. split; [apply Hl; repeat constructor|by apply ausente_b].
Qed.

(** The number of lines of a pending log made of clean lines. *)
Lemma contarLineas_dos e l1 l2 :
  sdDisponible e = true -> limpia l1 -> limpia l2 ->
  sd e !! ARCHIVO_PENDIENTES = Some ((l1 ++ [CR; LF]) ++ l2 ++ [CR; LF]) ->
  contarLineas e ARCHIVO_PENDIENTES = 2.
Proof.
  intros Hd H1 H2 Hp. unfold contarLineas. rewrite Hd, Hp. cbn [negb].
  rewrite contarLineas_bucle_exacto; [| lia |];
    change ((l1 ++ [CR; LF]) ++ l2 ++ [CR; LF])
      with ((l1 ++ [CR] ++ [LF]) ++ l2 ++ [CR] ++ [LF]);
    rewrite !(app_assoc _ [CR]), <- (app_assoc _ [LF]); simpl;
    unfold lineas; rewrite lineas_desde_linea by (by apply limpia_sin_lf_cr);
    unfold lineas; rewrite lineas_desde_linea by (by apply limpia_sin_lf_cr);
    simpl; lia.
Qed.

End IteracionOptimizado.

Section C9.
Import Optimizado.

Lemma limpia_lineaCSV id ms m : medicion_valida m -> limpia (lineaCSV id ms m).
Proof. intros Hm c Hc. by apply lineaCSV_limpia. Qed.

Lemma limpia_unir fs : Forall campo_valido fs -> limpia (unir fs).
Proof. intros Hfs c Hc. by apply unir_limpia. Qed.

End C9.

(** X27.  A line of two to six fields does not block the v2.0 drain.  The card
    is mounted, no [temp.tmp] is left over, the link is up, and the
    pending log holds a good record and a line of two to six valid fields,
    in either order, each of at most 118 bytes: one drain removes both
    lines, sends the record once, appends it to the sent log and counts
    two attempts. *)
Theorem linea_corta_descartada_y_registro_promovido
  e fs id ms m pend :
  Optimizado.sdDisponible e = true ->
  Optimizado.sd e !! Optimizado.TEMP_TMP = None ->
  Forall campo_valido fs -> (2 <= length fs <= 6)%nat ->
  (length (unir fs) <= 118)%nat ->
  medicion_valida m -> (length (Optimizado.lineaCSV id ms m) <= 118)%nat ->
  hd false (Optimizado.red e) = true ->
  pend = (unir fs ++ [CR; LF]) ++ Optimizado.lineaCSV id ms m ++ [CR; LF] \/
  pend = (Optimizado.lineaCSV id ms m ++ [CR; LF]) ++ unir fs ++ [CR; LF] ->
  Optimizado.sd e !! Optimizado.ARCHIVO_PENDIENTES = Some pend ->
  exists e' m' l',
    Optimizado.reintentarPendientes e = (e', 1, 2) /\
    Optimizado.sd e' !! Optimizado.ARCHIVO_PENDIENTES = Some [] /\
    Optimizado.sd e' !! Optimizado.ARCHIVO_ENVIADOS =
      Some (default [] (Optimizado.sd e !! Optimizado.ARCHIVO_ENVIADOS)
            ++ l' ++ [LF]) /\
    sin_cr l' = Optimizado.lineaCSV id ms m /\
    Optimizado.traza e' = Optimizado.traza e ++ [(m', true)] /\
    e_temp m' = e_temp m /\ e_cond m' = e_cond m /\ e_bat m' = e_bat m /\
    e_volt m' = e_volt m /\ sin_cr (e_cob m') = e_cob m.
Proof.
  intros Hd Ht Hfs Hn Hlm Hm Hlb Hr Hpend Hp.
  pose proof (limpia_unir fs Hfs) as Hcm.
  pose proof (limpia_lineaCSV id ms m Hm) as Hcb.
  pose proof (parsear_corrupta fs Hfs Hn) as Hpm.
  pose proof (parsear_linea id ms m Hm) as Hpb.
  set (m' := mkEnvio (e_temp m) (e_cond m) (e_bat m) (e_volt m) (e_cob m ++ [CR])) in *.
  assert (sin_cr (Optimizado.lineaCSV id ms m ++ [CR; CR]) =
          Optimizado.lineaCSV id ms m) as Hsin.
  { rewrite sin_cr_app, sin_cr_id by (apply Hcb; repeat constructor).
    by rewrite app_nil_r. }
  assert (sin_cr (e_cob m ++ [CR]) = e_cob m) as Hcob.
  { rewrite sin_cr_app, sin_cr_id by apply Hm. by rewrite app_nil_r. }
  unfold Optimizado.reintentarPendientes. rewrite Hd. cbn [negb].
  change (Z.to_nat Optimizado.MAX_REINTENTOS) with 3%nat.
  destruct Hpend as [-> | ->].
  - rewrite (contarLineas_dos e (unir fs) (Optimizado.lineaCSV id ms m)) by done.
    rewrite <- app_assoc in Hp.
    destruct (iteracion_corrupta e _ _ 0 0 Hd Hcm Hlm Hp Hpm)
      as (e1 & E1 & Hd1 & Hp1 & Ht1 & He1 & Hr1 & Htr1).
    rewrite Ht in Hp1. cbn [default app] in Hp1.
    rewrite <- (app_nil_r (_ ++ [CR; LF])), <- app_assoc in Hp1.
    rewrite <- Hr1 in Hr.
    destruct (iteracion_enviada e1 _ _ 0 (0 + 1) m' Hd1 Hcb Hlb Hp1 Hpb Hr)
      as (e2 & E2 & Hd2 & Hp2 & Ht2 & He2 & Hr2 & Htr2).
    cbn [Optimizado.reintentar_bucle]. change (0 =? 0) with false.
    cbn [andb Z.ltb Z.compare Optimizado.MAX_REINTENTOS]. cbn.
    rewrite E1. cbn. rewrite E2. cbn.
    exists e2, m', (Optimizado.lineaCSV id ms m ++ [CR; CR]).
    rewrite Ht1 in Hp2. rewrite He1 in He2. rewrite Htr1 in Htr2.
    repeat split; try done. rewrite He2. by rewrite <- !app_assoc.
  - rewrite (contarLineas_dos e (Optimizado.lineaCSV id ms m) (unir fs)) by done.
    rewrite <- app_assoc in Hp.
    destruct (iteracion_enviada e _ _ 0 0 m' Hd Hcb Hlb Hp Hpb Hr)
      as (e1 & E1 & Hd1 & Hp1 & Ht1 & He1 & Hr1 & Htr1).
    rewrite Ht in Hp1. cbn [default app] in Hp1.
    rewrite <- (app_nil_r (_ ++ [CR; LF])), <- app_assoc in Hp1.
    destruct (iteracion_corrupta e1 _ _ (0 + 1) (0 + 1) Hd1 Hcm Hlm Hp1 Hpm)
      as (e2 & E2 & Hd2 & Hp2 & Ht2 & He2 & Hr2 & Htr2).
    cbn [Optimizado.reintentar_bucle]. cbn.
    rewrite E1. cbn. rewrite E2. cbn.
    exists e2, m', (Optimizado.lineaCSV id ms m ++ [CR; CR]).
    rewrite Ht1 in Hp2. rewrite He1 in He2. rewrite Htr1 in Htr2.
    repeat split; try done. rewrite He2. by rewrite <- !app_assoc.
Qed.

Section C7.
Import Optimizado.

Lemma limpia_cr l : limpia l -> CR ∉ l.
Proof. intros H. apply H. by repeat constructor. Qed.
Lemma limpia_lf l : limpia l -> LF ∉ l.
Proof. intros H. apply H. by repeat constructor. Qed.
Lemma limpia_nul l : limpia l -> NUL ∉ l.
Proof. intros H. apply H. by repeat constructor. Qed.

Lemma sin_cr_crs l : limpia l -> sin_cr (l ++ [CR; CR]) = l.
Proof.
  intros H. rewrite sin_cr_app, sin_cr_id by (by apply limpia_cr).
  by rewrite app_nil_r.
Qed.

(** Appending a line to a complete log. *)
Lemma lineas_anexar s l :
  completo s -> LF ∉ l -> lineas (s ++ l ++ [LF]) = lineas s ++ [l].
Proof.
  intros Hs Hl. rewrite lineas_app_completo by done.
  unfold lineas at 2. by rewrite lineas_desde_linea.
Qed.

Lemma copias_anexar r s l :
  completo s -> LF ∉ l -> sin_cr l = r ->
  copias r (Some (s ++ l ++ [LF])) = S (copias r (Some s)).
Proof.
  intros Hs Hl Hr. unfold copias. rewrite lineas_anexar by done.
  rewrite map_app, filter_app, length_app. simpl.
  rewrite filter_cons_True by done. simpl. lia.
Qed.



Lemma promover_efecto e r resto :
  sdDisponible e = true -> limpia r -> (length r <= 118)%nat ->
  sd e !! ARCHIVO_PENDIENTES = Some (r ++ [CR; LF] ++ resto) ->
  exists s',
    promover e = (true, con_sd (con_buffer e (r ++ [CR])) s') /\
    s' !! ARCHIVO_PENDIENTES = Some (default [] (sd e !! TEMP_TMP) ++ resto) /\
    s' !! TEMP_TMP = None /\
    s' !! ARCHIVO_ENVIADOS =
      Some (default [] (sd e !! ARCHIVO_ENVIADOS) ++ (r ++ [CR; CR]) ++ [LF]).
Proof.
  intros Hd Hr Hn Hp. unfold promover.
  rewrite (leer_primera_limpia e r resto) by done.
  edestruct (marcarComoEnviado_efecto (con_buffer e (r ++ [CR])) (r ++ [CR]))
    as (s' & E & H1 & H2 & H3); [done|exact Hp|].
  rewrite tras_primera_linea_limpia in H1 by done.
  cbn [bufferLinea con_buffer sd] in *. rewrite E.
  exists s'. repeat split; try done.
  rewrite H3. unfold println. rewrite cstr_id.
  - by rewrite <- !app_assoc.
  - apply not_elem_of_app. split; [by apply limpia_nul|by apply ausente_b].
Qed.

Lemma sin_lf_crs l : limpia l -> LF ∉ l ++ [CR; CR].
Proof.
  intros H. apply not_elem_of_app. split; [by apply limpia_lf|by apply ausente_b].
Qed.

End C7.

(** C7, as the code has it.  The promotion does not look into the sent
    log.  The card is mounted, the pending log starts with the record line
    [r] (at most 118 bytes, no NUL and no line break) and the sent log
    ends with a complete line: the promotion adds one line holding [r] to
    the sent log, however many it holds already. *)
Theorem C7_la_promocion_repetida_anexa_otra_copia e r resto s :
  Optimizado.sdDisponible e = true ->
  limpia r -> (length r <= 118)%nat ->
  Optimizado.sd e !! Optimizado.ARCHIVO_PENDIENTES = Some (r ++ [CR; LF] ++ resto) ->
  Optimizado.sd e !! Optimizado.ARCHIVO_ENVIADOS = Some s ->
  completo s ->
  copias r (Optimizado.sd (Optimizado.promover e).2 !! Optimizado.ARCHIVO_ENVIADOS)
    = S (copias r (Some s)).
Proof.
  intros Hd Hr Hn Hp Hs Hc.
  destruct (promover_efecto e r resto Hd Hr Hn Hp) as (s' & -> & _ & _ & H3).
  cbn [snd Optimizado.sd Optimizado.con_sd]. rewrite H3, Hs. cbn [default].
  apply copias_anexar; [done|by apply sin_lf_crs|by apply sin_cr_crs].
Qed.

Lemma C7_contraejemplo :
  ~ (copias (Optimizado.lineaCSV 1 100 medicion1)
       (Optimizado.sd (Optimizado.reintentarPendientes estado_interrumpido).1.1
          !! Optimizado.ARCHIVO_ENVIADOS) <= 1)%nat.
Proof.
  assert (copias (Optimizado.lineaCSV 1 100 medicion1)
       (Optimizado.sd (Optimizado.reintentarPendientes estado_interrumpido).1.1
          !! Optimizado.ARCHIVO_ENVIADOS) = 2%nat) as -> by (vm_compute; reflexivity).
  lia.
Qed.

Section C1.
Import Optimizado.






(** The effects, block by block. *)
Lemma tras_app s xs ys : tras s (xs ++ ys) = tras (tras s xs) ys.
Proof. apply fold_left_app. Qed.

Lemma anexar_anexar (s : gmap string bytes) n a b :
  anexar (anexar s n a) n b = anexar s n (a ++ b).
Proof.
  unfold anexar. rewrite lookup_insert_eq. cbn [from_option Datatypes.id].
  rewrite insert_insert_eq. by rewrite <- app_assoc.
Qed.

Lemma tras_escribe s n a bs :
  tras (anexar s n a) (map (Escribe n) bs) = anexar s n (a ++ bs).
Proof.
  revert a; induction bs as [|c bs IH]; intros a.
  - by rewrite app_nil_r.
  - cbn [map]. change (tras ?t (?x :: ?l)) with (tras (efecto t x) l).
    cbn [efecto]. rewrite anexar_anexar, IH. by rewrite <- app_assoc.
Qed.

Lemma tras_bloque s n bs : tras s (Abre n :: map (Escribe n) bs) = anexar s n bs.
Proof.
  change (tras ?t (?x :: ?l)) with (tras (efecto t x) l). cbn [efecto].
  apply (tras_escribe s n [] bs).
Qed.



(** The whole run of the effects is what the functions leave on the card. *)
Lemma efectos_eliminarPrimeraLinea_completos e nombreArchivo :
  sdDisponible e = true ->
  sd (eliminarPrimeraLinea e nombreArchivo).2 =
    tras (sd e) (efectos_eliminarPrimeraLinea (sd e) nombreArchivo).
Proof.
  intros Hd. unfold eliminarPrimeraLinea, efectos_eliminarPrimeraLinea.
  rewrite Hd. cbn [negb].
  destruct (sd e !! nombreArchivo) as [origen|]; [|done].
  rewrite tras_bloque, tras_app, tras_bloque.
  change (tras ?t (?x :: ?l)) with (tras (efecto t x) l). cbn [efecto].
  destruct (delete nombreArchivo _ !! TEMP_TMP) as [temp_read|]; [|done].
  rewrite app_comm_cons, tras_app, tras_bloque. done.
Qed.

Lemma efectos_marcarComoEnviado_completos e linea :
  sd (marcarComoEnviado e linea).2 =
    tras (sd e) (efectos_marcarComoEnviado e linea).
Proof.
  unfold marcarComoEnviado, efectos_marcarComoEnviado.
  destruct (sdDisponible e) eqn:Hd; cbn [negb]; [|done].
  rewrite tras_app, tras_bloque.
  by rewrite (efectos_eliminarPrimeraLinea_completos (con_sd e _)) by done.
Qed.

Lemma corte_final e :
  corte e (length (efectos_promover e)) = sd (promover e).2.
Proof.
  unfold corte. rewrite firstn_all. unfold promover, efectos_promover.
  destruct (leerLineaN e _ _ _) as [l|];
    by rewrite efectos_marcarComoEnviado_completos.
Qed.





End C1.

(** X28.  The effects listed for the promotion are the promotion: run to the
    end, the effects of [marcarComoEnviado] leave the card that the
    function leaves, whatever the state and the line; so the card after a
    power cut that comes after the last effect of the promotion is the
    card the promotion leaves, and the card after a cut before the first
    effect is the card as it was. *)
Theorem los_efectos_son_la_promocion e linea :
  Optimizado.sd (Optimizado.marcarComoEnviado e linea).2 =
    Optimizado.tras (Optimizado.sd e)
      (Optimizado.efectos_marcarComoEnviado e linea) /\
  Optimizado.sd (Optimizado.promover e).2 =
    Optimizado.corte e (length (Optimizado.efectos_promover e)) /\
  Optimizado.corte e 0 = Optimizado.sd e.
Proof.
  split; [apply efectos_marcarComoEnviado_completos|]. split; [|done].
  symmetry. apply corte_final.
Qed.


Section Trazas.

Context {A : Type}.
Implicit Types t : list (A * bool).

Lemma fallo_al_final_nil : fallo_al_final (@nil (A * bool)).
Proof. intros i a H. done. Qed.

Lemma fallo_al_final_uno (a : A) b : fallo_al_final [(a, b)].
Proof. intros [|i] a' H; [done|]. done. Qed.

Lemma fallo_al_final_cons (a : A) t :
  fallo_al_final t -> fallo_al_final ((a, true) :: t).
Proof.
  intros H [|i] a' Hi; [done|]. simpl in *. f_equal. by eapply H.
Qed.

End Trazas.

Section TrazaOptimizado.
Import Optimizado.

Lemma eliminarPrimeraLinea_enlace e n : mismo_enlace e (eliminarPrimeraLinea e n).2.
Proof.
  unfold eliminarPrimeraLinea.
  destruct (sdDisponible e); simpl; [|done].
  destruct (sd e !! n); simpl; [|done].
  match goal with |- context [match ?x with _ => _ end] => destruct x end; done.
Qed.

Lemma marcarComoEnviado_enlace e l : mismo_enlace e (marcarComoEnviado e l).2.
Proof.
  unfold marcarComoEnviado.
  destruct (sdDisponible e) eqn:E; simpl; [|done].
  destruct (eliminarPrimeraLinea_enlace
              (con_sd e (anexar (sd e) ARCHIVO_ENVIADOS (println l)))
              ARCHIVO_PENDIENTES) as [? ?].
  by split.
Qed.

(** A turn issues at most one request; when it fails the loop stops. *)
Lemma iteracion_traza e a b :
  exists n,
    traza (iteracion e a b).2.1.1 = traza e ++ n /\
    (n = [] \/ exists m, n = [(m, (iteracion e a b).1)]).
Proof.
  unfold iteracion.
  destruct (leerLineaN e ARCHIVO_PENDIENTES 0 BUFFER_SIZE) as [l|];
    [|exists []; split; [by rewrite app_nil_r|by left]].
  destruct (parsear l) as [| |m]; cbn [fst snd].
  - exists []. split; [by rewrite app_nil_r|by left].
  - destruct (eliminarPrimeraLinea _ _) as [b' e2] eqn:E. cbn [fst snd].
    pose proof (eliminarPrimeraLinea_enlace
                  (con_buffer e (tras_strtok PYC l)) ARCHIVO_PENDIENTES) as [_ H].
    rewrite E in H. cbn [snd] in H.
    exists []. split; [by rewrite app_nil_r|by left].
  - cbn [enviarHTTP con_buffer red traza sdDisponible contadorMediciones
         bufferLinea sd].
    destruct (hd false (red e)) eqn:Hr; cbn [fst snd];
      [|exists [(m, false)]; split; [done|right; by exists m]].
    match goal with |- context [marcarComoEnviado ?x ?y] =>
      pose proof (marcarComoEnviado_enlace x y) as [_ H];
      destruct (marcarComoEnviado x y) as [b' e4] end.
    cbn [fst snd] in *. exists [(m, true)]. split; [|right; by exists m].
    rewrite H. by destruct (leerLineaN _ _ _ _).
Qed.

Lemma reintentar_bucle_traza v p e a b :
  exists nuevos,
    traza (reintentar_bucle v p e a b).1.1 = traza e ++ nuevos /\
    (length nuevos <= v)%nat /\ fallo_al_final nuevos.
Proof.
  revert e a b; induction v as [|v IH]; intros e a b; cbn [reintentar_bucle].
  { exists []. split; [by rewrite app_nil_r|]. split; [done|apply fallo_al_final_nil]. }
  destruct ((b <? MAX_REINTENTOS) && (b <? p)).
  2:{ exists []. split; [by rewrite app_nil_r|].
      split; [simpl; lia|apply fallo_al_final_nil]. }
  destruct (iteracion_traza e a b) as (n & Hn & Hcaso).
  destruct (iteracion e a b) as [cont [[e' a'] b']]. cbn [fst snd] in *.
  destruct cont.
  - destruct (IH e' a' b') as (nuevos & Ht & Hl & Hf).
    exists (n ++ nuevos). rewrite Ht, Hn, app_assoc. split; [done|].
    destruct Hcaso as [->|[m ->]]; simpl.
    + split; [lia|done].
    + split; [lia|by apply fallo_al_final_cons].
  - exists n. split; [done|].
    destruct Hcaso as [->|[m ->]]; simpl.
    + split; [lia|apply fallo_al_final_nil].
    + split; [lia|apply fallo_al_final_uno].
Qed.

End TrazaOptimizado.

Section TrazaModular.
Import Modular.
Context {flotante : Type}.

Lemma moverPrimeraLineaAEnviados_traza (e : Estado flotante) :
  traza (moverPrimeraLineaAEnviados e).2 = traza e.
Proof.
  unfold moverPrimeraLineaAEnviados.
  destruct (leerPrimeraLinea e ARCHIVO_PENDIENTES); [|done].
  by destruct (_ !! ARCHIVO_PENDIENTES).
Qed.

Lemma modular_bucle_traza v (e : Estado flotante) n :
  exists nuevos,
    traza (reintentar_bucle v e n).1 = traza e ++ nuevos /\
    (length nuevos <= v)%nat /\ fallo_al_final nuevos.
Proof.
  revert e n; induction v as [|v IH]; intros e n; cbn [reintentar_bucle].
  { exists []. split; [by rewrite app_nil_r|]. split; [done|apply fallo_al_final_nil]. }
  destruct (n <? MAX_REINTENTOS).
  2:{ exists []. split; [by rewrite app_nil_r|].
      split; [simpl; lia|apply fallo_al_final_nil]. }
  destruct (leerPrimeraLinea e ARCHIVO_PENDIENTES) as [l|].
  2:{ exists []. split; [by rewrite app_nil_r|].
      split; [simpl; lia|apply fallo_al_final_nil]. }
  cbn [enviarHTTP]. destruct (hd false (red e)).
  - match goal with |- context [moverPrimeraLineaAEnviados ?x] =>
      pose proof (moverPrimeraLineaAEnviados_traza x) as H;
      destruct (moverPrimeraLineaAEnviados x) as [b' e2] end.
    cbn [snd traza] in H.
    destruct (IH e2 (n + 1)) as (nuevos & Ht & Hl & Hf).
    exists ((DeLinea (tokens 7 l), true) :: nuevos).
    rewrite Ht, H, <- app_assoc. split; [done|].
    split; [simpl; lia|by apply fallo_al_final_cons].
  - exists [(DeLinea (tokens 7 l), false)]. split; [done|].
    split; [simpl; lia|apply fallo_al_final_uno].
Qed.

End TrazaModular.

Section TrazaRespaldo.
Import Respaldo.

Lemma respaldo_marcar_traza e id : traza (marcarComoEnviado e id).2 = traza e.
Proof.
  unfold marcarComoEnviado. destruct (sdDisponible e); simpl; [|done].
  destruct (_ !! DATOS_CSV); simpl; [|done].
  match goal with |- context [match ?x with _ => _ end] => destruct x end; done.
Qed.

Lemma respaldo_bucle_traza resto linea e a b :
  exists nuevos,
    traza (reintentar_bucle resto linea e a b).1.1 = traza e ++ nuevos /\
    Z.of_nat (length nuevos) <= Z.max 0 (MAX_REINTENTOS - b).
Proof.
  revert linea e a b; induction resto as [|c r IH]; intros linea e a b;
    cbn [reintentar_bucle].
  { exists []. split; [by rewrite app_nil_r|simpl; lia]. }
  destruct (Z.ltb_spec b MAX_REINTENTOS) as [Hb|Hb].
  2:{ exists []. split; [by rewrite app_nil_r|simpl; lia]. }
  destruct (Ascii.eqb c LF); [|apply IH].
  destruct (indexOf_str linea PENDIENTE 0 >? 0);
    [|destruct (IH [] e a b) as (n & ? & ?); by exists n].
  destruct (campos linea) as [id m]. cbn [enviahttp].
  destruct (hd false (red e)).
  - match goal with |- context [marcarComoEnviado ?x ?y] =>
      pose proof (respaldo_marcar_traza x y) as Hm;
      destruct (marcarComoEnviado x y) as [b' e2] end.
    cbn [snd traza] in Hm.
    destruct (IH [] e2 (a + 1) (b + 1)) as (n & Ht & Hl).
    exists ((m, true) :: n). rewrite Ht, Hm, <- app_assoc.
    split; [done|]. simpl length. lia.
  - match goal with |- context [reintentar_bucle r [] ?x a (b + 1)] =>
      destruct (IH [] x a (b + 1)) as (n & Ht & Hl) end.
    cbn [traza] in Ht.
    exists ((m, false) :: n). rewrite Ht, <- app_assoc.
    split; [done|]. simpl length. lia.
Qed.

End TrazaRespaldo.

(** C4, as the code has it.  In the three sketches one drain issues at
    most three requests.  In the two-log sketches a failed request is the
    last one of the drain; the single-file sketch goes on after a failure
    (see the counterexample). *)
Theorem C4_reintentos_acotados_y_parada_en_dos_logs :
  (forall e, exists nuevos,
     Optimizado.traza (Optimizado.reintentarPendientes e).1.1 =
       Optimizado.traza e ++ nuevos /\
     (length nuevos <= 3)%nat /\ fallo_al_final nuevos) /\
  (forall flotante (e : Modular.Estado flotante), exists nuevos,
     Modular.traza (Modular.reintentarPendientes e).1 =
       Modular.traza e ++ nuevos /\
     (length nuevos <= 3)%nat /\ fallo_al_final nuevos) /\
  (forall e, exists nuevos,
     Respaldo.traza (Respaldo.reintentarEnviosPendientes e).1.1 =
       Respaldo.traza e ++ nuevos /\
     (length nuevos <= 3)%nat).
Proof.
  split; [|split].
  - intros e. unfold Optimizado.reintentarPendientes.
    destruct (negb _);
      [exists []; split; [by rewrite app_nil_r|split; [simpl; lia|apply fallo_al_final_nil]]|].
    destruct (_ =? 0);
      [exists []; split; [by rewrite app_nil_r|split; [simpl; lia|apply fallo_al_final_nil]]|].
    apply reintentar_bucle_traza.
  - intros fl e. unfold Modular.reintentarPendientes.
    destruct (_ =? 0);
      [exists []; split; [by rewrite app_nil_r|split; [simpl; lia|apply fallo_al_final_nil]]|].
    apply modular_bucle_traza.
  - intros e. unfold Respaldo.reintentarEnviosPendientes.
    destruct (negb _); [exists []; split; [by rewrite app_nil_r|simpl; lia]|].
    destruct (_ !! Respaldo.DATOS_CSV) as [f|];
      [|exists []; split; [by rewrite app_nil_r|simpl; lia]].
    destruct (respaldo_bucle_traza f [] e 0 0) as (n & Ht & Hl).
    exists n. split; [done|]. unfold Respaldo.MAX_REINTENTOS in Hl. lia.
Qed.

Lemma C4_contraejemplo :
  ~ fallo_al_final
      (Respaldo.traza (Respaldo.reintentarEnviosPendientes estado_dos_pendientes).1.1).
Proof.
  intros H. specialize (H 0%nat medicion1).
  assert (Respaldo.traza
            (Respaldo.reintentarEnviosPendientes estado_dos_pendientes).1.1 =
          [(medicion1, false); (medicion1, true)]) as E by (vm_compute; reflexivity).
  rewrite E in H. specialize (H eq_refl). discriminate H.
Qed.

Section DrenajeModular.
Import Modular.
Context {flotante : Type}.
Implicit Types e : Estado flotante.

Lemma leerPrimeraLinea_bucle_linea l y buf :
  CR ∉ l -> LF ∉ l -> (length (buf ++ l) <= 149)%nat ->
  leerPrimeraLinea_bucle (l ++ CR :: y) buf = buf ++ l.
Proof.
  revert buf; induction l as [|c l IH]; intros buf Hcr Hlf Hn; simpl.
  - rewrite app_nil_r. by destruct (_ <? _).
  - apply not_elem_of_cons in Hcr as [Hc1 Hcr].
    apply not_elem_of_cons in Hlf as [Hc2 Hlf].
    rewrite length_app in Hn. simpl in Hn.
    destruct (Z.ltb_spec (Z.of_nat (length buf)) 149); [|lia].
    destruct (eqb_dec c LF) as [[_ ->]|[-> _]]; [done|].
    destruct (eqb_dec c CR) as [[_ ->]|[-> _]]; [done|]. simpl.
    rewrite IH; [by rewrite <- app_assoc|done|done|].
    rewrite <- app_assoc. simpl. rewrite length_app. simpl. lia.
Qed.

Lemma leerPrimeraLinea_registro e l ls :
  montada e = true -> registro l ->
  sd e !! ARCHIVO_PENDIENTES = Some (archivo_de (l :: ls)) ->
  leerPrimeraLinea e ARCHIVO_PENDIENTES = Some l.
Proof.
  intros Hm (Hne & Hl & Hn) Hp. unfold leerPrimeraLinea.
  rewrite Hm, Hp. cbn [negb archivo_de].
  change (l ++ [CR; LF] ++ archivo_de ls) with (l ++ CR :: LF :: archivo_de ls).
  rewrite leerPrimeraLinea_bucle_linea;
    [|by apply limpia_cr|by apply limpia_lf|done].
  cbn [app]. destruct l as [|c l]; [done|].
  cbn [length]. rewrite cstr_id by (by apply limpia_nul).
  by destruct (Z.ltb_spec 0 (Z.of_nat (S (length l)))); [|lia].
Qed.


Lemma moverPrimeraLineaAEnviados_registro e l ls :
  montada e = true -> registro l ->
  sd e !! ARCHIVO_PENDIENTES = Some (archivo_de (l :: ls)) ->
  sd e !! TEMP_TMP = None ->
  exists s',
    moverPrimeraLineaAEnviados e = (true, con_sd e s') /\
    s' !! ARCHIVO_PENDIENTES = Some (archivo_de ls) /\
    s' !! TEMP_TMP = None /\
    s' !! ARCHIVO_ENVIADOS =
      Some (default [] (sd e !! ARCHIVO_ENVIADOS) ++ l ++ [CR; LF]).
Proof.
  intros Hm Hr Hp Ht. unfold moverPrimeraLineaAEnviados.
  rewrite (leerPrimeraLinea_registro e l ls) by done.
  mapa. rewrite Hp. eexists. split; [reflexivity|].
  destruct Hr as (Hne & Hl & Hn).
  mapa. rewrite Ht. cbn [archivo_de].
  rewrite tras_primera_linea_limpia by done. cbn [from_option id app].
  unfold println. rewrite cstr_id by (by apply limpia_nul). done.
Qed.



End DrenajeModular.

Section PorEvaluacion.

Lemma limpia_b_ok l : limpia_b l = true -> limpia l.
Proof.
  unfold limpia_b. intros H c Hc. apply ausente_b.
  rewrite forallb_forall in *. intros d Hd. specialize (H d Hd).
  apply andb_prop in H as [H H3]. apply andb_prop in H as [H1 H2].
  apply elem_of_cons in Hc as [->|Hc]; [done|].
  apply elem_of_cons in Hc as [->|Hc]; [done|].
  by apply list_elem_of_singleton in Hc as ->.
Qed.

Lemma campo_valido_b_ok f : campo_valido_b f = true -> campo_valido f.
Proof.
  unfold campo_valido_b. intros H.
  apply andb_prop in H as [H H3]. apply andb_prop in H as [H1 H2].
  apply limpia_b_ok in H2.
  split; [intros ->; discriminate H1|].
  split; [by apply limpia_nul|]. split; [by apply limpia_lf|].
  split; [by apply limpia_cr|]. by apply ausente_b.
Qed.

Lemma medicion_valida_b_ok m : medicion_valida_b m = true -> medicion_valida m.
Proof.
  unfold medicion_valida_b. intros H.
  apply andb_prop in H as [H H5]. apply andb_prop in H as [H H4].
  apply andb_prop in H as [H H3]. apply andb_prop in H as [H1 H2].
  split; [|split; [|split; [|split]]]; by apply campo_valido_b_ok.
Qed.

Lemma registro_b_ok l :
  negb (Nat.eqb (length l) 0) && limpia_b l && Nat.leb (length l) 149 = true ->
  registro l.
Proof.
  intros H. apply andb_prop in H as [H H3]. apply andb_prop in H as [H1 H2].
  split; [intros ->; discriminate H1|]. split; [by apply limpia_b_ok|].
  by apply Nat.leb_le.
Qed.

End PorEvaluacion.


Lemma C8_contraejemplo :
  let e := (Optimizado.guardarMedicion
              (Optimizado.con_contador estado_dos 3) 300 medicion1).2 in
  Optimizado.contarLineas e Optimizado.ARCHIVO_PENDIENTES = 3 /\
  Optimizado.sd (Optimizado.enviar_inmediato e true medicion1)
    !! Optimizado.ARCHIVO_ENVIADOS
  = Some (println Optimizado.ENCABEZADO
          ++ Optimizado.lineaCSV 3 300 medicion1 ++ [CR; CR; LF]).
Proof.
  split; vm_compute; reflexivity.
Qed.

(** C9.  The drain of the v2.0 sketch on a pending log whose first line
    holds one field.  In [estado_basura] the card is mounted, no
    [temp.tmp] is left over, the link is up, and the pending log holds the
    line [basura] and after it a well-formed record.  The drain leaves its
    loop at that line: it makes no request, reports no record sent and no
    attempt, and the pending and the sent log are what they were, so the
    line is not discarded and the record behind it is neither transmitted
    nor promoted.  The next drain does the same. *)
Theorem C9_linea_de_un_campo_detiene_el_drenaje :
  let e' := (Optimizado.reintentarPendientes estado_basura).1.1 in
  let e'' := (Optimizado.reintentarPendientes e').1.1 in
  Optimizado.sdDisponible estado_basura = true /\
  Optimizado.sd estado_basura !! Optimizado.ARCHIVO_PENDIENTES =
    Some ((texto "basura" ++ [CR; LF])
          ++ Optimizado.lineaCSV 1 100 medicion1 ++ [CR; LF]) /\
  Optimizado.sd estado_basura !! Optimizado.TEMP_TMP = None /\
  hd false (Optimizado.red estado_basura) = true /\
  Optimizado.reintentarPendientes estado_basura = (e', 0, 0) /\
  Optimizado.traza e' = [] /\
  Optimizado.sd e' !! Optimizado.ARCHIVO_PENDIENTES =
    Optimizado.sd estado_basura !! Optimizado.ARCHIVO_PENDIENTES /\
  Optimizado.sd e' !! Optimizado.ARCHIVO_ENVIADOS =
    Optimizado.sd estado_basura !! Optimizado.ARCHIVO_ENVIADOS /\
  Optimizado.reintentarPendientes e' = (e'', 0, 0) /\
  Optimizado.traza e'' = [] /\
  Optimizado.sd e'' !! Optimizado.ARCHIVO_PENDIENTES =
    Optimizado.sd estado_basura !! Optimizado.ARCHIVO_PENDIENTES.
Proof.
  repeat split; vm_compute; reflexivity.
Qed.


Lemma ida_y_vuelta_de_los_campos_v2_testigo :
  exists m',
    Optimizado.decodificar
      (Optimizado.lineaCSV 1 100 medicion1 ++ [CR; LF]
       ++ Optimizado.lineaCSV 2 200 medicion2 ++ [CR; LF])
      = Some (Optimizado.Campos m') /\
    e_temp m' = e_temp medicion1 /\ e_cond m' = e_cond medicion1 /\
    e_bat m' = e_bat medicion1 /\ e_volt m' = e_volt medicion1 /\
    sin_cr (e_cob m') = e_cob medicion1.
Proof.
  apply (ida_y_vuelta_de_los_campos_v2 1 100 medicion1
           (Optimizado.lineaCSV 2 200 medicion2 ++ [CR; LF])).
  - apply medicion_valida_b_ok. vm_compute. reflexivity.
  - vm_compute. lia.
Defined.

Lemma C7_la_promocion_repetida_anexa_otra_copia_testigo :
  let r := Optimizado.lineaCSV 1 100 medicion1 in
  copias r (Optimizado.sd (Optimizado.promover estado_interrumpido).2
              !! Optimizado.ARCHIVO_ENVIADOS)
  = S (copias r (Some (println Optimizado.ENCABEZADO ++ println (r ++ [CR])))).
Proof.
  apply (C7_la_promocion_repetida_anexa_otra_copia estado_interrumpido
           (Optimizado.lineaCSV 1 100 medicion1) []
           (println Optimizado.ENCABEZADO
            ++ println (Optimizado.lineaCSV 1 100 medicion1 ++ [CR]))).
  - reflexivity.
  - apply limpia_b_ok. vm_compute. reflexivity.
  - vm_compute. lia.
  - vm_compute. reflexivity.
  - vm_compute. reflexivity.
  - vm_compute. reflexivity.
Defined.

Lemma linea_corta_descartada_y_registro_promovido_testigo :
  exists e' m' l',
    Optimizado.reintentarPendientes estado_corta = (e', 1, 2) /\
    Optimizado.sd e' !! Optimizado.ARCHIVO_PENDIENTES = Some [] /\
    Optimizado.sd e' !! Optimizado.ARCHIVO_ENVIADOS =
      Some (default [] (Optimizado.sd estado_corta !! Optimizado.ARCHIVO_ENVIADOS)
            ++ l' ++ [LF]) /\
    sin_cr l' = Optimizado.lineaCSV 1 100 medicion1 /\
    Optimizado.traza e' = Optimizado.traza estado_corta ++ [(m', true)] /\
    e_temp m' = e_temp medicion1 /\ e_cond m' = e_cond medicion1 /\
    e_bat m' = e_bat medicion1 /\ e_volt m' = e_volt medicion1 /\
    sin_cr (e_cob m') = e_cob medicion1.
Proof.
  apply (linea_corta_descartada_y_registro_promovido estado_corta
           [texto "7"; texto "300"; texto "21.5"] 1 100 medicion1
           ((unir [texto "7"; texto "300"; texto "21.5"] ++ [CR; LF])
            ++ Optimizado.lineaCSV 1 100 medicion1 ++ [CR; LF])).
  - reflexivity.
  - vm_compute. reflexivity.
  - repeat constructor; apply campo_valido_b_ok; vm_compute; reflexivity.
  - vm_compute. lia.
  - vm_compute. lia.
  - apply medicion_valida_b_ok. vm_compute. reflexivity.
  - vm_compute. lia.
  - reflexivity.
  - left. reflexivity.
  - vm_compute. reflexivity.
Defined.

Lemma C10_encabezado_cuenta_como_registro_testigo :
  let e := guardar_varias (Optimizado.setup true ∅ [] [])
             [(100, medicion1); (200, medicion2)] in
  Optimizado.contarLineas e Optimizado.ARCHIVO_PENDIENTES = 3 /\
  Optimizado.leerLineaN e Optimizado.ARCHIVO_PENDIENTES 0 Optimizado.BUFFER_SIZE =
    Some (Optimizado.ENCABEZADO ++ [CR]).
Proof.
  apply (C10_encabezado_cuenta_como_registro ∅ [] []
           [(100, medicion1); (200, medicion2)]).
  - reflexivity.
  - repeat constructor; by apply ausente_b.
  - vm_compute. reflexivity.
Defined.

Lemma C10_contraejemplo :
  let ms := replicate (Z.to_nat 32767) (100, medicion1) in
  let e := guardar_varias (Optimizado.setup true ∅ [] []) ms in
  Forall (fun p => sin_lf p.2) ms /\
  Optimizado.contarLineas e Optimizado.ARCHIVO_PENDIENTES = -32768 /\
  Optimizado.contarLineas e Optimizado.ARCHIVO_PENDIENTES
    <> Z.of_nat (length ms) + 1.
Proof.
  intros ms e.
  assert (Forall (fun p : Z * Envio => sin_lf p.2) ms) as Hms.
  { apply Forall_replicate. repeat split; by apply ausente_b. }
  assert (length ms = Z.to_nat 32767) as Hlen by apply length_replicate.
  assert (Optimizado.contarLineas e Optimizado.ARCHIVO_PENDIENTES = -32768) as E.
  { destruct (guardar_varias_pendientes (Optimizado.setup true ∅ [] []) ms [])
      as (c' & Hd & Hs & Hc & Hl);
      [reflexivity|exact Hms|
       rewrite setup_pendientes by reflexivity; by rewrite app_nil_r|
       reflexivity|].
    fold e in Hd, Hs. cbn [lineas lineas_desde length Nat.add] in Hl.
    assert (println Optimizado.ENCABEZADO ++ c' =
            (Optimizado.ENCABEZADO ++ [CR]) ++ LF :: c') as Hf.
    { unfold println. rewrite cstr_encabezado. by rewrite <- !app_assoc. }
    assert (LF ∉ Optimizado.ENCABEZADO ++ [CR]) as Hlf by (by apply ausente_b).
    unfold Optimizado.contarLineas. rewrite Hd, Hs, Hf. cbn [negb].
    rewrite contarLineas_bucle_int16 by lia.
    unfold lineas at 1. rewrite lineas_desde_linea by done.
    cbn [length]. rewrite Hl, Hlen.
    replace (0 + Z.of_nat (S (Z.to_nat 32767))) with 32768 by lia.
    reflexivity. }
  split; [done|]. split; [done|]. rewrite E, Hlen. lia.
Qed.

(* ===================================================================== *)
(** * Further properties of the v2.0 sketch                               *)
(* ===================================================================== *)

Section MasOptimizado.
Import Optimizado.

Lemma cola_tras_primera_linea f :
  LF ∈ f -> cola_desde [] (tras_primera_linea f) = cola_desde [] f.
Proof.
  intros H. destruct (partir_linea f H) as (l & y & -> & Hl).
  rewrite tras_primera_linea_linea by done. by rewrite cola_desde_linea.
Qed.

(** Reading the line in progress: [buf] holds its first bytes. *)
Lemma leerLineaN_bucle_en_curso f n tam buf l :
  head (lineas_desde buf f) = Some l ->
  Z.of_nat (length buf) <= Z.max 0 (tam - 1) ->
  leerLineaN_bucle f n n tam buf = Some (cstr (take (Z.to_nat (tam - 1)) l)).
Proof.
  revert buf; induction f as [|c f IH]; intros buf Hl Hn; [done|].
  cbn [leerLineaN_bucle lineas_desde] in *. rewrite Z.eqb_refl.
  destruct (eqb_dec c LF) as [[E ->]|[E Hc]]; rewrite E in *; cbn [orb head] in *.
  - injection Hl as <-. rewrite take_ge; [done|lia].
  - destruct (Z.leb_spec (tam - 1) (Z.of_nat (length buf))) as [Hfull|Hroom].
    + assert (length buf = Z.to_nat (tam - 1)) as E1 by lia.
      rewrite lineas_desde_cabeza in Hl.
      destruct (lineas f) as [|l1 ls]; [done|]. simpl in Hl.
      injection Hl as <-. rewrite <- app_assoc, <- E1.
      by rewrite take_app_length.
    + apply IH; [done|]. rewrite length_app. simpl. lia.
Qed.

Lemma lookup_cabeza_S p ls (i : nat) : cabeza p ls !! S i = ls !! S i.
Proof. by destruct ls. Qed.

Lemma leerLineaN_bucle_lineas f (n k : nat) tam l :
  lineas f !! n = Some l -> Z.of_nat (k + n) < 32767 ->
  leerLineaN_bucle f (Z.of_nat (k + n)) (Z.of_nat k) tam [] =
    Some (cstr (take (Z.to_nat (tam - 1)) l)).
Proof.
  revert k n; induction f as [|c f IH]; intros k n Hl Hn; [done|].
  destruct n as [|n].
  - rewrite Nat.add_0_r. apply leerLineaN_bucle_en_curso; [|simpl; lia].
    fold (lineas (c :: f)). by destruct (lineas (c :: f)).
  - cbn [leerLineaN_bucle].
    destruct (Z.eqb_spec (Z.of_nat k) (Z.of_nat (k + S n))) as [E|_]; [lia|].
    unfold lineas in Hl. simpl in Hl.
    destruct (Ascii.eqb c LF).
    + simpl in Hl. rewrite int16_id by lia.
      destruct (Z.gtb_spec (Z.of_nat k + 1) (Z.of_nat (k + S n))); [lia|].
      replace (Z.of_nat k + 1) with (Z.of_nat (S k)) by lia.
      replace (k + S n)%nat with (S k + n)%nat by lia.
      apply IH; [done|lia].
    + rewrite lineas_desde_cabeza, lookup_cabeza_S in Hl.
      apply IH; [done|lia].
Qed.

Lemma leerLineaN_lineas e nombre (n : nat) tam f l :
  sdDisponible e = true ->
  sd e !! nombre = Some f ->
  lineas f !! n = Some l ->
  Z.of_nat n < 32767 ->
  leerLineaN e nombre (Z.of_nat n) tam =
    Some (cstr (take (Z.to_nat (tam - 1)) l)).
Proof.
  intros Hd Hf Hl Hn. unfold leerLineaN. rewrite Hd, Hf. cbn [negb].
  apply (leerLineaN_bucle_lineas f n 0 tam l Hl). simpl. lia.
Qed.

End MasOptimizado.

(** X1.  [leerLineaN] delivers line [n] of the file, cut to the size of the
    buffer: for a file whose line [n] (the run of bytes between the [n]-th
    and the next line feed) is [l], it returns the first [bufferSize - 1]
    bytes of [l], read as a C string. *)
Theorem leerLineaN_entrega_la_linea e nombre (n : nat) tam f l :
  Optimizado.sdDisponible e = true ->
  Optimizado.sd e !! nombre = Some f ->
  lineas f !! n = Some l ->
  Z.of_nat n < 32767 ->
  Optimizado.leerLineaN e nombre (Z.of_nat n) tam =
    Some (cstr (take (Z.to_nat (tam - 1)) l)).
Proof. apply leerLineaN_lineas. Qed.

Lemma leerLineaN_entrega_la_linea_testigo :
  Optimizado.leerLineaN estado_dos Optimizado.ARCHIVO_PENDIENTES (Z.of_nat 1) 10 =
    Some (cstr (take (Z.to_nat (10 - 1))
                  (Optimizado.lineaCSV 2 200 medicion2 ++ [CR]))).
Proof.
  apply (leerLineaN_entrega_la_linea estado_dos Optimizado.ARCHIVO_PENDIENTES 1 10
           (Optimizado.lineaCSV 1 100 medicion1 ++ [CR; LF]
            ++ Optimizado.lineaCSV 2 200 medicion2 ++ [CR; LF])).
  - reflexivity.
  - vm_compute. reflexivity.
  - vm_compute. reflexivity.
  - vm_compute. reflexivity.
Defined.

Section MasOptimizado2.
Import Optimizado.

Lemma lineaCSV_sin_nul id ms m : NUL ∉ lineaCSV id ms m.
Proof.
  unfold lineaCSV.
  repeat (rewrite not_elem_of_app || rewrite not_elem_of_cons).
  pose proof (decimal_sin_nul id). pose proof (decimal_sin_nul ms).
  pose proof (cstr_sin_nul (e_temp m)). pose proof (cstr_sin_nul (e_cond m)).
  pose proof (cstr_sin_nul (e_bat m)). pose proof (cstr_sin_nul (e_volt m)).
  pose proof (cstr_sin_nul (e_cob m)).
  assert (NUL <> PYC) by done.
  repeat split; try done; by apply not_elem_of_nil.
Qed.

Lemma cstr_take k s : NUL ∉ s -> cstr (take k s) = take k s.
Proof.
  intros H. apply cstr_id. intros Hin. apply H.
  by apply (subseteq_take k s).
Qed.

End MasOptimizado2.

(** X2.  [eliminarPrimeraLinea] on a card that is available and holds the file:
    it succeeds, the file becomes what [temp.tmp] held before the call
    followed by the bytes after the first line feed, [temp.tmp] is gone and
    no other file changes.  Without a left-over [temp.tmp] the lines of the
    file are the former ones but the first, and the unfinished last line,
    if there is a line feed before it, is kept. *)
Theorem eliminarPrimeraLinea_quita_la_primera e nombre origen :
  Optimizado.sdDisponible e = true ->
  nombre <> Optimizado.TEMP_TMP ->
  Optimizado.sd e !! nombre = Some origen ->
  let previo := default [] (Optimizado.sd e !! Optimizado.TEMP_TMP) in
  Optimizado.eliminarPrimeraLinea e nombre =
    (true, Optimizado.con_sd e
             (<[nombre := previo ++ tras_primera_linea origen]>
                (delete Optimizado.TEMP_TMP (Optimizado.sd e)))) /\
  (Optimizado.sd e !! Optimizado.TEMP_TMP = None ->
   lineas (previo ++ tras_primera_linea origen) = tail (lineas origen) /\
   (LF ∈ origen ->
    cola_desde [] (previo ++ tras_primera_linea origen) = cola_desde [] origen)).
Proof.
  intros Hd Hn Hf previo. split.
  - unfold Optimizado.eliminarPrimeraLinea. rewrite Hd, Hf. cbn [negb].
    rewrite lookup_delete_ne by done. rewrite lookup_anexar_eq.
    fold previo. f_equal. f_equal.
    apply map_eq; intros k. unfold anexar.
    destruct (decide (k = Optimizado.TEMP_TMP)) as [->|Hk].
    + rewrite lookup_delete_eq. rewrite lookup_insert_ne by done.
      by rewrite lookup_delete_eq.
    + rewrite lookup_delete_ne by done.
      destruct (decide (k = nombre)) as [->|Hk'].
      * rewrite !lookup_insert_eq. rewrite lookup_delete_eq. done.
      * rewrite !lookup_insert_ne by done. rewrite lookup_delete_ne by done.
        rewrite lookup_insert_ne by done. by rewrite lookup_delete_ne by done.
  - intros Ht. subst previo. rewrite Ht. cbn [from_option id app]. split.
    + apply lineas_tras_primera_linea.
    + apply cola_tras_primera_linea.
Qed.

Lemma eliminarPrimeraLinea_quita_la_primera_testigo :
  let e := estado_dos in
  let origen := Optimizado.lineaCSV 1 100 medicion1 ++ [CR; LF]
                ++ Optimizado.lineaCSV 2 200 medicion2 ++ [CR; LF] in
  Optimizado.eliminarPrimeraLinea e Optimizado.ARCHIVO_PENDIENTES =
    (true, Optimizado.con_sd e
             (<[Optimizado.ARCHIVO_PENDIENTES := [] ++ tras_primera_linea origen]>
                (delete Optimizado.TEMP_TMP (Optimizado.sd e)))) /\
  lineas ([] ++ tras_primera_linea origen) = tail (lineas origen) /\
  cola_desde [] ([] ++ tras_primera_linea origen) = cola_desde [] origen.
Proof.
  destruct (eliminarPrimeraLinea_quita_la_primera estado_dos
              Optimizado.ARCHIVO_PENDIENTES
              (Optimizado.lineaCSV 1 100 medicion1 ++ [CR; LF]
               ++ Optimizado.lineaCSV 2 200 medicion2 ++ [CR; LF])
              eq_refl ltac:(discriminate) ltac:(vm_compute; reflexivity))
    as [H1 H2].
  destruct (H2 ltac:(vm_compute; reflexivity)) as [H3 H4].
  split; [exact H1|]. split; [exact H3|].
  apply H4. apply (bool_decide_unpack _). vm_compute. exact I.
Defined.

(** X3.  A [temp.tmp] left on the card by an interrupted run comes back: when
    it holds whole lines, [eliminarPrimeraLinea] leaves the file with those
    lines first and then the lines that followed the first one. *)
Theorem eliminarPrimeraLinea_arrastra_el_temporal e nombre origen viejo :
  Optimizado.sdDisponible e = true ->
  nombre <> Optimizado.TEMP_TMP ->
  Optimizado.sd e !! nombre = Some origen ->
  Optimizado.sd e !! Optimizado.TEMP_TMP = Some viejo ->
  completo viejo ->
  exists f,
    Optimizado.sd (Optimizado.eliminarPrimeraLinea e nombre).2 !! nombre = Some f /\
    lineas f = lineas viejo ++ tail (lineas origen).
Proof.
  intros Hd Hn Hf Ht Hc.
  unfold Optimizado.eliminarPrimeraLinea. rewrite Hd, Hf. cbn [negb].
  rewrite lookup_delete_ne by done. rewrite lookup_anexar_eq. cbn [snd Optimizado.sd Optimizado.con_sd].
  rewrite Ht. cbn [from_option id].
  eexists. split.
  - rewrite lookup_delete_ne by done. rewrite lookup_anexar_eq.
    rewrite lookup_delete_eq. cbn [from_option id app]. reflexivity.
  - rewrite lineas_app_completo by done. by rewrite lineas_tras_primera_linea.
Qed.

Lemma eliminarPrimeraLinea_arrastra_el_temporal_testigo :
  exists f,
    Optimizado.sd (Optimizado.eliminarPrimeraLinea estado_con_temporal
                     Optimizado.ARCHIVO_PENDIENTES).2
      !! Optimizado.ARCHIVO_PENDIENTES = Some f /\
    lineas f =
      lineas (Optimizado.lineaCSV 2 200 medicion2 ++ [CR; LF])
      ++ tail (lineas (Optimizado.lineaCSV 1 100 medicion1 ++ [CR; LF]
                       ++ Optimizado.lineaCSV 2 200 medicion2 ++ [CR; LF])).
Proof.
  apply (eliminarPrimeraLinea_arrastra_el_temporal estado_con_temporal
           Optimizado.ARCHIVO_PENDIENTES).
  - reflexivity.
  - discriminate.
  - vm_compute. reflexivity.
  - vm_compute. reflexivity.
  - vm_compute. reflexivity.
Defined.

(** X4.  What [guardarMedicion] appends is what [leerLineaN] reads back: on a
    pending log that ends in a line feed and holds [k] lines, after the
    append [contarLineas] gives [k + 1] and line [k] reads as the line
    written, with the carriage return of [println], cut to the 119 bytes
    the buffer holds. *)
Theorem guardarMedicion_y_leerLineaN e ms m f :
  Optimizado.sdDisponible e = true ->
  Optimizado.sd e !! Optimizado.ARCHIVO_PENDIENTES = Some f ->
  completo f ->
  Z.of_nat (length (lineas f)) < 32767 ->
  sin_lf m ->
  let k := Z.of_nat (length (lineas f)) in
  let e' := (Optimizado.guardarMedicion e ms m).2 in
  Optimizado.contarLineas e' Optimizado.ARCHIVO_PENDIENTES = k + 1 /\
  Optimizado.leerLineaN e' Optimizado.ARCHIVO_PENDIENTES k Optimizado.BUFFER_SIZE =
    Some (take 119 (Optimizado.lineaCSV (Optimizado.contadorMediciones e) ms m
                    ++ [CR])).
Proof.
  intros Hd Hf Hc Hk Hm k e'.
  set (l := Optimizado.lineaCSV (Optimizado.contadorMediciones e) ms m).
  assert (LF ∉ l ++ [CR]) as Hlf.
  { rewrite not_elem_of_app. split; [by apply lineaCSV_sin_lf|].
    by apply ausente_b. }
  assert (NUL ∉ l ++ [CR]) as Hnul.
  { rewrite not_elem_of_app. split; [apply lineaCSV_sin_nul|].
    by apply ausente_b. }
  assert (Optimizado.sdDisponible e' = true) as Hd'.
  { subst e'. unfold Optimizado.guardarMedicion. by rewrite Hd. }
  assert (Optimizado.sd e' !! Optimizado.ARCHIVO_PENDIENTES =
            Some (f ++ (l ++ [CR]) ++ [LF])) as Hf'.
  { subst e'. unfold Optimizado.guardarMedicion. rewrite Hd.
    cbn [negb snd Optimizado.sd Optimizado.con_sd].
    rewrite lookup_anexar_eq, Hf. cbn [from_option id].
    by rewrite <- (app_assoc l [CR] [LF]). }
  assert (lineas (f ++ (l ++ [CR]) ++ [LF]) = lineas f ++ [l ++ [CR]]) as Hl
    by (by apply lineas_anexar).
  split.
  - unfold Optimizado.contarLineas. rewrite Hd', Hf'. cbn [negb].
    subst k. rewrite contarLineas_bucle_exacto; rewrite ?Hl, ?length_app; simpl; lia.
  - subst k.
    rewrite (leerLineaN_lineas e' Optimizado.ARCHIVO_PENDIENTES
               (length (lineas f)) Optimizado.BUFFER_SIZE _ (l ++ [CR]) Hd' Hf').
    + change (Z.to_nat (Optimizado.BUFFER_SIZE - 1)) with 119%nat.
      by rewrite cstr_take.
    + rewrite Hl. rewrite lookup_app_r by lia.
      by rewrite Nat.sub_diag.
    + lia.
Qed.

Lemma guardarMedicion_y_leerLineaN_testigo :
  let e := estado_dos in
  let k := Z.of_nat (length (lineas
             (Optimizado.lineaCSV 1 100 medicion1 ++ [CR; LF]
              ++ Optimizado.lineaCSV 2 200 medicion2 ++ [CR; LF]))) in
  let e' := (Optimizado.guardarMedicion e 300 medicion1).2 in
  Optimizado.contarLineas e' Optimizado.ARCHIVO_PENDIENTES = k + 1 /\
  Optimizado.leerLineaN e' Optimizado.ARCHIVO_PENDIENTES k Optimizado.BUFFER_SIZE =
    Some (take 119 (Optimizado.lineaCSV (Optimizado.contadorMediciones e) 300 medicion1
                    ++ [CR])).
Proof.
  apply (guardarMedicion_y_leerLineaN estado_dos 300 medicion1).
  - reflexivity.
  - vm_compute. reflexivity.
  - vm_compute. reflexivity.
  - vm_compute. reflexivity.
  - repeat split; apply ausente_b; vm_compute; reflexivity.
Defined.

(** X5.  A boot with the card present never truncates or removes a file of the
    queue: every file other than [log.txt] that was on the card is still
    there, byte for byte.  The two logs exist afterwards, and a second
    boot changes no file other than [log.txt]. *)
Theorem reinicio_conserva_los_archivos e :
  (forall nombre f,
     nombre <> Optimizado.ARCHIVO_LOG ->
     Optimizado.sd e !! nombre = Some f ->
     Optimizado.sd (Optimizado.reinicio e) !! nombre = Some f) /\
  is_Some (Optimizado.sd (Optimizado.reinicio e) !! Optimizado.ARCHIVO_PENDIENTES) /\
  is_Some (Optimizado.sd (Optimizado.reinicio e) !! Optimizado.ARCHIVO_ENVIADOS) /\
  (forall nombre,
     nombre <> Optimizado.ARCHIVO_LOG ->
     Optimizado.sd (Optimizado.reinicio (Optimizado.reinicio e)) !! nombre =
     Optimizado.sd (Optimizado.reinicio e) !! nombre).
Proof.
  assert (forall (s : gmap string bytes) n k f,
            s !! k = Some f -> Optimizado.crear_si_falta s n !! k = Some f) as Hkeep.
  { intros s n k f H. unfold Optimizado.crear_si_falta.
    destruct (s !! n) eqn:E; [done|].
    destruct (decide (k = n)) as [->|Hne]; [congruence|].
    by rewrite lookup_anexar_ne. }
  assert (forall (s : gmap string bytes) n,
            is_Some (Optimizado.crear_si_falta s n !! n)) as Hcrea.
  { intros s n. unfold Optimizado.crear_si_falta.
    destruct (s !! n) eqn:E; [by rewrite E|].
    rewrite lookup_anexar_eq. by eexists. }
  assert (forall (s : gmap string bytes) n,
            is_Some (s !! n) -> Optimizado.crear_si_falta s n = s) as Hid.
  { intros s n [f H]. unfold Optimizado.crear_si_falta. by rewrite H. }
  assert (is_Some (Optimizado.sd (Optimizado.reinicio e)
                     !! Optimizado.ARCHIVO_PENDIENTES)) as Hp.
  { cbn [Optimizado.reinicio Optimizado.setup Optimizado.sd].
    destruct (Hcrea (Optimizado.sd e) Optimizado.ARCHIVO_PENDIENTES) as [f Hf].
    exists f. by apply Hkeep. }
  assert (is_Some (Optimizado.sd (Optimizado.reinicio e)
                     !! Optimizado.ARCHIVO_ENVIADOS)) as He by apply Hcrea.
  repeat split; try done.
  - intros nombre f _ H. cbn [Optimizado.reinicio Optimizado.setup Optimizado.sd].
    by apply Hkeep, Hkeep.
  - intros nombre _.
    unfold Optimizado.reinicio at 1. unfold Optimizado.setup at 1.
    cbn [Optimizado.sd].
    rewrite (Hid _ Optimizado.ARCHIVO_PENDIENTES Hp).
    by rewrite (Hid _ Optimizado.ARCHIVO_ENVIADOS He).
Qed.

Lemma reinicio_conserva_los_archivos_testigo :
  Optimizado.sd (Optimizado.reinicio estado_con_temporal) !! Optimizado.TEMP_TMP =
    Some (Optimizado.lineaCSV 2 200 medicion2 ++ [CR; LF]) /\
  Optimizado.sd (Optimizado.reinicio (Optimizado.reinicio estado_con_temporal))
    !! Optimizado.TEMP_TMP =
  Optimizado.sd (Optimizado.reinicio estado_con_temporal) !! Optimizado.TEMP_TMP.
Proof.
  destruct (reinicio_conserva_los_archivos estado_con_temporal)
    as (H1 & _ & _ & H4).
  split.
  - apply H1; [discriminate|]. vm_compute. reflexivity.
  - apply H4. discriminate.
Defined.

Section Inmediato.
Import Optimizado.

Lemma println_cstr s : println (cstr s) = println s.
Proof. unfold println. by rewrite cstr_cstr. Qed.

Lemma last_lookup_lineas (ls : list bytes) l :
  last ls = Some l -> ls !! (length ls - 1)%nat = Some l.
Proof. intros H. rewrite <- H. by rewrite last_lookup, Nat.sub_1_r. Qed.

End Inmediato.

(** X6.  The immediate send, when it promotes (request acknowledged, record
    saved, more than one line in the pending log): the line appended to the
    sent log is the last line of the pending log, the line removed from the
    pending log is its first one, and the only request made is the one for
    the new measurement. *)
Theorem envio_inmediato_anexa_la_ultima_y_quita_la_primera e m f l :
  Optimizado.sdDisponible e = true ->
  hd false (Optimizado.red e) = true ->
  Optimizado.sd e !! Optimizado.ARCHIVO_PENDIENTES = Some f ->
  (2 <= length (lineas f))%nat ->
  Z.of_nat (length (lineas f)) < 32768 ->
  last (lineas f) = Some l ->
  let e' := Optimizado.enviar_inmediato e true m in
  Optimizado.sd e' !! Optimizado.ARCHIVO_PENDIENTES =
    Some (default [] (Optimizado.sd e !! Optimizado.TEMP_TMP)
          ++ tras_primera_linea f) /\
  Optimizado.sd e' !! Optimizado.ARCHIVO_ENVIADOS =
    Some (default [] (Optimizado.sd e !! Optimizado.ARCHIVO_ENVIADOS)
          ++ println (take 119 l)) /\
  Optimizado.traza e' = Optimizado.traza e ++ [(m, true)].
Proof.
  intros Hd Hr Hf H2 Hmax Hl e'. subst e'.
  unfold Optimizado.enviar_inmediato, Optimizado.enviarHTTP. rewrite Hr.
  cbn [andb].
  set (e1 := Optimizado.mkEstado _ _ _ _ _ _).
  assert (Optimizado.contarLineas e1 Optimizado.ARCHIVO_PENDIENTES =
            Z.of_nat (length (lineas f))) as Hn.
  { unfold Optimizado.contarLineas. subst e1. cbn [Optimizado.sdDisponible Optimizado.sd].
    rewrite Hd, Hf. cbn [negb]. rewrite contarLineas_bucle_exacto; lia. }
  rewrite Hn.
  destruct (Z.gtb_spec (Z.of_nat (length (lineas f))) 1) as [_|?]; [|lia].
  replace (Z.of_nat (length (lineas f)) - 1)
    with (Z.of_nat (length (lineas f) - 1)) by lia.
  rewrite (leerLineaN_lineas e1 Optimizado.ARCHIVO_PENDIENTES
             (length (lineas f) - 1) Optimizado.BUFFER_SIZE f l);
    [|by subst e1|by subst e1|by apply last_lookup_lineas|lia].
  change (Z.to_nat (Optimizado.BUFFER_SIZE - 1)) with 119%nat.
  cbn [Optimizado.bufferLinea Optimizado.con_buffer].
  destruct (marcarComoEnviado_efecto
              (Optimizado.con_buffer e1 (cstr (take 119 l)))
              (cstr (take 119 l)) f) as (s' & -> & H1 & H3 & H4);
    [by subst e1|by subst e1|].
  cbn [snd Optimizado.sd Optimizado.con_sd Optimizado.traza Optimizado.con_buffer].
  rewrite H1, H4. subst e1. cbn [Optimizado.sd Optimizado.traza].
  by rewrite println_cstr.
Qed.

Lemma envio_inmediato_anexa_la_ultima_y_quita_la_primera_testigo :
  let e := estado_dos in
  let f := Optimizado.lineaCSV 1 100 medicion1 ++ [CR; LF]
           ++ Optimizado.lineaCSV 2 200 medicion2 ++ [CR; LF] in
  let l := Optimizado.lineaCSV 2 200 medicion2 ++ [CR] in
  let e' := Optimizado.enviar_inmediato e true medicion2 in
  Optimizado.sd e' !! Optimizado.ARCHIVO_PENDIENTES =
    Some (default [] (Optimizado.sd e !! Optimizado.TEMP_TMP)
          ++ tras_primera_linea f) /\
  Optimizado.sd e' !! Optimizado.ARCHIVO_ENVIADOS =
    Some (default [] (Optimizado.sd e !! Optimizado.ARCHIVO_ENVIADOS)
          ++ println (take 119 l)) /\
  Optimizado.traza e' = Optimizado.traza e ++ [(medicion2, true)].
Proof.
  apply (envio_inmediato_anexa_la_ultima_y_quita_la_primera estado_dos medicion2).
  - reflexivity.
  - reflexivity.
  - vm_compute. reflexivity.
  - vm_compute. lia.
  - vm_compute. reflexivity.
  - vm_compute. reflexivity.
Defined.

Section SinEnlace.
Import Optimizado.

Lemma sin_enlace_hd r : sin_enlace r -> hd false r = false.
Proof. destruct 1; done. Qed.

Lemma sin_enlace_tl r : sin_enlace r -> sin_enlace (tl r).
Proof. destruct 1; [constructor|done]. Qed.

Lemma eliminarPrimeraLinea_otros e nombre k :
  k <> nombre -> k <> TEMP_TMP ->
  sd (eliminarPrimeraLinea e nombre).2 !! k = sd e !! k.
Proof.
  intros H1 H2. unfold eliminarPrimeraLinea.
  destruct (sdDisponible e); [|done]. cbn [negb].
  destruct (sd e !! nombre); [|done].
  destruct (delete nombre _ !! TEMP_TMP); cbn [snd sd con_sd].
  - rewrite lookup_delete_ne by done. rewrite lookup_anexar_ne by done.
    rewrite lookup_delete_ne by done. by rewrite lookup_anexar_ne.
  - rewrite lookup_anexar_ne by done.
    rewrite lookup_delete_ne by done. by rewrite lookup_anexar_ne.
Qed.

(** With the link down a turn of the drain sends nothing to the sent log;
    whatever it asks fails. *)
Lemma iteracion_sin_enlace e a b :
  sin_enlace (red e) ->
  let e' := (iteracion e a b).2.1.1 in
  sd e' !! ARCHIVO_ENVIADOS = sd e !! ARCHIVO_ENVIADOS /\
  sin_enlace (red e') /\
  exists nuevos, traza e' = traza e ++ nuevos /\ Forall (fun p => p.2 = false) nuevos.
Proof.
  intros Hr. unfold iteracion.
  destruct (leerLineaN e ARCHIVO_PENDIENTES 0 BUFFER_SIZE) as [linea|];
    [|cbn; repeat split; try done; exists []; by rewrite app_nil_r].
  destruct (parsear linea) as [| |m].
  - cbn. repeat split; try done. exists []. by rewrite app_nil_r.
  - pose proof (eliminarPrimeraLinea_otros (con_buffer e (tras_strtok PYC linea))
                  ARCHIVO_PENDIENTES ARCHIVO_ENVIADOS) as Ho.
    pose proof (eliminarPrimeraLinea_enlace (con_buffer e (tras_strtok PYC linea))
                  ARCHIVO_PENDIENTES) as [Hred Htr].
    destruct (eliminarPrimeraLinea _ _) as [ok e2].
    cbn [fst snd] in *. rewrite Ho by done. rewrite Hred, Htr.
    repeat split; try done. exists []. by rewrite app_nil_r.
  - unfold enviarHTTP. cbn [red con_buffer]. rewrite (sin_enlace_hd _ Hr).
    cbn [fst snd sd red traza con_buffer]. repeat split; try done.
    + by apply sin_enlace_tl.
    + exists [(m, false)]. split; [done|]. by repeat constructor.
Qed.

Lemma reintentar_bucle_sin_enlace v p e a b :
  sin_enlace (red e) ->
  let e' := (reintentar_bucle v p e a b).1.1 in
  sd e' !! ARCHIVO_ENVIADOS = sd e !! ARCHIVO_ENVIADOS /\
  sin_enlace (red e') /\
  exists nuevos, traza e' = traza e ++ nuevos /\ Forall (fun p => p.2 = false) nuevos.
Proof.
  revert e a b; induction v as [|v IH]; intros e a b Hr;
    [cbn; repeat split; try done; exists []; by rewrite app_nil_r|].
  cbn [reintentar_bucle].
  destruct ((b <? MAX_REINTENTOS) && (b <? p));
    [|cbn; repeat split; try done; exists []; by rewrite app_nil_r].
  pose proof (iteracion_sin_enlace e a b Hr) as (H1 & H2 & nu & H3 & H4).
  destruct (iteracion e a b) as [[] [[e1 a1] b1]]; cbn [fst snd] in *.
  - destruct (IH e1 a1 b1 H2) as (G1 & G2 & nu' & G3 & G4).
    cbn zeta in *. rewrite G1, H1, G3, H3. repeat split; try done.
    exists (nu ++ nu'). rewrite app_assoc. split; [done|]. by apply Forall_app.
  - repeat split; try done. by exists nu.
Qed.

Lemma reintentarPendientes_sin_enlace e :
  sin_enlace (red e) ->
  let e' := (reintentarPendientes e).1.1 in
  sd e' !! ARCHIVO_ENVIADOS = sd e !! ARCHIVO_ENVIADOS /\
  sin_enlace (red e') /\
  exists nuevos, traza e' = traza e ++ nuevos /\ Forall (fun p => p.2 = false) nuevos.
Proof.
  intros Hr. unfold reintentarPendientes.
  destruct (negb (sdDisponible e));
    [cbn; repeat split; try done; exists []; by rewrite app_nil_r|].
  destruct (contarLineas e ARCHIVO_PENDIENTES =? 0);
    [cbn; repeat split; try done; exists []; by rewrite app_nil_r|].
  by apply reintentar_bucle_sin_enlace.
Qed.

End SinEnlace.

(** X7.  A cycle with the link down and the card available: the record of the
    cycle is saved as the last line of the pending log, the sent log is not
    touched, and every request of the cycle failed, the last one being the
    one for the new measurement. *)
Theorem ciclo_sin_enlace_guarda_el_registro e ms m :
  Optimizado.sdDisponible e = true ->
  sin_enlace (Optimizado.red e) ->
  let e' := Optimizado.loop e ms m in
  (exists previo,
     Optimizado.sd e' !! Optimizado.ARCHIVO_PENDIENTES =
       Some (previo ++ Optimizado.lineaCSV
                         (uint32 (Optimizado.contadorMediciones e + 1)) ms m
                    ++ [CR; LF])) /\
  Optimizado.sd e' !! Optimizado.ARCHIVO_ENVIADOS =
    Optimizado.sd e !! Optimizado.ARCHIVO_ENVIADOS /\
  exists nuevos,
    Optimizado.traza e' = Optimizado.traza e ++ nuevos ++ [(m, false)] /\
    Forall (fun p => p.2 = false) nuevos.
Proof.
  intros Hd Hr e'. subst e'. unfold Optimizado.loop.
  pose proof (reintentarPendientes_sin_enlace e Hr) as (H1 & H2 & nu & H3 & H4).
  pose proof (reintentarPendientes_ram e) as [R1 R2].
  destruct (Optimizado.reintentarPendientes e) as [[e1 a] b]. cbn [fst snd] in *.
  unfold Optimizado.guardarMedicion.
  cbn [Optimizado.sdDisponible Optimizado.con_contador].
  rewrite R1, Hd. cbn [negb].
  unfold Optimizado.enviar_inmediato, Optimizado.enviarHTTP.
  cbn [Optimizado.red Optimizado.con_sd Optimizado.con_contador].
  rewrite (sin_enlace_hd _ H2). cbn [andb].
  cbn [Optimizado.sd Optimizado.traza Optimizado.con_sd Optimizado.con_contador
       Optimizado.contadorMediciones].
  rewrite lookup_anexar_eq, lookup_anexar_ne by done.
  rewrite R2, H1, H3. repeat split; [by eexists|].
  exists nu. by rewrite <- app_assoc.
Qed.

Lemma ciclo_sin_enlace_guarda_el_registro_testigo :
  let e := Optimizado.con_sd (Optimizado.setup true ∅ [] []) (Optimizado.sd estado_dos) in
  let e' := Optimizado.loop e 300 medicion1 in
  (exists previo,
     Optimizado.sd e' !! Optimizado.ARCHIVO_PENDIENTES =
       Some (previo ++ Optimizado.lineaCSV
                         (uint32 (Optimizado.contadorMediciones e + 1)) 300 medicion1
                    ++ [CR; LF])) /\
  Optimizado.sd e' !! Optimizado.ARCHIVO_ENVIADOS =
    Optimizado.sd e !! Optimizado.ARCHIVO_ENVIADOS /\
  exists nuevos,
    Optimizado.traza e' = Optimizado.traza e ++ nuevos ++ [(medicion1, false)] /\
    Forall (fun p => p.2 = false) nuevos.
Proof.
  apply (ciclo_sin_enlace_guarda_el_registro
           (Optimizado.con_sd (Optimizado.setup true ∅ [] []) (Optimizado.sd estado_dos))
           300 medicion1).
  - reflexivity.
  - constructor.
Defined.

Section DrenajeV2.
Import Optimizado.

Lemma archivo_de_app xs ys : archivo_de (xs ++ ys) = archivo_de xs ++ archivo_de ys.
Proof.
  induction xs as [|x xs IH]; [done|]. cbn [app archivo_de].
  by rewrite IH, <- !app_assoc.
Qed.

Lemma length_lineas_archivo_limpias ls :
  Forall limpia ls -> length (lineas (archivo_de ls)) = length ls.
Proof.
  induction 1 as [|l ls Hl Hls IH]; [done|].
  cbn [archivo_de]. 
  replace (l ++ [CR; LF] ++ archivo_de ls) with ((l ++ [CR]) ++ LF :: archivo_de ls)
    by (by rewrite <- app_assoc).
  unfold lineas. rewrite lineas_desde_linea by (by apply limpia_sin_lf_cr).
  cbn [length]. by rewrite <- IH.
Qed.

Lemma reintentar_bucle_en_orden v p e (a b : Z) ls :
  b + Z.of_nat v = MAX_REINTENTOS ->
  Z.of_nat (length ls) = p - b ->
  sdDisponible e = true -> Forall legible ls ->
  sd e !! ARCHIVO_PENDIENTES = Some (archivo_de ls) ->
  sd e !! TEMP_TMP = None ->
  exists k n : nat,
    let r := reintentar_bucle v p e a b in
    (k <= n <= k + 1)%nat /\ (n <= v)%nat /\ (n <= length ls)%nat /\
    (n = 0%nat -> v = 0%nat \/ ls = []) /\
    r.1.2 = a + Z.of_nat k /\ r.2 = b + Z.of_nat k /\
    sd r.1.1 !! ARCHIVO_PENDIENTES = Some (archivo_de (drop k ls)) /\
    sd r.1.1 !! TEMP_TMP = None /\
    default [] (sd r.1.1 !! ARCHIVO_ENVIADOS) =
      default [] (sd e !! ARCHIVO_ENVIADOS)
      ++ archivo_de (map (fun l => l ++ [CR]) (take k ls)) /\
    traza r.1.1 =
      traza e ++
      zip (map campos_de (take n ls))
          (replicate k true ++ replicate (n - k) false).
Proof.
  revert e a b ls; induction v as [|v IH]; intros e a b ls Hv Hp Hd Hls Hf Ht.
  { exists 0%nat, 0%nat. cbn. rewrite drop_0, !app_nil_r, !Z.add_0_r.
    repeat split; try done; try lia; by left. }
  cbn [reintentar_bucle].
  destruct (Z.ltb_spec b MAX_REINTENTOS); [|lia]. cbn [andb].
  destruct (Z.ltb_spec b p).
  2:{ destruct ls; [|simpl in Hp; lia].
      exists 0%nat, 0%nat. cbn. rewrite !app_nil_r, !Z.add_0_r.
      repeat split; try done; try lia; by right. }
  destruct ls as [|l ls]; [simpl in Hp; lia|].
  apply Forall_cons in Hls as [(Hl1 & Hl2 & Hl3) Hls].
  cbn [archivo_de] in Hf.
  destruct (hd false (red e)) eqn:Hr.
  - destruct (iteracion_enviada e l (archivo_de ls) a b (campos_de l))
      as (e1 & -> & G1 & G2 & G3 & G4 & G5 & G6); try done.
    rewrite Ht in G2. cbn [from_option id app] in G2.
    destruct (IH e1 (a + 1) (b + 1) ls)
      as (k & n & Hkn & Hnv & Hnl & _ & Ha & Hb & Hp' & Ht' & He' & Htr');
      try done; [lia|simpl in Hp; lia|].
    exists (S k), (S n). cbn zeta in *.
    repeat split; try done; try (simpl; lia).
    + rewrite He', G4. cbn [from_option id take map archivo_de].
      by rewrite <- !app_assoc.
    + rewrite Htr', G6. rewrite <- app_assoc.
      replace (S n - S k)%nat with (n - k)%nat by lia. done.
  - destruct (iteracion_fallida e l (archivo_de ls) a b (campos_de l))
      as (e1 & -> & G1 & G2 & G3); try done.
    exists 0%nat, 1%nat. cbn [fst snd take drop map archivo_de replicate].
    rewrite !app_nil_r, !Z.add_0_r, G1, G3.
    repeat split; try done; try (simpl; lia).
Qed.

End DrenajeV2.

(** X8.  The drain of the v2.0 sketch on a pending log made of lines it can
    read and decode, oldest first, with no [temp.tmp] left over: its [n]
    requests (at most three) carry the values of the first [n] lines in
    order; the [k] acknowledged ones are promoted, so that the pending log
    is left with the lines from the [k]-th on and the sent log gains the
    first [k], in order, each with the carriage return that [leerLineaN]
    leaves at its end; the first failure ends the drain; the value returned
    and the number of attempts are both [k]. *)
Theorem drenaje_v2_en_orden_de_llegada e ls :
  Optimizado.sdDisponible e = true ->
  Forall legible ls ->
  Z.of_nat (length ls) < 32768 ->
  Optimizado.sd e !! Optimizado.ARCHIVO_PENDIENTES = Some (archivo_de ls) ->
  Optimizado.sd e !! Optimizado.TEMP_TMP = None ->
  exists k n : nat,
    let r := Optimizado.reintentarPendientes e in
    (k <= n <= k + 1)%nat /\ (n <= 3)%nat /\ (n <= length ls)%nat /\
    (n = 0%nat -> ls = []) /\
    r.1.2 = Z.of_nat k /\ r.2 = Z.of_nat k /\
    Optimizado.sd r.1.1 !! Optimizado.ARCHIVO_PENDIENTES =
      Some (archivo_de (drop k ls)) /\
    default [] (Optimizado.sd r.1.1 !! Optimizado.ARCHIVO_ENVIADOS) =
      default [] (Optimizado.sd e !! Optimizado.ARCHIVO_ENVIADOS)
      ++ archivo_de (map (fun l => l ++ [CR]) (take k ls)) /\
    Optimizado.traza r.1.1 =
      Optimizado.traza e ++
      zip (map campos_de (take n ls))
          (replicate k true ++ replicate (n - k) false).
Proof.
  intros Hd Hls Hlen Hp Ht. unfold Optimizado.reintentarPendientes.
  unfold Optimizado.contarLineas. rewrite Hd, Hp. cbn [negb].
  assert (Forall limpia ls) as Hlim
    by (eapply Forall_impl; [exact Hls|]; by intros l (H & _)).
  rewrite contarLineas_bucle_exacto
    by (rewrite ?length_lineas_archivo_limpias by done; lia).
  rewrite length_lineas_archivo_limpias by done.
  destruct (Z.eqb_spec (0 + Z.of_nat (length ls)) 0) as [E|E].
  - destruct ls; [|simpl in E; lia].
    exists 0%nat, 0%nat. cbn. rewrite !app_nil_r.
    repeat split; try done; try lia.
  - destruct (reintentar_bucle_en_orden (Z.to_nat Optimizado.MAX_REINTENTOS)
                (0 + Z.of_nat (length ls)) e 0 0 ls)
      as (k & n & H1 & H2 & H3 & H4 & H5 & H6 & H7 & H8 & H9 & H10);
      try done; [lia|].
    exists k, n. cbn zeta in *.
    assert (Z.to_nat Optimizado.MAX_REINTENTOS = 3%nat) as E3 by done.
    rewrite E3 in H2, H4.
    repeat split; try done; try lia.
    intros ->. destruct (H4 eq_refl) as [Hv|Hv]; [discriminate Hv|done].
Qed.

Lemma legible_b_ok l : legible_b l = true -> legible l.
Proof.
  unfold legible_b, legible, campos_de. intros H.
  apply andb_prop in H as [H H3]. apply andb_prop in H as [H1 H2].
  split; [by apply limpia_b_ok|]. split; [by apply Nat.leb_le|].
  by destruct (Optimizado.parsear (l ++ [CR])).
Qed.

Lemma drenaje_v2_en_orden_de_llegada_testigo :
  let e := estado_dos in
  let ls := [Optimizado.lineaCSV 1 100 medicion1; Optimizado.lineaCSV 2 200 medicion2] in
  exists k n : nat,
    let r := Optimizado.reintentarPendientes e in
    (k <= n <= k + 1)%nat /\ (n <= 3)%nat /\ (n <= length ls)%nat /\
    (n = 0%nat -> ls = []) /\
    r.1.2 = Z.of_nat k /\ r.2 = Z.of_nat k /\
    Optimizado.sd r.1.1 !! Optimizado.ARCHIVO_PENDIENTES =
      Some (archivo_de (drop k ls)) /\
    default [] (Optimizado.sd r.1.1 !! Optimizado.ARCHIVO_ENVIADOS) =
      default [] (Optimizado.sd e !! Optimizado.ARCHIVO_ENVIADOS)
      ++ archivo_de (map (fun l => l ++ [CR]) (take k ls)) /\
    Optimizado.traza r.1.1 =
      Optimizado.traza e ++
      zip (map campos_de (take n ls))
          (replicate k true ++ replicate (n - k) false).
Proof.
  apply (drenaje_v2_en_orden_de_llegada estado_dos
           [Optimizado.lineaCSV 1 100 medicion1; Optimizado.lineaCSV 2 200 medicion2]).
  - reflexivity.
  - repeat constructor; apply legible_b_ok; vm_compute; reflexivity.
  - vm_compute. reflexivity.
  - vm_compute. reflexivity.
  - vm_compute. reflexivity.
Defined.

Section Vueltas.

Lemma iteracion_intentos e a b :
  (Optimizado.iteracion e a b).1 = true ->
  (Optimizado.iteracion e a b).2.2 = b + 1.
Proof.
  unfold Optimizado.iteracion.
  destruct (Optimizado.leerLineaN e _ 0 _) as [linea|]; [|done].
  destruct (Optimizado.parsear linea) as [| |m]; [done| |].
  - by destruct (Optimizado.eliminarPrimeraLinea _ _).
  - destruct (Optimizado.enviarHTTP _ m) as [[] e2]; [|done].
    by destruct (Optimizado.marcarComoEnviado _ _).
Qed.

Lemma reintentar_bucle_mas v p e a b :
  Optimizado.MAX_REINTENTOS - b <= Z.of_nat v ->
  Optimizado.reintentar_bucle (S v) p e a b = Optimizado.reintentar_bucle v p e a b.
Proof.
  revert e a b; induction v as [|v IH]; intros e a b Hv.
  - cbn [Optimizado.reintentar_bucle].
    destruct (Z.ltb_spec b Optimizado.MAX_REINTENTOS); [lia|done].
  - change (Optimizado.reintentar_bucle (S (S v)) p e a b) with
      (if (b <? Optimizado.MAX_REINTENTOS) && (b <? p) then
         match Optimizado.iteracion e a b with
         | (true, (e', a', b')) => Optimizado.reintentar_bucle (S v) p e' a' b'
         | (false, fin) => fin
         end
       else (e, a, b)).
    change (Optimizado.reintentar_bucle (S v) p e a b) with
      (if (b <? Optimizado.MAX_REINTENTOS) && (b <? p) then
         match Optimizado.iteracion e a b with
         | (true, (e', a', b')) => Optimizado.reintentar_bucle v p e' a' b'
         | (false, fin) => fin
         end
       else (e, a, b)).
    destruct ((b <? Optimizado.MAX_REINTENTOS) && (b <? p)); [|done].
    pose proof (iteracion_intentos e a b) as Hi.
    destruct (Optimizado.iteracion e a b) as [[] [[e1 a1] b1]]; [|done].
    cbn [fst snd] in Hi. rewrite (Hi eq_refl). apply IH. lia.
Qed.

Lemma modular_bucle_mas {flotante} v (e : Modular.Estado flotante) b :
  Modular.MAX_REINTENTOS - b <= Z.of_nat v ->
  Modular.reintentar_bucle (S v) e b = Modular.reintentar_bucle v e b.
Proof.
  revert e b; induction v as [|v IH]; intros e b Hv.
  - cbn [Modular.reintentar_bucle].
    destruct (Z.ltb_spec b Modular.MAX_REINTENTOS); [lia|done].
  - change (Modular.reintentar_bucle (S (S v)) e b) with
      (if b <? Modular.MAX_REINTENTOS then
         match Modular.leerPrimeraLinea e Modular.ARCHIVO_PENDIENTES with
         | None => (e, b)
         | Some linea =>
             let (exito, e1) :=
               Modular.enviarHTTP e (Modular.DeLinea (Modular.tokens 7 linea)) in
             if exito then
               let (_, e2) := Modular.moverPrimeraLineaAEnviados e1 in
               Modular.reintentar_bucle (S v) e2 (b + 1)
             else (e1, b)
         end
       else (e, b)).
    change (Modular.reintentar_bucle (S v) e b) with
      (if b <? Modular.MAX_REINTENTOS then
         match Modular.leerPrimeraLinea e Modular.ARCHIVO_PENDIENTES with
         | None => (e, b)
         | Some linea =>
             let (exito, e1) :=
               Modular.enviarHTTP e (Modular.DeLinea (Modular.tokens 7 linea)) in
             if exito then
               let (_, e2) := Modular.moverPrimeraLineaAEnviados e1 in
               Modular.reintentar_bucle v e2 (b + 1)
             else (e1, b)
         end
       else (e, b)).
    destruct (b <? Modular.MAX_REINTENTOS); [|done].
    destruct (Modular.leerPrimeraLinea e _) as [linea|]; [|done].
    destruct (Modular.enviarHTTP e _) as [[] e1]; [|done].
    destruct (Modular.moverPrimeraLineaAEnviados e1) as [ok e2].
    apply IH. lia.
Qed.

End Vueltas.

(** X9.  The [while] of the two drains ends within [MAX_REINTENTOS] turns: every
    turn that does not leave the loop adds one to the attempt counter.  So
    the drains computed with more turns allowed are the drains. *)
Theorem los_drenajes_terminan_en_tres_vueltas (mas : nat) :
  (forall p e,
     Optimizado.reintentar_bucle (Z.to_nat Optimizado.MAX_REINTENTOS + mas) p e 0 0
     = Optimizado.reintentar_bucle (Z.to_nat Optimizado.MAX_REINTENTOS) p e 0 0) /\
  (forall flotante (e : Modular.Estado flotante),
     Modular.reintentar_bucle (Z.to_nat Modular.MAX_REINTENTOS + mas) e 0
     = Modular.reintentar_bucle (Z.to_nat Modular.MAX_REINTENTOS) e 0).
Proof.
  change (Z.to_nat Optimizado.MAX_REINTENTOS) with 3%nat.
  change (Z.to_nat Modular.MAX_REINTENTOS) with 3%nat.
  induction mas as [|mas [IH1 IH2]]; [done|]. split.
  - intros p e. rewrite <- IH1.
    replace (3 + S mas)%nat with (S (3 + mas)) by lia.
    apply reintentar_bucle_mas. unfold Optimizado.MAX_REINTENTOS. lia.
  - intros flotante e. rewrite <- IH2.
    replace (3 + S mas)%nat with (S (3 + mas)) by lia.
    apply modular_bucle_mas. unfold Modular.MAX_REINTENTOS. lia.
Qed.

(** X10.  The immediate send of the v3.0 sketch promotes the head of the queue,
    whatever was transmitted: after the new line is appended and its
    request acknowledged, the first line of the pending log moves to the
    sent log.  That line is the new record only when the pending log was
    empty; otherwise the oldest record is promoted and the new one stays
    queued. *)
Theorem envio_inmediato_v3_promueve_la_cabeza
  (flotante : Type) (dtostrf : flotante -> Z -> Z -> bytes)
  (e : Modular.Estado flotante) datos ls l0 resto :
  Modular.montada e = true ->
  hd false (Modular.red e) = true ->
  Modular.sd e !! Modular.ARCHIVO_PENDIENTES = Some (archivo_de ls) ->
  Modular.sd e !! Modular.TEMP_TMP = None ->
  ls ++ [cstr (Modular.generarLineaCSV dtostrf datos)] = l0 :: resto ->
  registro l0 ->
  let e' := Modular.guardar_y_enviar dtostrf e datos in
  Modular.sd e' !! Modular.ARCHIVO_PENDIENTES = Some (archivo_de resto) /\
  Modular.sd e' !! Modular.ARCHIVO_ENVIADOS =
    Some (default [] (Modular.sd e !! Modular.ARCHIVO_ENVIADOS) ++ l0 ++ [CR; LF]) /\
  Modular.traza e' = Modular.traza e ++ [(Modular.DeMedicion datos, true)].
Proof.
  intros Hm Hr Hp Ht Hq Hl0 e'. subst e'.
  unfold Modular.guardar_y_enviar, Modular.guardarEnSD. rewrite Hm. cbn [negb].
  unfold Modular.enviarHTTP. cbn [Modular.red Modular.con_sd]. rewrite Hr.
  set (e1 := Modular.mkEstado _ _ _ _).
  destruct (moverPrimeraLineaAEnviados_registro e1 l0 resto)
    as (s' & -> & H1 & H2 & H3); try done.
  - subst e1. cbn [Modular.sd Modular.con_sd]. rewrite lookup_anexar_eq, Hp.
    cbn [from_option id]. rewrite <- Hq, archivo_de_app. f_equal.
  - subst e1. cbn [Modular.sd Modular.con_sd]. by rewrite lookup_anexar_ne.
  - cbn [snd Modular.sd Modular.con_sd Modular.traza]. rewrite H1, H3.
    subst e1. cbn [Modular.sd Modular.con_sd Modular.traza].
    by rewrite lookup_anexar_ne.
Qed.

Lemma envio_inmediato_v3_promueve_la_cabeza_testigo :
  let dtostrf := fun (x : Z) (_ _ : Z) => decimal x in
  let datos := Modular.mkDatos 21 1413 8 87 3900 18 300 in
  let e := estado_modular in
  let ls := [texto "1234;25.00; 100.0; 8.00;90;4000;20";
             texto "61234;25.10; 100.2; 7.90;90;3990;21"] in
  let e' := Modular.guardar_y_enviar dtostrf e datos in
  Modular.sd e' !! Modular.ARCHIVO_PENDIENTES =
    Some (archivo_de [texto "61234;25.10; 100.2; 7.90;90;3990;21";
                      cstr (Modular.generarLineaCSV dtostrf datos)]) /\
  Modular.sd e' !! Modular.ARCHIVO_ENVIADOS =
    Some (default [] (Modular.sd e !! Modular.ARCHIVO_ENVIADOS)
          ++ texto "1234;25.00; 100.0; 8.00;90;4000;20" ++ [CR; LF]) /\
  Modular.traza e' = Modular.traza e ++ [(Modular.DeMedicion datos, true)].
Proof.
  apply (envio_inmediato_v3_promueve_la_cabeza Z (fun (x : Z) (_ _ : Z) => decimal x)
           estado_modular (Modular.mkDatos 21 1413 8 87 3900 18 300)
           [texto "1234;25.00; 100.0; 8.00;90;4000;20";
            texto "61234;25.10; 100.2; 7.90;90;3990;21"]).
  - reflexivity.
  - reflexivity.
  - vm_compute. reflexivity.
  - vm_compute. reflexivity.
  - reflexivity.
  - apply registro_b_ok. vm_compute. reflexivity.
Defined.

(** C8, as the code has it.

    In the v2.0 sketch the immediate send touches [pendient.csv],
    [enviado.csv] and [temp.tmp] exactly when the request is acknowledged,
    the record was saved and the pending log has more than one line (the
    header counts as one): the line appended to the sent log is then the
    last line of the pending log, and the pending log is rewritten through
    [temp.tmp]; in every other case the three files are what they were.

    When the card is mounted, the pending log is complete and has fewer
    than 32767 lines, and the new record has values without line feed and
    a line of at most 118 bytes, the last line is the record just saved:
    after the save and the immediate send the record is appended to the
    sent log exactly when the request is acknowledged and the pending log
    held at least one line before the save.

    The v3.0 sketch makes no test of the count: with the card mounted, no
    [temp.tmp] left over and a well-formed oldest line, an acknowledged
    request moves the oldest line of the pending log to the sent log. *)
Theorem C8_envio_inmediato_promueve_con_mas_de_una_linea :
  (forall e guardado m,
     let numLineas := Optimizado.contarLineas e Optimizado.ARCHIVO_PENDIENTES in
     let e' := Optimizado.enviar_inmediato e guardado m in
     if hd false (Optimizado.red e) && guardado && (numLineas >? 1)
     then exists f ultima,
            Optimizado.sd e !! Optimizado.ARCHIVO_PENDIENTES = Some f /\
            Optimizado.leerLineaN e Optimizado.ARCHIVO_PENDIENTES (numLineas - 1)
              Optimizado.BUFFER_SIZE = Some ultima /\
            Optimizado.sd e' !! Optimizado.ARCHIVO_ENVIADOS =
              Some (default [] (Optimizado.sd e !! Optimizado.ARCHIVO_ENVIADOS)
                    ++ ultima ++ [CR; LF]) /\
            Optimizado.sd e' !! Optimizado.ARCHIVO_PENDIENTES =
              Some (default [] (Optimizado.sd e !! Optimizado.TEMP_TMP)
                    ++ tras_primera_linea f)
     else Optimizado.sd e' !! Optimizado.ARCHIVO_PENDIENTES =
            Optimizado.sd e !! Optimizado.ARCHIVO_PENDIENTES /\
          Optimizado.sd e' !! Optimizado.ARCHIVO_ENVIADOS =
            Optimizado.sd e !! Optimizado.ARCHIVO_ENVIADOS /\
          Optimizado.sd e' !! Optimizado.TEMP_TMP =
            Optimizado.sd e !! Optimizado.TEMP_TMP) /\
  (forall e ms m f,
     Optimizado.sdDisponible e = true ->
     Optimizado.sd e !! Optimizado.ARCHIVO_PENDIENTES = Some f ->
     completo f ->
     Z.of_nat (length (lineas f)) < 32767 ->
     sin_lf m ->
     (length (Optimizado.lineaCSV (Optimizado.contadorMediciones e) ms m) <= 118)%nat ->
     let r := Optimizado.lineaCSV (Optimizado.contadorMediciones e) ms m in
     let g := Optimizado.guardarMedicion e ms m in
     let e' := Optimizado.enviar_inmediato g.2 g.1 m in
     g.1 = true /\
     Optimizado.contarLineas g.2 Optimizado.ARCHIVO_PENDIENTES =
       Z.of_nat (length (lineas f)) + 1 /\
     Optimizado.sd e' !! Optimizado.ARCHIVO_ENVIADOS =
       (if hd false (Optimizado.red e) && (0 <? Z.of_nat (length (lineas f)))
        then Some (default [] (Optimizado.sd e !! Optimizado.ARCHIVO_ENVIADOS)
                   ++ r ++ [CR; CR; LF])
        else Optimizado.sd e !! Optimizado.ARCHIVO_ENVIADOS)) /\
  (forall (flotante : Type) (dtostrf : flotante -> Z -> Z -> bytes)
          (e : Modular.Estado flotante) datos ls l0 resto,
     Modular.montada e = true ->
     hd false (Modular.red e) = true ->
     Modular.sd e !! Modular.ARCHIVO_PENDIENTES = Some (archivo_de ls) ->
     Modular.sd e !! Modular.TEMP_TMP = None ->
     ls ++ [cstr (Modular.generarLineaCSV dtostrf datos)] = l0 :: resto ->
     registro l0 ->
     let e' := Modular.guardar_y_enviar dtostrf e datos in
     Modular.sd e' !! Modular.ARCHIVO_PENDIENTES = Some (archivo_de resto) /\
     Modular.sd e' !! Modular.ARCHIVO_ENVIADOS =
       Some (default [] (Modular.sd e !! Modular.ARCHIVO_ENVIADOS)
             ++ l0 ++ [CR; LF])).
Proof.
  split; [|split].
  - (* the guard of the v2.0 sketch *)
    intros e guardado m numLineas e'. subst e'.
    unfold Optimizado.enviar_inmediato. cbn [Optimizado.enviarHTTP].
    destruct (hd false (Optimizado.red e) && guardado) eqn:Ha; cbn [andb]; [|done].
    set (e1 := Optimizado.mkEstado _ _ _ _ _ _).
    assert (Optimizado.contarLineas e1 Optimizado.ARCHIVO_PENDIENTES = numLineas)
      as -> by done.
    destruct (numLineas >? 1) eqn:Hn; [|done].
    assert (Optimizado.leerLineaN e1 Optimizado.ARCHIVO_PENDIENTES (numLineas - 1)
              Optimizado.BUFFER_SIZE =
            Optimizado.leerLineaN e Optimizado.ARCHIVO_PENDIENTES (numLineas - 1)
              Optimizado.BUFFER_SIZE) as -> by done.
    unfold numLineas, Optimizado.contarLineas, Optimizado.leerLineaN in *.
    destruct (Optimizado.sdDisponible e) eqn:Hd; cbn [negb] in *; [|done].
    destruct (Optimizado.sd e !! Optimizado.ARCHIVO_PENDIENTES) as [f|] eqn:Hp; [|done].
    pose proof (contarLineas_bucle_cota f 0 ltac:(lia)) as Hc.
    pose proof (contarLineas_bucle_max f 0 ltac:(lia)) as Hmax.
    destruct (leerLineaN_bucle_existe f (Optimizado.contarLineas_bucle f 0 - 1) 0
                Optimizado.BUFFER_SIZE) as [ultima Hu]; [lia..|].
    rewrite Hu. exists f, ultima. split; [done|]. split; [done|].
    cbn [Optimizado.bufferLinea Optimizado.con_buffer].
    destruct (marcarComoEnviado_efecto (Optimizado.con_buffer e1 ultima) ultima f)
      as (s' & -> & H1 & H2 & H3); [by subst e1|by subst e1|].
    cbn [snd Optimizado.sd Optimizado.con_sd]. rewrite H1, H3.
    subst e1. cbn [Optimizado.sd Optimizado.con_buffer].
    split; [|done]. unfold println.
    by rewrite (leerLineaN_bucle_cstr _ _ _ _ _ _ Hu).
  - (* the record just saved *)
    intros e ms m f Hd Hf Hc Hmax Hm Hlen r g e'.
    set (e1 := Optimizado.con_sd e
                 (anexar (Optimizado.sd e) Optimizado.ARCHIVO_PENDIENTES
                         (r ++ [CR; LF]))).
    assert (g = (true, e1)) as Eg.
    { subst g r e1. unfold Optimizado.guardarMedicion. by rewrite Hd. }
    assert (Optimizado.sdDisponible e1 = true) as Hd1 by done.
    assert (Optimizado.red e1 = Optimizado.red e) as Hr1 by done.
    assert (Optimizado.sd e1 !! Optimizado.ARCHIVO_PENDIENTES =
              Some (f ++ (r ++ [CR]) ++ [LF])) as Hf1.
    { subst e1. cbn [Optimizado.sd Optimizado.con_sd].
      rewrite lookup_anexar_eq, Hf. cbn [from_option id].
      by rewrite <- !app_assoc. }
    assert (Optimizado.sd e1 !! Optimizado.ARCHIVO_ENVIADOS =
              Optimizado.sd e !! Optimizado.ARCHIVO_ENVIADOS) as He1.
    { subst e1. cbn [Optimizado.sd Optimizado.con_sd]. by rewrite lookup_anexar_ne. }
    clearbody e1.
    assert (LF ∉ r ++ [CR]) as Hlf.
    { apply not_elem_of_app. split; [by apply lineaCSV_sin_lf|by apply ausente_b]. }
    assert (lineas (f ++ (r ++ [CR]) ++ [LF]) = lineas f ++ [r ++ [CR]]) as Hls
      by (by apply lineas_anexar).
    assert (Optimizado.contarLineas e1 Optimizado.ARCHIVO_PENDIENTES =
              Z.of_nat (length (lineas f)) + 1) as Hn.
    { unfold Optimizado.contarLineas. rewrite Hd1, Hf1. cbn [negb].
      rewrite contarLineas_bucle_exacto;
        rewrite ?Hls, ?length_app; cbn [length]; lia. }
    subst e'. rewrite Eg. cbn [fst snd]. split; [done|]. split; [done|].
    unfold Optimizado.enviar_inmediato, Optimizado.enviarHTTP. rewrite Hr1.
    destruct (hd false (Optimizado.red e)) eqn:Hr; cbn [andb]; [|exact He1].
    set (e2 := Optimizado.mkEstado _ _ _ _ _ _).
    assert (Optimizado.sdDisponible e2 = true) as Hd2 by done.
    assert (Optimizado.sd e2 = Optimizado.sd e1) as Hs2 by done.
    assert (Optimizado.contarLineas e2 Optimizado.ARCHIVO_PENDIENTES =
              Z.of_nat (length (lineas f)) + 1) as -> by (by rewrite <- Hn).
    clearbody e2.
    destruct (Z.ltb_spec 0 (Z.of_nat (length (lineas f)))) as [Hpos|Hpos].
    2:{ destruct (Z.gtb_spec (Z.of_nat (length (lineas f)) + 1) 1); [lia|].
        by rewrite Hs2. }
    destruct (Z.gtb_spec (Z.of_nat (length (lineas f)) + 1) 1); [|lia].
    replace (Z.of_nat (length (lineas f)) + 1 - 1)
      with (Z.of_nat (length (lineas f))) by lia.
    rewrite (leerLineaN_lineas e2 Optimizado.ARCHIVO_PENDIENTES
               (length (lineas f)) Optimizado.BUFFER_SIZE
               (f ++ (r ++ [CR]) ++ [LF]) (r ++ [CR]));
      [|done|by rewrite Hs2|
       rewrite Hls; by rewrite lookup_app_r, Nat.sub_diag by lia|lia].
    change (Z.to_nat (Optimizado.BUFFER_SIZE - 1)) with 119%nat.
    rewrite take_ge by (rewrite length_app; cbn [length]; subst r; lia).
    assert (cstr (r ++ [CR]) = r ++ [CR]) as Ecs.
    { apply cstr_id. apply not_elem_of_app.
      split; [apply lineaCSV_sin_nul|by apply ausente_b]. }
    rewrite Ecs. cbn [Optimizado.bufferLinea Optimizado.con_buffer].
    rewrite marcarComoEnviado_enviados by done.
    cbn [Optimizado.sd Optimizado.con_buffer]. rewrite Hs2, He1.
    unfold println. rewrite Ecs. by rewrite <- !app_assoc.
  - (* the v3.0 sketch *)
    intros flotante dtostrf e datos ls l0 resto Hm Hr Hp Ht Hq Hl0 e'. subst e'.
    unfold Modular.guardar_y_enviar, Modular.guardarEnSD. rewrite Hm. cbn [negb].
    unfold Modular.enviarHTTP. cbn [Modular.red Modular.con_sd]. rewrite Hr.
    set (e1 := Modular.mkEstado _ _ _ _).
    destruct (moverPrimeraLineaAEnviados_registro e1 l0 resto)
      as (s' & -> & H1 & H2 & H3); try done.
    + subst e1. cbn [Modular.sd Modular.con_sd]. rewrite lookup_anexar_eq, Hp.
      cbn [from_option id]. rewrite <- Hq, archivo_de_app. f_equal.
    + subst e1. cbn [Modular.sd Modular.con_sd]. by rewrite lookup_anexar_ne.
    + cbn [snd Modular.sd Modular.con_sd]. rewrite H1, H3.
      subst e1. cbn [Modular.sd Modular.con_sd].
      by rewrite lookup_anexar_ne.
Qed.

Lemma C8_envio_inmediato_promueve_con_mas_de_una_linea_testigo :
  (let e := estado_dos in
   let r := Optimizado.lineaCSV 2 300 medicion1 in
   let g := Optimizado.guardarMedicion e 300 medicion1 in
   let e' := Optimizado.enviar_inmediato g.2 g.1 medicion1 in
   g.1 = true /\
   Optimizado.contarLineas g.2 Optimizado.ARCHIVO_PENDIENTES = 3 /\
   Optimizado.sd e' !! Optimizado.ARCHIVO_ENVIADOS =
     Some (println Optimizado.ENCABEZADO ++ r ++ [CR; CR; LF])) /\
  (let dtostrf := fun (x : Z) (_ _ : Z) => decimal x in
   let datos := Modular.mkDatos 21 1413 8 87 3900 18 300 in
   let e' := Modular.guardar_y_enviar dtostrf estado_modular datos in
   Modular.sd e' !! Modular.ARCHIVO_PENDIENTES =
     Some (archivo_de [texto "61234;25.10; 100.2; 7.90;90;3990;21";
                       cstr (Modular.generarLineaCSV dtostrf datos)]) /\
   Modular.sd e' !! Modular.ARCHIVO_ENVIADOS =
     Some (default [] (Modular.sd estado_modular !! Modular.ARCHIVO_ENVIADOS)
           ++ texto "1234;25.00; 100.0; 8.00;90;4000;20" ++ [CR; LF])).
Proof.
  destruct C8_envio_inmediato_promueve_con_mas_de_una_linea as (_ & H2 & H3).
  split.
  - apply (H2 estado_dos 300 medicion1
             (Optimizado.lineaCSV 1 100 medicion1 ++ [CR; LF]
              ++ Optimizado.lineaCSV 2 200 medicion2 ++ [CR; LF])).
    + reflexivity.
    + vm_compute. reflexivity.
    + vm_compute. reflexivity.
    + vm_compute. reflexivity.
    + repeat split; by apply ausente_b.
    + vm_compute. lia.
  - apply (H3 Z (fun (x : Z) (_ _ : Z) => decimal x)
             estado_modular (Modular.mkDatos 21 1413 8 87 3900 18 300)
             [texto "1234;25.00; 100.0; 8.00;90;4000;20";
              texto "61234;25.10; 100.2; 7.90;90;3990;21"]).
    + reflexivity.
    + reflexivity.
    + vm_compute. reflexivity.
    + vm_compute. reflexivity.
    + reflexivity.
    + apply registro_b_ok. vm_compute. reflexivity.
Defined.

(* ===================================================================== *)
(** * Numbers written and read back                                       *)
(* ===================================================================== *)

Section Conversiones.

Lemma leer_digitos_acc d (acc : positive) :
  Respaldo.leer_digitos (texto (NilEmpty.string_of_uint d)) (Z.pos acc) =
  Z.pos (Pos.of_uint_acc d acc).
Proof.
  revert acc; induction d; intros acc; [done|..];
    cbn [NilEmpty.string_of_uint texto list_ascii_of_string Respaldo.leer_digitos
         Pos.of_uint_acc];
    match goal with
    | |- context [Respaldo.digito ?c] =>
        let v := eval vm_compute in (Respaldo.digito c) in
        change (Respaldo.digito c) with v
    end; cbv iota; fold (texto (NilEmpty.string_of_uint d));
    rewrite <- IHd; f_equal; lia.
Qed.

Lemma leer_digitos_uint d :
  Respaldo.leer_digitos (texto (NilEmpty.string_of_uint d)) 0 =
  Z.of_N (Pos.of_uint d).
Proof.
  induction d; [done|..];
    cbn [NilEmpty.string_of_uint texto list_ascii_of_string Respaldo.leer_digitos
         Pos.of_uint];
    match goal with
    | |- context [Respaldo.digito ?c] =>
        let v := eval vm_compute in (Respaldo.digito c) in
        change (Respaldo.digito c) with v
    end; cbv iota; fold (texto (NilEmpty.string_of_uint d));
    [exact IHd|..];
    match goal with
    | |- Respaldo.leer_digitos _ ?k = _ =>
        let p := eval vm_compute in (Z.to_pos k) in
        change k with (Z.pos p)
    end; by rewrite leer_digitos_acc.
Qed.

Lemma leer_digitos_decimal n :
  0 <= n -> Respaldo.leer_digitos (decimal n) 0 = n.
Proof.
  intros Hn. unfold decimal.
  pose proof (DecimalN.Unsigned.of_to (Z.to_N n)) as H.
  unfold N.of_uint in H.
  assert (Respaldo.leer_digitos
            (texto (NilZero.string_of_uint (N.to_uint (Z.to_N n)))) 0 =
          Z.of_N (Pos.of_uint (N.to_uint (Z.to_N n)))) as E.
  { destruct (N.to_uint (Z.to_N n)); try apply leer_digitos_uint. done. }
  rewrite E, H. lia.
Qed.

Lemma decimal_cabeza n :
  exists c r, decimal n = c :: r /\ es_digito c.
Proof.
  pose proof (decimal_digitos n) as H. pose proof (decimal_no_vacio n) as Hne.
  destruct (decimal n) as [|c r]; [done|].
  exists c, r. split; [done|]. by apply Forall_cons in H as [H _].
Qed.

Lemma es_digito_no_blanco c :
  es_digito c ->
  Respaldo.es_blanco c = false /\ Ascii.eqb c "-"%char = false /\
  Ascii.eqb c "+"%char = false.
Proof.
  unfold es_digito, Respaldo.es_blanco. intros H.
  split; [|split].
  - destruct (Z.eqb_spec (Z.of_nat (nat_of_ascii c)) 32); [lia|].
    destruct (Z.leb_spec (Z.of_nat (nat_of_ascii c)) 13); [lia|].
    by rewrite andb_false_r.
  - destruct (Ascii.eqb_spec c "-"%char) as [->|]; [|done].
    vm_compute in H. lia.
  - destruct (Ascii.eqb_spec c "+"%char) as [->|]; [|done].
    vm_compute in H. lia.
Qed.

Lemma int32_id z : -2147483648 <= z < 2147483648 -> Respaldo.int32 z = z.
Proof.
  intros Hz. unfold Respaldo.int32. rewrite Z.mod_small; lia.
Qed.

Lemma int16_int32 z : int16 (Respaldo.int32 z) = int16 z.
Proof.
  unfold int16, Respaldo.int32. f_equal.
  replace (((z + 2147483648) mod 4294967296 - 2147483648 + 32768))
    with ((z + 32768) + 2147483648 - 4294967296 * ((z + 2147483648) / 4294967296) - 2147483648)
    by (pose proof (Z.div_mod (z + 2147483648) 4294967296 ltac:(lia)); lia).
  replace (z + 32768 + 2147483648 - 4294967296 * ((z + 2147483648) / 4294967296) - 2147483648)
    with (z + 32768 + (- 65536 * ((z + 2147483648) / 4294967296)) * 65536) by lia.
  by rewrite Z.mod_add.
Qed.

Lemma uint32_int32 z : uint32 (Respaldo.int32 z) = uint32 z.
Proof.
  unfold uint32, Respaldo.int32.
  replace ((z + 2147483648) mod 4294967296 - 2147483648)
    with (z + (- ((z + 2147483648) / 4294967296)) * 4294967296)
    by (pose proof (Z.div_mod (z + 2147483648) 4294967296 ltac:(lia)); lia).
  by rewrite Z.mod_add.
Qed.

Lemma int16_toInt s : int16 (Respaldo.toInt s) = int16 (Respaldo.valor_decimal s).
Proof. apply int16_int32. Qed.

Lemma uint32_toInt s : uint32 (Respaldo.toInt s) = uint32 (Respaldo.valor_decimal s).
Proof. apply uint32_int32. Qed.

Lemma valor_decimal_decimal n : 0 <= n -> Respaldo.valor_decimal (decimal n) = n.
Proof.
  intros Hn. rewrite <- (leer_digitos_decimal n Hn) at 2.
  destruct (decimal_cabeza n) as (c & r & -> & Hc).
  destruct (es_digito_no_blanco c Hc) as (H1 & H2 & H3).
  unfold Respaldo.valor_decimal. cbn [Respaldo.saltar_blancos]. by rewrite H1, H2, H3.
Qed.

Lemma valor_decimal_itoa n : Respaldo.valor_decimal (Modular.itoa n) = n.
Proof.
  unfold Modular.itoa. destruct (Z.ltb_spec n 0); [|by apply valor_decimal_decimal].
  unfold Respaldo.valor_decimal. cbn [Respaldo.saltar_blancos].
  change (Respaldo.es_blanco "-") with false. cbv iota.
  change (Ascii.eqb "-" "-") with true. cbv iota.
  rewrite leer_digitos_decimal; lia.
Qed.

Lemma decimal_inyectiva a b : 0 <= a -> 0 <= b -> decimal a = decimal b -> a = b.
Proof.
  intros Ha Hb H. rewrite <- (valor_decimal_decimal a Ha), <- (valor_decimal_decimal b Hb).
  by rewrite H.
Qed.

End Conversiones.

(** X11.  What [print] writes for an identifier and [toInt] reads, and what
    [itoa] writes and [atoi] reads, are the same number: the decimal text
    of a number from 0 to 2147483647 reads back through [toInt], which is
    [atol] in a 32-bit [long], as that number; a 16-bit [int] goes through
    [itoa] and [atoi] unchanged; and an [unsigned long] written by [ultoa]
    is what [toInt] gives once stored in an [unsigned long] again. *)
Theorem los_numeros_se_leen_como_se_escriben :
  (forall n, 0 <= n < 2147483648 -> Respaldo.toInt (decimal n) = n) /\
  (forall n, -32768 <= n < 32768 -> Libc.atoi (Modular.itoa n) = n) /\
  (forall n, 0 <= n < 4294967296 -> uint32 (Respaldo.toInt (Modular.ultoa n)) = n).
Proof.
  split; [|split].
  - intros n Hn. unfold Respaldo.toInt.
    rewrite valor_decimal_decimal by lia. apply int32_id; lia.
  - intros n Hn. unfold Libc.atoi.
    rewrite int16_toInt, valor_decimal_itoa. by apply int16_id.
  - intros n Hn. unfold Modular.ultoa.
    rewrite uint32_toInt, valor_decimal_decimal by lia. by apply uint32_id.
Qed.

Lemma los_numeros_se_leen_como_se_escriben_testigo :
  Respaldo.toInt (decimal 1234) = 1234 /\
  Libc.atoi (Modular.itoa (-87)) = -87 /\
  uint32 (Respaldo.toInt (Modular.ultoa 4000000000)) = 4000000000.
Proof.
  destruct los_numeros_se_leen_como_se_escriben as (H1 & H2 & H3).
  split; [apply H1; lia|]. split; [apply H2; lia|apply H3; lia].
Defined.

(* ===================================================================== *)
(** * The single-file sketch: fields and marks                            *)
(* ===================================================================== *)

Section Cadenas.
Import Respaldo.

Lemma uint16_id z : 0 <= z < 65536 -> uint16 z = z.
Proof. intros H. unfold uint16. by rewrite Z.mod_small. Qed.

Lemma indexOf_bucle_campo f c r i :
  c ∉ f -> indexOf_bucle (f ++ c :: r) c i = i + Z.of_nat (length f).
Proof.
  revert i; induction f as [|a f IH]; intros i Hc.
  - cbn. rewrite Ascii.eqb_refl. lia.
  - apply not_elem_of_cons in Hc as [Hac Hc]. cbn [app indexOf_bucle].
    destruct (Ascii.eqb_spec a c) as [->|_]; [done|].
    rewrite IH by done. cbn [length]. lia.
Qed.

(** The field [f] that starts at position [length pre] of a line and ends
    at a semicolon: where [indexOf] finds the semicolon and what
    [substring] cuts. *)
Lemma cstr_app_sin_nul f r : NUL ∉ f -> cstr (f ++ r) = f ++ cstr r.
Proof.
  induction f as [|a f IH]; intros H; [done|].
  apply not_elem_of_cons in H as [Ha H]. cbn [app cstr].
  destruct (Ascii.eqb_spec a NUL) as [->|_]; [done|]. by rewrite IH.
Qed.

Lemma campo_en_linea pre f post :
  PYC ∉ f -> NUL ∉ f ->
  Z.of_nat (length (pre ++ f ++ PYC :: post)) < 65536 ->
  indexOf (pre ++ f ++ PYC :: post) PYC (Z.of_nat (length pre))
    = Z.of_nat (length pre + length f) /\
  substring (pre ++ f ++ PYC :: post) (Z.of_nat (length pre))
            (Z.of_nat (length pre + length f)) = f.
Proof.
  intros Hf Hn Hlen. rewrite !length_app in Hlen. cbn [length] in Hlen. split.
  - unfold indexOf. rewrite uint16_id by lia.
    destruct (Z.leb_spec (Z.of_nat (length (pre ++ f ++ PYC :: post)))
                (Z.of_nat (length pre))) as [H|_].
    { rewrite !length_app in H. cbn [length] in H. lia. }
    rewrite Nat2Z.id, drop_app_length, cstr_app_sin_nul by done.
    change (cstr (PYC :: post)) with (PYC :: cstr post).
    rewrite indexOf_bucle_campo by done. lia.
  - unfold substring. rewrite !uint16_id by lia.
    rewrite Z.min_l, Z.max_r by lia.
    destruct (Z.leb_spec (Z.of_nat (length (pre ++ f ++ PYC :: post)))
                (Z.of_nat (length pre))) as [H|_].
    { rewrite !length_app in H. cbn [length] in H. lia. }
    rewrite Nat2Z.id, drop_app_length.
    rewrite Z.min_l by (rewrite !length_app; cbn [length]; lia).
    replace (Z.to_nat (Z.of_nat (length pre + length f) - Z.of_nat (length pre)))
      with (length f) by lia.
    rewrite take_app_length. by apply cstr_id.
Qed.

Lemma startsWith_app p r : startsWith (p ++ r) p = true.
Proof.
  induction p as [|a p IH]; [by destruct r|].
  cbn. by rewrite Ascii.eqb_refl, IH.
Qed.

Lemma startsWith_inv s p : startsWith s p = true -> exists r, s = p ++ r.
Proof.
  revert s; induction p as [|a p IH]; intros s H; [by exists s|].
  destruct s as [|b s]; [done|]. cbn in H.
  apply andb_prop in H as [Hab H]. apply Ascii.eqb_eq in Hab as ->.
  destruct (IH s H) as [r ->]. by exists r.
Qed.

Lemma corte_unico (a b x y : bytes) c :
  c ∉ a -> c ∉ b -> a ++ c :: x = b ++ c :: y -> a = b.
Proof.
  revert b; induction a as [|u a IH]; intros b Ha Hb H.
  - destruct b as [|v b]; [done|]. cbn in H. injection H as <- _.
    apply not_elem_of_cons in Hb as [Hb _]. done.
  - apply not_elem_of_cons in Ha as [Hu Ha].
    destruct b as [|v b].
    + cbn in H. injection H as -> _. done.
    + apply not_elem_of_cons in Hb as [Hv Hb]. cbn in H. injection H as -> H.
      f_equal. by apply (IH b).
Qed.

Lemma lastIndexOf_bucle_sin t c i u :
  c ∉ t -> lastIndexOf_bucle t c i u = u.
Proof.
  revert i; induction t as [|a t IH]; intros i Hc; [done|].
  apply not_elem_of_cons in Hc as [Hac Hc]. cbn.
  destruct (Ascii.eqb_spec a c) as [->|_]; [done|]. by apply IH.
Qed.

Lemma lastIndexOf_bucle_ultimo x t c i u :
  c ∉ t -> lastIndexOf_bucle (x ++ c :: t) c i u = i + Z.of_nat (length x).
Proof.
  revert i u; induction x as [|a x IH]; intros i u Hc.
  - cbn. rewrite Ascii.eqb_refl. rewrite lastIndexOf_bucle_sin by done. lia.
  - cbn [app lastIndexOf_bucle]. rewrite IH by done. cbn [length]. lia.
Qed.

(** [marcar_bucle] rewrites the file line by line. *)
Lemma marcar_bucle_lineas f id acc :
  marcar_bucle f id acc =
  concat (map (fun l => marcar_linea id l ++ [CR; LF]) (lineas_desde acc f))
  ++ (if 0 <? Z.of_nat (length (cola_desde acc f))
      then marcar_linea id (cola_desde acc f) ++ [CR; LF] else []).
Proof.
  revert acc; induction f as [|c f IH]; intros acc.
  - cbn. done.
  - cbn [marcar_bucle lineas_desde cola_desde].
    destruct (Ascii.eqb c LF).
    + rewrite IH. cbn [map concat]. by rewrite <- !app_assoc.
    + apply IH.
Qed.

Lemma strstr_bucle_sin s p c q i :
  p = c :: q -> c ∉ s -> strstr_bucle s p i = -1.
Proof.
  intros -> Hc. revert i; induction s as [|a s IH]; intros i; [done|].
  apply not_elem_of_cons in Hc as [Hac Hc]. cbn [strstr_bucle startsWith].
  destruct (Ascii.eqb_spec c a) as [->|_]; [done|]. cbn [andb]. by apply IH.
Qed.

Lemma strstr_bucle_cota s p i :
  strstr_bucle s p i = -1 \/ i <= strstr_bucle s p i.
Proof.
  revert i; induction s as [|a s IH]; intros i.
  - cbn [strstr_bucle]. destruct (startsWith [] p); [right; lia|by left].
  - cbn [strstr_bucle]. destruct (startsWith (a :: s) p); [right; lia|].
    destruct (IH (i + 1)) as [H|H]; [by left|right; lia].
Qed.

Lemma strstr_bucle_existe x p r i :
  0 <= i -> i <= strstr_bucle (x ++ p ++ r) p i.
Proof.
  revert i; induction x as [|a x IH]; intros i Hi.
  - cbn [app]. destruct (p ++ r) as [|b s] eqn:E.
    + destruct p; [|done]. cbn. lia.
    + cbn [strstr_bucle]. rewrite <- E, startsWith_app. lia.
  - cbn [app strstr_bucle]. destruct (startsWith _ p); [lia|].
    specialize (IH (i + 1)). lia.
Qed.

Lemma indexOf_str_desde_cero s p :
  s <> [] -> indexOf_str s p 0 = strstr_bucle (cstr s) p 0.
Proof.
  intros Hs. unfold indexOf_str. change (uint16 0) with 0.
  destruct (Z.leb_spec (Z.of_nat (length s)) 0) as [H|_]; [|done].
  destruct s; [done|]. cbn [length] in H. lia.
Qed.

End Cadenas.

Section CamposRespaldo.
Import Respaldo.

Lemma paso_de_campo L pre f post :
  L = pre ++ f ++ PYC :: post ->
  PYC ∉ f -> NUL ∉ f ->
  Z.of_nat (length L) < 65536 ->
  indexOf L PYC (Z.of_nat (length pre))
    = Z.of_nat (length (pre ++ f ++ [PYC])) - 1 /\
  substring L (Z.of_nat (length pre))
            (Z.of_nat (length (pre ++ f ++ [PYC])) - 1) = f.
Proof.
  intros -> Hf Hn Hlen.
  destruct (campo_en_linea pre f post Hf Hn Hlen) as [H1 H2].
  replace (Z.of_nat (length (pre ++ f ++ [PYC])) - 1)
    with (Z.of_nat (length pre + length f))
    by (rewrite !length_app; cbn [length]; lia).
  done.
Qed.

End CamposRespaldo.

(** X12.  The drain of the single-file sketch recovers what was saved: from the
    line written by [guardarDatosSD], with whatever follows the status on
    it (the carriage return), it cuts the identifier and the five values
    as they were written, empty values included, provided no value holds a
    semicolon or a NUL byte, the identifier fits an [unsigned long] and
    the line is shorter than 65536 bytes. *)
Theorem campos_recupera_el_registro id ms m crs :
  0 <= id < 4294967296 ->
  (PYC ∉ e_temp m) -> (PYC ∉ e_cond m) -> (PYC ∉ e_bat m) ->
  (PYC ∉ e_volt m) -> (PYC ∉ e_cob m) ->
  valores_sin_nul m ->
  Z.of_nat (length (Respaldo.lineaCSV id ms m ++ crs)) < 65536 ->
  Respaldo.campos (Respaldo.lineaCSV id ms m ++ crs) = (id, m).
Proof.
  intros Hid Ht Hc Hb Hv Hg (Nt & Nc & Nb & Nv & Ng) Hlen.
  destruct m as [t c b v g].
  cbn [e_temp e_cond e_bat e_volt e_cob] in *.
  set (L := Respaldo.lineaCSV id ms _ ++ crs) in *.
  set (p1 := [] ++ decimal id ++ [PYC]).
  set (p2 := p1 ++ decimal ms ++ [PYC]).
  set (p3 := p2 ++ t ++ [PYC]).
  set (p4 := p3 ++ c ++ [PYC]).
  set (p5 := p4 ++ b ++ [PYC]).
  set (p6 := p5 ++ v ++ [PYC]).
  destruct (paso_de_campo L [] (decimal id)
              (decimal ms ++ [PYC] ++ t ++ [PYC] ++ c ++ [PYC] ++ b ++ [PYC]
               ++ v ++ [PYC] ++ g ++ [PYC] ++ Respaldo.PENDIENTE ++ crs))
    as [I0 S0]; [subst L; unfold Respaldo.lineaCSV; cbn [e_temp e_cond e_bat e_volt e_cob];
                 by rewrite <- ?app_assoc|apply decimal_sin_pyc|apply decimal_sin_nul|done|].
  destruct (paso_de_campo L p1 (decimal ms)
              (t ++ [PYC] ++ c ++ [PYC] ++ b ++ [PYC]
               ++ v ++ [PYC] ++ g ++ [PYC] ++ Respaldo.PENDIENTE ++ crs))
    as [I1 S1]; [subst L p1; unfold Respaldo.lineaCSV; cbn [e_temp e_cond e_bat e_volt e_cob];
                 by rewrite <- ?app_assoc|apply decimal_sin_pyc|apply decimal_sin_nul|done|].
  destruct (paso_de_campo L p2 t
              (c ++ [PYC] ++ b ++ [PYC]
               ++ v ++ [PYC] ++ g ++ [PYC] ++ Respaldo.PENDIENTE ++ crs))
    as [I2 S2]; [subst L p2 p1; unfold Respaldo.lineaCSV; cbn [e_temp e_cond e_bat e_volt e_cob];
                 by rewrite <- ?app_assoc|done|done|done|].
  destruct (paso_de_campo L p3 c
              (b ++ [PYC] ++ v ++ [PYC] ++ g ++ [PYC] ++ Respaldo.PENDIENTE ++ crs))
    as [I3 S3]; [subst L p3 p2 p1; unfold Respaldo.lineaCSV; cbn [e_temp e_cond e_bat e_volt e_cob];
                 by rewrite <- ?app_assoc|done|done|done|].
  destruct (paso_de_campo L p4 b
              (v ++ [PYC] ++ g ++ [PYC] ++ Respaldo.PENDIENTE ++ crs))
    as [I4 S4]; [subst L p4 p3 p2 p1; unfold Respaldo.lineaCSV; cbn [e_temp e_cond e_bat e_volt e_cob];
                 by rewrite <- ?app_assoc|done|done|done|].
  destruct (paso_de_campo L p5 v
              (g ++ [PYC] ++ Respaldo.PENDIENTE ++ crs))
    as [I5 S5]; [subst L p5 p4 p3 p2 p1; unfold Respaldo.lineaCSV; cbn [e_temp e_cond e_bat e_volt e_cob];
                 by rewrite <- ?app_assoc|done|done|done|].
  destruct (paso_de_campo L p6 g (Respaldo.PENDIENTE ++ crs))
    as [I6 S6]; [subst L p6 p5 p4 p3 p2 p1; unfold Respaldo.lineaCSV; cbn [e_temp e_cond e_bat e_volt e_cob];
                 by rewrite <- ?app_assoc|done|done|done|].
  fold p1 in I0, S0. fold p2 in I1, S1. fold p3 in I2, S2. fold p4 in I3, S3.
  fold p5 in I4, S4. fold p6 in I5, S5.
  change (Z.of_nat (length (@nil ascii))) with 0 in I0, S0.
  unfold Respaldo.campos.
  rewrite I0, Z.sub_add, I1, Z.sub_add, I2, Z.sub_add, I3, Z.sub_add,
    I4, Z.sub_add, I5, Z.sub_add, I6.
  rewrite S0, S2, S3, S4, S5, S6.
  rewrite uint32_toInt, valor_decimal_decimal by lia. by rewrite uint32_id.
Qed.

Lemma campos_recupera_el_registro_testigo :
  Respaldo.campos (Respaldo.lineaCSV 7 100 medicion1 ++ [CR]) = (7, medicion1).
Proof.
  apply (campos_recupera_el_registro 7 100 medicion1 [CR]).
  - lia.
  - apply ausente_b. vm_compute. reflexivity.
  - apply ausente_b. vm_compute. reflexivity.
  - apply ausente_b. vm_compute. reflexivity.
  - apply ausente_b. vm_compute. reflexivity.
  - apply ausente_b. vm_compute. reflexivity.
  - repeat split; apply ausente_b; vm_compute; reflexivity.
  - vm_compute. reflexivity.
Defined.

Section Reescritura.

Lemma marcarComoEnviado_lineas e id f :
  Respaldo.sdDisponible e = true ->
  Respaldo.sd e !! Respaldo.DATOS_CSV = Some f ->
  let ultima := cola_desde [] f in
  let nuevo :=
    concat (map (fun l => Respaldo.marcar_linea id l ++ [CR; LF]) (lineas f))
    ++ (if 0 <? Z.of_nat (length ultima)
        then Respaldo.marcar_linea id ultima ++ [CR; LF] else []) in
  Respaldo.marcarComoEnviado e id =
    (true, Respaldo.con_sd e
             (<[Respaldo.DATOS_CSV := nuevo]>
                (delete Respaldo.TEMP_CSV (Respaldo.sd e)))).
Proof.
  intros Hd Hf ultima nuevo.
  assert (Respaldo.DATOS_CSV <> Respaldo.TEMP_CSV) as Hne by done.
  unfold Respaldo.marcarComoEnviado. rewrite Hd. cbn [negb].
  rewrite lookup_delete_ne by done. rewrite Hf.
  rewrite lookup_delete_ne by done. rewrite lookup_anexar_eq.
  rewrite lookup_delete_eq. cbn [from_option Datatypes.id app].
  rewrite marcar_bucle_lineas. fold (lineas f). fold ultima. fold nuevo.
  f_equal. f_equal. apply map_eq; intros k. unfold anexar.
  destruct (decide (k = Respaldo.TEMP_CSV)) as [->|Hk].
  - rewrite lookup_delete_eq. rewrite lookup_insert_ne by done.
    by rewrite lookup_delete_eq.
  - rewrite lookup_delete_ne by done.
    destruct (decide (k = Respaldo.DATOS_CSV)) as [->|Hk'].
    + rewrite !lookup_insert_eq. rewrite lookup_delete_eq. done.
    + rewrite !lookup_insert_ne by done. rewrite lookup_delete_ne by done.
      rewrite lookup_insert_ne by done. by rewrite lookup_delete_ne by done.
Qed.

End Reescritura.

(** X13.  [marcarComoEnviado] of the single-file sketch, with the card
    available and [datos.csv] present, rewrites the file line by line:
    every line, and the unfinished last one if any, goes through
    [marcar_linea] and is written back in full, NUL bytes included,
    followed by CR LF; a left-over [temp.csv] is discarded and no other
    file changes. *)
Theorem marcarComoEnviado_reescribe_linea_a_linea e id f :
  Respaldo.sdDisponible e = true ->
  Respaldo.sd e !! Respaldo.DATOS_CSV = Some f ->
  let ultima := cola_desde [] f in
  let nuevo :=
    concat (map (fun l => Respaldo.marcar_linea id l ++ [CR; LF]) (lineas f))
    ++ (if 0 <? Z.of_nat (length ultima)
        then Respaldo.marcar_linea id ultima ++ [CR; LF] else []) in
  Respaldo.marcarComoEnviado e id =
    (true, Respaldo.con_sd e
             (<[Respaldo.DATOS_CSV := nuevo]>
                (delete Respaldo.TEMP_CSV (Respaldo.sd e)))).
Proof. apply marcarComoEnviado_lineas. Qed.

Lemma marcarComoEnviado_reescribe_linea_a_linea_testigo :
  let f := Respaldo.lineaCSV 1 100 medicion1 ++ [CR; LF]
           ++ Respaldo.lineaCSV 2 200 medicion2 ++ [CR; LF] in
  let ultima := cola_desde [] f in
  let nuevo :=
    concat (map (fun l => Respaldo.marcar_linea 2 l ++ [CR; LF]) (lineas f))
    ++ (if 0 <? Z.of_nat (length ultima)
        then Respaldo.marcar_linea 2 ultima ++ [CR; LF] else []) in
  Respaldo.marcarComoEnviado estado_respaldo 2 =
    (true, Respaldo.con_sd estado_respaldo
             (<[Respaldo.DATOS_CSV := nuevo]>
                (delete Respaldo.TEMP_CSV (Respaldo.sd estado_respaldo)))).
Proof.
  apply (marcarComoEnviado_reescribe_linea_a_linea estado_respaldo 2).
  - reflexivity.
  - vm_compute. reflexivity.
Defined.

Section Marcas.

Lemma lineaCSV_cuerpo id ms m :
  Respaldo.lineaCSV id ms m = cuerpo id ms m ++ Respaldo.PENDIENTE.
Proof. unfold Respaldo.lineaCSV, cuerpo. by rewrite <- !app_assoc. Qed.

Lemma cuerpo_sin_nul id ms m : valores_sin_nul m -> NUL ∉ cuerpo id ms m.
Proof.
  intros (H1 & H2 & H3 & H4 & H5). unfold cuerpo.
  repeat (rewrite not_elem_of_app || rewrite not_elem_of_cons).
  repeat split; try done; try apply decimal_sin_nul; apply not_elem_of_nil.
Qed.

Lemma lineaCSV_respaldo_sin_nul id ms m :
  valores_sin_nul m -> NUL ∉ Respaldo.lineaCSV id ms m.
Proof.
  intros Hm. rewrite lineaCSV_cuerpo, not_elem_of_app.
  split; [by apply cuerpo_sin_nul|by apply ausente_b].
Qed.

Lemma marcar_linea_propia id ms m crs :
  valores_sin_nul m ->
  (PYC ∉ crs) ->
  Z.of_nat (length (Respaldo.lineaCSV id ms m ++ crs)) < 65535 ->
  Respaldo.marcar_linea id (Respaldo.lineaCSV id ms m ++ crs) =
    cuerpo id ms m ++ Respaldo.ENVIADO.
Proof.
  intros Hm Hcrs Hlen.
  pose proof (cuerpo_sin_nul id ms m Hm) as Hnc.
  pose proof (lineaCSV_respaldo_sin_nul id ms m Hm) as Hnl.
  set (medio := decimal ms ++ [PYC] ++ e_temp m ++ [PYC] ++ e_cond m ++ [PYC]
                ++ e_bat m ++ [PYC] ++ e_volt m ++ [PYC] ++ e_cob m).
  set (x := decimal id ++ [PYC] ++ medio).
  assert (cuerpo id ms m = x ++ [PYC]) as Ec
    by (subst x medio; unfold cuerpo; by rewrite <- !app_assoc).
  assert (Respaldo.lineaCSV id ms m ++ crs = x ++ PYC :: (Respaldo.PENDIENTE ++ crs)) as E'.
  { rewrite lineaCSV_cuerpo, Ec. by rewrite <- !app_assoc. }
  assert (Respaldo.lineaCSV id ms m ++ crs =
            (decimal id ++ [PYC]) ++ medio ++ PYC :: (Respaldo.PENDIENTE ++ crs)) as E''.
  { rewrite E'. subst x. by rewrite <- !app_assoc. }
  unfold Respaldo.marcar_linea. rewrite E'' at 1. rewrite startsWith_app.
  rewrite Ec. f_equal. unfold Respaldo.lastIndexOf.
  rewrite cstr_app_sin_nul by done.
  replace (Respaldo.lineaCSV id ms m ++ cstr crs)
    with (x ++ PYC :: (Respaldo.PENDIENTE ++ cstr crs))
    by (rewrite lineaCSV_cuerpo, Ec; by rewrite <- !app_assoc).
  rewrite lastIndexOf_bucle_ultimo.
  2:{ rewrite not_elem_of_app. split; [by apply ausente_b|by apply cstr_sin]. }
  rewrite E'.
  rewrite E' in Hlen. rewrite length_app in Hlen. cbn [length] in Hlen.
  unfold Respaldo.substring. rewrite !uint16_id by lia.
  rewrite Z.min_l, Z.max_r by lia.
  destruct (Z.leb_spec (Z.of_nat (length (x ++ PYC :: Respaldo.PENDIENTE ++ crs))) 0)
    as [H|_]; [rewrite length_app in H; cbn [length] in H; lia|].
  rewrite Z.min_l by (rewrite length_app; cbn [length]; lia).
  cbn [Z.to_nat drop]. rewrite Z.sub_0_r.
  replace (Z.to_nat (0 + Z.of_nat (length x) + 1)) with (length (x ++ [PYC]))
    by (rewrite length_app; cbn [length]; lia).
  replace (x ++ PYC :: Respaldo.PENDIENTE ++ crs)
    with ((x ++ [PYC]) ++ Respaldo.PENDIENTE ++ crs) by (by rewrite <- app_assoc).
  change (Z.to_nat 0) with 0%nat. rewrite drop_0.
  rewrite take_app_length. apply cstr_id. by rewrite <- Ec.
Qed.

Lemma marcar_linea_ajena id otro ms m crs :
  0 <= id -> 0 <= otro -> otro <> id ->
  Respaldo.marcar_linea otro (Respaldo.lineaCSV id ms m ++ crs) =
    Respaldo.lineaCSV id ms m ++ crs.
Proof.
  intros Hid Hotro Hne. unfold Respaldo.marcar_linea.
  destruct (Respaldo.startsWith _ _) eqn:Hs; [|done].
  apply startsWith_inv in Hs as [r Hr]. exfalso. apply Hne.
  symmetry. apply decimal_inyectiva; [done|done|].
  unfold Respaldo.lineaCSV in Hr. rewrite <- !app_assoc in Hr. cbn [app] in Hr.
  apply (corte_unico _ _ _ _ PYC) in Hr; [done|apply decimal_sin_pyc..].
Qed.

End Marcas.

(** X14.  The mark goes to the records of the identifier and to no other
    (identifiers are not negative): on a line that [guardarDatosSD] wrote
    for [id], whatever its timestamp, with values that hold no NUL byte, followed by bytes other than a
    semicolon (the carriage returns) and shorter than 65535 bytes,
    [marcar_linea id] replaces the status by ENVIADO and drops what
    followed it; for any other identifier the line is left as it is, so
    that [println] writes it back one carriage return longer. *)
Theorem marcar_linea_por_identificador id otro ms m crs :
  0 <= id -> 0 <= otro ->
  valores_sin_nul m ->
  (PYC ∉ crs) ->
  Z.of_nat (length (Respaldo.lineaCSV id ms m ++ crs)) < 65535 ->
  Respaldo.lineaCSV id ms m = cuerpo id ms m ++ Respaldo.PENDIENTE /\
  Respaldo.marcar_linea id (Respaldo.lineaCSV id ms m ++ crs) =
    cuerpo id ms m ++ Respaldo.ENVIADO /\
  (otro <> id ->
   Respaldo.marcar_linea otro (Respaldo.lineaCSV id ms m ++ crs) =
     Respaldo.lineaCSV id ms m ++ crs).
Proof.
  intros Hid Hotro Hm Hcrs Hlen. split; [apply lineaCSV_cuerpo|]. split.
  - by apply marcar_linea_propia.
  - intros Hne. by apply marcar_linea_ajena.
Qed.

Lemma marcar_linea_por_identificador_testigo :
  Respaldo.lineaCSV 7 100 medicion1 = cuerpo 7 100 medicion1 ++ Respaldo.PENDIENTE /\
  Respaldo.marcar_linea 7 (Respaldo.lineaCSV 7 100 medicion1 ++ [CR]) =
    cuerpo 7 100 medicion1 ++ Respaldo.ENVIADO /\
  Respaldo.marcar_linea 8 (Respaldo.lineaCSV 7 100 medicion1 ++ [CR]) =
    Respaldo.lineaCSV 7 100 medicion1 ++ [CR].
Proof.
  destruct (marcar_linea_por_identificador 7 8 100 medicion1 [CR]
              ltac:(lia) ltac:(lia)
              ltac:(repeat split; apply ausente_b; vm_compute; reflexivity)
              ltac:(apply ausente_b; vm_compute; reflexivity)
              ltac:(vm_compute; reflexivity)) as (H1 & H2 & H3).
  split; [exact H1|]. split; [exact H2|]. apply H3. lia.
Defined.

(** X15.  The drain of the single-file sketch goes by the status text: the line
    of a record as [guardarDatosSD] wrote it is always taken for a retry,
    and once [marcar_linea] has put ENVIADO on it the line is never taken
    again, provided its values hold no capital P and no NUL byte, what
    follows the status holds no capital P and no semicolon, and the line
    is shorter than 65535 bytes. *)
Theorem el_estado_decide_el_reenvio id ms m crs :
  let P := "P"%char in
  (P ∉ e_temp m) -> (P ∉ e_cond m) -> (P ∉ e_bat m) -> (P ∉ e_volt m) ->
  (P ∉ e_cob m) -> (P ∉ crs) -> (PYC ∉ crs) ->
  valores_sin_nul m ->
  Z.of_nat (length (Respaldo.lineaCSV id ms m ++ crs)) < 65535 ->
  (Respaldo.indexOf_str (Respaldo.lineaCSV id ms m ++ crs) Respaldo.PENDIENTE 0 >? 0)
    = true /\
  (Respaldo.indexOf_str
     (Respaldo.marcar_linea id (Respaldo.lineaCSV id ms m ++ crs) ++ crs)
     Respaldo.PENDIENTE 0 >? 0) = false.
Proof.
  intros P Ht Hc Hb Hv Hg Hcrs Hpyc Hm Hlen.
  pose proof (cuerpo_sin_nul id ms m Hm) as Hnc.
  pose proof (lineaCSV_respaldo_sin_nul id ms m Hm) as Hnl.
  destruct (decimal_cabeza id) as (c & r & E & Hc0).
  split.
  - rewrite indexOf_str_desde_cero
      by (rewrite lineaCSV_cuerpo; unfold cuerpo; by rewrite E).
    rewrite cstr_app_sin_nul by done.
    rewrite lineaCSV_cuerpo. unfold cuerpo. rewrite E. rewrite <- !app_assoc.
    cbn [app Respaldo.strstr_bucle].
    set (resto := r ++ _).
    assert (Respaldo.startsWith (c :: resto) Respaldo.PENDIENTE = false) as Hs.
    { cbn [Respaldo.PENDIENTE texto list_ascii_of_string Respaldo.startsWith].
      destruct (Ascii.eqb_spec "P"%char c) as [<-|_]; [|done].
      unfold es_digito in Hc0. vm_compute in Hc0. lia. }
    rewrite Hs.
    pose proof (strstr_bucle_existe
                  (r ++ PYC :: decimal ms ++ PYC :: e_temp m ++ PYC :: e_cond m
                     ++ PYC :: e_bat m ++ PYC :: e_volt m ++ PYC :: e_cob m ++ [PYC])
                  Respaldo.PENDIENTE (cstr crs) (0 + 1)) as Hex.
    repeat (rewrite <- !app_assoc in Hex; cbn [app] in Hex).
    subst resto. cbn [app].
    apply Z.gtb_lt. lia.
  - rewrite marcar_linea_propia by done.
    rewrite indexOf_str_desde_cero by (unfold cuerpo; by rewrite E).
    rewrite (strstr_bucle_sin _ Respaldo.PENDIENTE P (tl Respaldo.PENDIENTE)); [done|done|].
    apply cstr_sin.
    assert (P ∉ decimal id) by (apply decimal_sin; vm_compute; lia).
    assert (P ∉ decimal ms) by (apply decimal_sin; vm_compute; lia).
    assert (P <> PYC) by done.
    unfold cuerpo.
    repeat (rewrite not_elem_of_app || rewrite not_elem_of_cons).
    repeat split; try done; try apply not_elem_of_nil.
    by apply ausente_b.
Qed.

Lemma el_estado_decide_el_reenvio_testigo :
  (Respaldo.indexOf_str (Respaldo.lineaCSV 7 100 medicion1 ++ [CR])
     Respaldo.PENDIENTE 0 >? 0) = true /\
  (Respaldo.indexOf_str
     (Respaldo.marcar_linea 7 (Respaldo.lineaCSV 7 100 medicion1 ++ [CR]) ++ [CR])
     Respaldo.PENDIENTE 0 >? 0) = false.
Proof.
  apply (el_estado_decide_el_reenvio 7 100 medicion1 [CR]).
  - apply ausente_b. vm_compute. reflexivity.
  - apply ausente_b. vm_compute. reflexivity.
  - apply ausente_b. vm_compute. reflexivity.
  - apply ausente_b. vm_compute. reflexivity.
  - apply ausente_b. vm_compute. reflexivity.
  - apply ausente_b. vm_compute. reflexivity.
  - apply ausente_b. vm_compute. reflexivity.
  - repeat split; apply ausente_b; vm_compute; reflexivity.
  - vm_compute. reflexivity.
Defined.

(* ===================================================================== *)
(** * The reply of the server                                             *)
(* ===================================================================== *)

Section Respuestas.

Lemma saltar_delim_token d f r :
  f <> [] -> d ∉ f -> saltar_delim d (f ++ r) = f ++ r.
Proof.
  intros Hne Hd. destruct f as [|c f]; [done|].
  apply not_elem_of_cons in Hd as [Hcd _]. cbn.
  destruct (Ascii.eqb_spec c d) as [->|_]; done.
Qed.

Lemma hasta_delim_token d f r :
  d ∉ f -> hasta_delim d (f ++ d :: r) = (f, r).
Proof.
  induction f as [|c f IH]; intros Hd.
  - cbn. by rewrite Ascii.eqb_refl.
  - apply not_elem_of_cons in Hd as [Hcd Hd]. cbn.
    destruct (Ascii.eqb_spec c d) as [->|_]; [done|]. by rewrite IH.
Qed.

Lemma hasta_delim_ultimo d f : d ∉ f -> hasta_delim d f = (f, []).
Proof.
  induction f as [|c f IH]; intros Hd; [done|].
  apply not_elem_of_cons in Hd as [Hcd Hd]. cbn.
  destruct (Ascii.eqb_spec c d) as [->|_]; [done|]. by rewrite IH.
Qed.

Lemma strtok_token d f r :
  f <> [] -> d ∉ f -> strtok d (f ++ d :: r) = (Some f, r).
Proof.
  intros Hne Hd. unfold strtok. rewrite saltar_delim_token by done.
  destruct (f ++ d :: r) eqn:E; [by destruct f|]. rewrite <- E.
  by rewrite hasta_delim_token.
Qed.

Lemma strtok_ultimo d f :
  f <> [] -> d ∉ f -> strtok d f = (Some f, []).
Proof.
  intros Hne Hd. unfold strtok.
  rewrite <- (app_nil_r f) at 1. rewrite saltar_delim_token by done.
  rewrite app_nil_r. destruct f as [|c w] eqn:E; [done|].
  rewrite <- E, hasta_delim_ultimo by (by rewrite E). done.
Qed.

Lemma es_digito_digito c : es_digito c -> exists v, Respaldo.digito c = Some v.
Proof.
  unfold es_digito, Respaldo.digito. intros H.
  destruct (Z.leb_spec 48 (Z.of_nat (nat_of_ascii c))); [|lia].
  destruct (Z.leb_spec (Z.of_nat (nat_of_ascii c)) 57); [|lia].
  by eexists.
Qed.

Lemma leer_digitos_cola ds cola acc :
  Forall es_digito ds -> fin_de_numero cola ->
  Respaldo.leer_digitos (ds ++ cola) acc = Respaldo.leer_digitos ds acc.
Proof.
  intros Hds Hc. revert acc; induction Hds as [|c ds Hc0 Hds IH]; intros acc.
  - destruct cola as [|c cola]; [done|]. cbn in *. by rewrite Hc.
  - cbn. destruct (es_digito_digito c Hc0) as [v ->]. apply IH.
Qed.

Lemma valor_decimal_itoa_cola n cola :
  fin_de_numero cola -> Respaldo.valor_decimal (Modular.itoa n ++ cola) = n.
Proof.
  intros Hc. rewrite <- (valor_decimal_itoa n) at 2. unfold Modular.itoa.
  destruct (Z.ltb_spec n 0).
  - unfold Respaldo.valor_decimal. cbn [app Respaldo.saltar_blancos].
    change (Respaldo.es_blanco "-") with false. cbv iota.
    change (Ascii.eqb "-" "-") with true. cbv iota.
    by rewrite leer_digitos_cola by (by apply decimal_digitos || done).
  - destruct (decimal_cabeza n) as (c & r & E & Hc0).
    pose proof (decimal_digitos n) as Hd. rewrite E in *.
    destruct (es_digito_no_blanco c Hc0) as (H1 & H2 & H3).
    unfold Respaldo.valor_decimal. cbn [app Respaldo.saltar_blancos].
    rewrite H1, H2, H3.
    by apply (leer_digitos_cola (c :: r)).
Qed.

Lemma itoa_no_vacio n : Modular.itoa n <> [].
Proof.
  unfold Modular.itoa. destruct (n <? 0); [done|apply decimal_no_vacio].
Qed.

Lemma itoa_sin c n :
  c <> "-"%char -> ~ (48 <= nat_of_ascii c <= 57)%nat -> c ∉ Modular.itoa n.
Proof.
  intros H1 H2. unfold Modular.itoa. destruct (n <? 0).
  - apply not_elem_of_cons. split; [done|]. by apply decimal_sin.
  - by apply decimal_sin.
Qed.

Lemma atoi_itoa_cola n cola :
  -32768 <= n < 32768 -> fin_de_numero cola ->
  Libc.atoi (Modular.itoa n ++ cola) = n.
Proof.
  intros Hn Hc. unfold Libc.atoi.
  rewrite int16_toInt, valor_decimal_itoa_cola by done.
  by apply int16_id.
Qed.

End Respuestas.

(** X16.  What the two sketches that read the reply make of it.  The reply holds
    a first token, a bar, the number [p], a bar and the number [a], written
    as [itoa] writes a 16-bit [int], and then anything that does not go on
    with a digit or hold a bar.  The v2.0 sketch, when the reply passes its
    test, takes each number only if it is positive and keeps the former
    value otherwise; the single-file sketch takes both as they read, and
    sets the defaults 60 and 1 when either is zero. *)
Theorem respuesta_del_servidor pre p a cola periodo acumula :
  let B := Parametros.BARRA in
  let respuesta := pre ++ [B] ++ Modular.itoa p ++ [B] ++ Modular.itoa a ++ cola in
  pre <> [] -> (B ∉ pre) -> (B ∉ cola) -> (NUL ∉ respuesta) ->
  fin_de_numero cola ->
  -32768 <= p < 32768 -> -32768 <= a < 32768 ->
  (Parametros.exitoso respuesta = true ->
   Parametros.tras_enviarHTTP respuesta periodo acumula =
     (true, if p >? 0 then p else periodo, if a >? 0 then a else acumula)) /\
  Parametros.tras_loop respuesta periodo acumula =
    (if (p =? 0) || (a =? 0) then (60, 1) else (p, a)).
Proof.
  intros B respuesta Hpre Hb Hcola Hnul Hfin Hp Ha.
  assert (B <> "-"%char) as HB1 by done.
  assert (~ (48 <= nat_of_ascii B <= 57)%nat) as HB2 by (vm_compute; lia).
  assert (strtok B respuesta =
            (Some pre, Modular.itoa p ++ B :: Modular.itoa a ++ cola)) as E1
    by (by apply strtok_token).
  assert (strtok B (Modular.itoa p ++ B :: Modular.itoa a ++ cola) =
            (Some (Modular.itoa p), Modular.itoa a ++ cola)) as E2
    by (apply strtok_token; [apply itoa_no_vacio|by apply itoa_sin]).
  assert (strtok B (Modular.itoa a ++ cola) = (Some (Modular.itoa a ++ cola), [])) as E3.
  { apply strtok_ultimo.
    - intros H. apply app_eq_nil in H as [H _]. by apply itoa_no_vacio in H.
    - rewrite not_elem_of_app. split; [by apply itoa_sin|done]. }
  assert (Libc.atoi (Modular.itoa p) = p) as Ep.
  { rewrite <- (app_nil_r (Modular.itoa p)). by apply atoi_itoa_cola. }
  assert (Libc.atoi (Modular.itoa a ++ cola) = a) as Ea by (by apply atoi_itoa_cola).
  split.
  - intros Hex. unfold Parametros.tras_enviarHTTP.
    rewrite (cstr_id respuesta Hnul), Hex. fold B. rewrite E1, E2, E3.
    unfold Parametros.nuevo_valor. by rewrite Ep, Ea.
  - unfold Parametros.tras_loop.
    rewrite (cstr_id respuesta Hnul). fold B. rewrite E1, E2, E3.
    unfold Parametros.valor_leido. by rewrite Ep, Ea.
Qed.

Lemma respuesta_del_servidor_testigo :
  let B := Parametros.BARRA in
  let respuesta :=
    texto "OK" ++ [B] ++ Modular.itoa (-5) ++ [B] ++ Modular.itoa 3 ++ [CR; LF] in
  Parametros.tras_enviarHTTP respuesta 60 1 = (true, 60, 3) /\
  Parametros.tras_loop respuesta 60 1 = (-5, 3).
Proof.
  destruct (respuesta_del_servidor (texto "OK") (-5) 3 [CR; LF] 60 1
              ltac:(discriminate)
              ltac:(apply ausente_b; vm_compute; reflexivity)
              ltac:(apply ausente_b; vm_compute; reflexivity)
              ltac:(apply ausente_b; vm_compute; reflexivity)
              ltac:(vm_compute; reflexivity)
              ltac:(lia) ltac:(lia)) as [H1 H2].
  split; [apply H1; vm_compute; reflexivity|exact H2].
Defined.

(** X17.  Whatever the modem hands back, [enviarHTTP] of the v2.0 sketch leaves
    [periodo] and [acumula] positive if they were: a value is replaced only
    by one that reads as a positive [int]. *)
Theorem parametros_v2_siempre_positivos respuesta periodo acumula :
  0 < periodo -> 0 < acumula ->
  let r := Parametros.tras_enviarHTTP respuesta periodo acumula in
  0 < r.1.2 /\ 0 < r.2 /\
  (r.1.2 = periodo \/ r.1.2 < 32768) /\ (r.2 = acumula \/ r.2 < 32768).
Proof.
  intros Hp Ha.
  assert (forall t v, 0 < v ->
            0 < Parametros.nuevo_valor t v /\
            (Parametros.nuevo_valor t v = v \/ Parametros.nuevo_valor t v < 32768)) as H.
  { intros [t|] v Hv; [|by split; [|left]]. unfold Parametros.nuevo_valor, Libc.atoi.
    pose proof (int16_rango (Respaldo.toInt t)).
    destruct (Z.gtb_spec (int16 (Respaldo.toInt t)) 0); split; try lia; by left. }
  unfold Parametros.tras_enviarHTTP.
  destruct (Parametros.exitoso _); [|cbn; repeat split; try lia; by left].
  destruct (strtok _ (cstr respuesta)) as [t0 r1].
  destruct (strtok _ r1) as [t1 r2]. destruct (strtok _ r2) as [t2 r3].
  cbn [fst snd]. destruct (H t1 periodo Hp), (H t2 acumula Ha). done.
Qed.

Lemma parametros_v2_siempre_positivos_testigo :
  let r := Parametros.tras_enviarHTTP (texto "OK|0|-7") 60 1 in
  0 < r.1.2 /\ 0 < r.2 /\
  (r.1.2 = 60 \/ r.1.2 < 32768) /\ (r.2 = 1 \/ r.2 < 32768).
Proof.
  apply (parametros_v2_siempre_positivos (texto "OK|0|-7") 60 1); lia.
Defined.

(* ===================================================================== *)
(** * The battery check                                                   *)
(* ===================================================================== *)

Section Contador.

Lemma tras_lecturas_app leer xs ys c :
  Bateria.tras_lecturas leer (xs ++ ys) c =
  Bateria.tras_lecturas leer ys (Bateria.tras_lecturas leer xs c).
Proof. unfold Bateria.tras_lecturas. by rewrite fold_left_app. Qed.

Lemma tras_lecturas_cons leer v vs c :
  Bateria.tras_lecturas leer (v :: vs) c =
  Bateria.tras_lecturas leer vs (leer v c).
Proof. done. Qed.

Lemma tras_lecturas_bajas leer bajas c :
  (forall v k, baja v -> leer v k = int16 (k + 1)) ->
  Forall baja bajas -> 0 <= c -> c + Z.of_nat (length bajas) < 32768 ->
  Bateria.tras_lecturas leer bajas c = c + Z.of_nat (length bajas).
Proof.
  intros Hleer Hb. revert c; induction Hb as [|v bajas Hv Hb IH]; intros c Hc Hlen.
  - cbn. lia.
  - cbn [length] in Hlen. cbn [Bateria.tras_lecturas fold_left].
    rewrite Hleer by done. rewrite int16_id by lia.
    unfold Bateria.tras_lecturas in IH. rewrite IH by lia. cbn [length]. lia.
Qed.

Lemma leerBateria_baja v k : baja v -> Bateria.leerBateria v k = int16 (k + 1).
Proof.
  intros [H1 H2]. unfold Bateria.leerBateria.
  destruct (Z.gtb_spec v 3000); [|lia]. destruct (Z.ltb_spec v 3300); [|lia]. done.
Qed.

Lemma GetBateria_baja v k : baja v -> Bateria.GetBateria v k = int16 (k + 1).
Proof.
  intros [H1 H2]. unfold Bateria.GetBateria.
  destruct (Z.gtb_spec v 3000); [|lia]. destruct (Z.ltb_spec v 3300); [|lia]. done.
Qed.

End Contador.

(** X18.  The low-battery counter holds the number of low readings (above 3000
    and below 3300 mV) since the last reading that cleared it, so that the
    check of [loop] stops the board for good exactly when more than 25 low
    readings came in a row.  A reading clears the counter when it is at
    least 3300 mV in the v2.0 sketch, and when it is above 3300 and below
    4200 mV in the two other sketches. *)
Theorem contador_de_bateria_baja previas v bajas c :
  Forall baja bajas ->
  Z.of_nat (length bajas) < 32768 ->
  (3300 <= v ->
   let k := Bateria.tras_lecturas Bateria.leerBateria (previas ++ v :: bajas) c in
   k = Z.of_nat (length bajas) /\
   (Bateria.critica k = true <-> (25 < length bajas)%nat)) /\
  (3300 < v < 4200 ->
   let k := Bateria.tras_lecturas Bateria.GetBateria (previas ++ v :: bajas) c in
   k = Z.of_nat (length bajas) /\
   (Bateria.critica k = true <-> (25 < length bajas)%nat)).
Proof.
  intros Hb Hlen.
  assert (forall k, k = Z.of_nat (length bajas) ->
            (Bateria.critica k = true <-> (25 < length bajas)%nat)) as Hcrit.
  { intros k ->. unfold Bateria.critica, Bateria.UMBRAL_BATERIA_BAJA.
    destruct (Z.gtb_spec (Z.of_nat (length bajas)) 25); split; intros; try lia; done. }
  split; intros Hv k; subst k.
  - assert (Bateria.tras_lecturas Bateria.leerBateria (previas ++ v :: bajas) c
            = Z.of_nat (length bajas)) as E.
    { assert (forall c', Bateria.leerBateria v c' = 0) as Hz.
      { intros c'. unfold Bateria.leerBateria.
        destruct (Z.ltb_spec v 3300); [lia|]. rewrite andb_false_r.
        destruct (Z.geb_spec v 3300); [done|lia]. }
      rewrite tras_lecturas_app, tras_lecturas_cons, Hz.
      rewrite (tras_lecturas_bajas Bateria.leerBateria bajas 0
                 leerBateria_baja Hb) by lia. lia. }
    split; [done|by apply Hcrit].
  - assert (Bateria.tras_lecturas Bateria.GetBateria (previas ++ v :: bajas) c
            = Z.of_nat (length bajas)) as E.
    { assert (forall c', Bateria.GetBateria v c' = 0) as Hz.
      { intros c'. unfold Bateria.GetBateria.
        destruct (Z.ltb_spec v 3300); [lia|]. rewrite andb_false_r.
        destruct (Z.gtb_spec v 3300); [|lia].
        destruct (Z.ltb_spec v 4200); [done|lia]. }
      rewrite tras_lecturas_app, tras_lecturas_cons, Hz.
      rewrite (tras_lecturas_bajas Bateria.GetBateria bajas 0
                 GetBateria_baja Hb) by lia. lia. }
    split; [done|by apply Hcrit].
Qed.

Lemma contador_de_bateria_baja_testigo :
  let lecturas := [3100; 3100] ++ 3900 :: [3200; 3250; 3100] in
  (let k := Bateria.tras_lecturas Bateria.leerBateria lecturas 7 in
   k = Z.of_nat (length [3200; 3250; 3100]) /\
   (Bateria.critica k = true <-> (25 < length [3200; 3250; 3100])%nat)) /\
  (let k := Bateria.tras_lecturas Bateria.GetBateria lecturas 7 in
   k = Z.of_nat (length [3200; 3250; 3100]) /\
   (Bateria.critica k = true <-> (25 < length [3200; 3250; 3100])%nat)).
Proof.
  destruct (contador_de_bateria_baja [3100; 3100] 3900 [3200; 3250; 3100] 7
              ltac:(repeat constructor; unfold baja; lia)
              ltac:(vm_compute; reflexivity)) as [H1 H2].
  split; [apply H1; lia|apply H2; lia].
Defined.

(** X19.  In the single-file and the v3.0 sketch readings of 4200 mV or more, of
    exactly 3300 mV, or of 3000 mV or less (what [atoi] gives on an answer
    it cannot read) leave the counter as it is: a battery that is charged
    again to such a voltage does not clear a counter above 25.  In the
    v2.0 sketch one reading of 3300 mV or more clears the counter. *)
Theorem lecturas_que_no_limpian_el_contador lecturas c :
  Forall (fun v => v <= 3000 \/ v = 3300 \/ 4200 <= v) lecturas ->
  Bateria.tras_lecturas Bateria.GetBateria lecturas c = c /\
  (Exists (fun v => 3300 <= v) lecturas ->
   Forall (fun v => v <= 3000 \/ 3300 <= v) lecturas ->
   Bateria.tras_lecturas Bateria.leerBateria lecturas c = 0).
Proof.
  intros H. split.
  - revert c; induction H as [|v vs Hv Hvs IH]; intros c; [done|].
    cbn [Bateria.tras_lecturas fold_left].
    assert (Bateria.GetBateria v c = c) as ->; [|apply IH].
    unfold Bateria.GetBateria.
    destruct (Z.gtb_spec v 3000), (Z.ltb_spec v 3300), (Z.gtb_spec v 3300),
      (Z.ltb_spec v 4200); cbn; try done; lia.
  - clear H. intros Hex Hall.
    assert (forall vs k, Forall (fun v => v <= 3000 \/ 3300 <= v) vs ->
              Bateria.tras_lecturas Bateria.leerBateria vs k = k \/
              Bateria.tras_lecturas Bateria.leerBateria vs k = 0) as Hstep.
    { intros vs k Hvs. revert k; induction Hvs as [|v vs Hv Hvs IH]; intros k;
        [by left|].
      cbn [Bateria.tras_lecturas fold_left].
      assert (Bateria.leerBateria v k = k \/ Bateria.leerBateria v k = 0) as [->| ->].
      { unfold Bateria.leerBateria.
        destruct (Z.gtb_spec v 3000), (Z.ltb_spec v 3300), (Z.geb_spec v 3300);
          cbn; try lia; auto. }
      - apply IH.
      - destruct (IH 0) as [E|E]; right; exact E. }
    revert c; induction Hall as [|v vs Hv Hvs IH]; intros c.
    + by apply Exists_nil in Hex.
    + cbn [Bateria.tras_lecturas fold_left].
      apply Exists_cons in Hex as [Hex|Hex].
      * assert (Bateria.leerBateria v c = 0) as ->.
        { unfold Bateria.leerBateria.
          destruct (Z.ltb_spec v 3300); [lia|]. rewrite andb_false_r.
          destruct (Z.geb_spec v 3300); [done|lia]. }
        destruct (Hstep vs 0 Hvs) as [E|E]; exact E.
      * assert (Bateria.leerBateria v c = c \/ Bateria.leerBateria v c = 0) as [->| ->].
        { unfold Bateria.leerBateria.
          destruct (Z.gtb_spec v 3000), (Z.ltb_spec v 3300), (Z.geb_spec v 3300);
            cbn; try lia; auto. }
        -- by apply IH.
        -- destruct (Hstep vs 0 Hvs) as [E|E]; exact E.
Qed.

Lemma lecturas_que_no_limpian_el_contador_testigo :
  Bateria.tras_lecturas Bateria.GetBateria [4200; 4250; 3300] 26 = 26 /\
  Bateria.tras_lecturas Bateria.leerBateria [4200; 4250; 3300] 26 = 0.
Proof.
  destruct (lecturas_que_no_limpian_el_contador [4200; 4250; 3300] 26
              ltac:(repeat constructor; lia)) as [H1 H2].
  split; [exact H1|]. apply H2.
  - apply Exists_cons_hd. lia.
  - repeat constructor; lia.
Defined.

(* ===================================================================== *)
(** * The buffers of one cycle                                            *)
(* ===================================================================== *)

Section Buffers.

Lemma itoa_breve_ok k n i :
  itoa_breve k n = true -> n <= i < n + Z.of_nat k ->
  (length (Modular.itoa i) <= 6)%nat.
Proof.
  revert n; induction k as [|k IH]; intros n H Hi; [lia|].
  cbn [itoa_breve] in H. apply andb_prop in H as [H1 H2].
  destruct (Z.eq_dec i n) as [->|Hne]; [lia|].
  apply (IH (n + 1)); [done|lia].
Qed.

Lemma length_itoa n :
  -32768 <= n < 32768 -> (1 <= length (Modular.itoa n) <= 6)%nat.
Proof.
  intros Hn. split.
  - pose proof (itoa_no_vacio n). destruct (Modular.itoa n); [done|simpl; lia].
  - apply (itoa_breve_ok (Z.to_nat 65536) (-32768)); [vm_compute; reflexivity|lia].
Qed.

Lemma length_buffer_de otras b :
  Forall (fun v => -32768 <= v < 32768) otras ->
  (length b + 2 * length otras <= length (fold_left Acumulacion.acumular otras b)
   <= length b + 7 * length otras)%nat.
Proof.
  intros H. revert b; induction H as [|v otras Hv Hvs IH]; intros b.
  - cbn. lia.
  - cbn [fold_left length]. specialize (IH (Acumulacion.acumular b v)).
    assert (length (Acumulacion.acumular b v) =
              (length b + 1 + length (Modular.itoa v))%nat) as E.
    { unfold Acumulacion.acumular. rewrite !length_app. cbn [length]. lia. }
    rewrite E in IH. pose proof (length_itoa v Hv). lia.
Qed.

End Buffers.

(** X20.  The three 50-byte buffers that [loop] of the v2.0 sketch fills with
    [itoa] and [strcat] hold the readings of a cycle, bars and terminator
    included, whenever [acumula] is at most 7, and never when it is 26 or
    more, whatever the readings are. *)
Theorem los_buffers_de_enteros_y_acumula primera otras :
  -32768 <= primera < 32768 ->
  Forall (fun v => -32768 <= v < 32768) otras ->
  let acumula := S (length otras) in
  ((acumula <= 7)%nat ->
   Acumulacion.cabe (Acumulacion.buffer_de primera otras) = true) /\
  ((26 <= acumula)%nat ->
   Acumulacion.cabe (Acumulacion.buffer_de primera otras) = false).
Proof.
  intros Hp Ho acumula. subst acumula.
  pose proof (length_itoa primera Hp) as H1.
  pose proof (length_buffer_de otras (Modular.itoa primera) Ho) as H2.
  unfold Acumulacion.cabe, Acumulacion.buffer_de, Acumulacion.TAM.
  split; intros H.
  - apply Z.leb_le. lia.
  - apply Z.leb_gt. lia.
Qed.

Lemma los_buffers_de_enteros_y_acumula_testigo :
  Acumulacion.cabe (Acumulacion.buffer_de 88 [87; 86; 85]) = true /\
  Acumulacion.cabe (Acumulacion.buffer_de 9 (replicate 25 9)) = false.
Proof.
  split.
  - apply (proj1 (los_buffers_de_enteros_y_acumula 88 [87; 86; 85]
                    ltac:(lia) ltac:(repeat constructor; lia))).
    simpl. lia.
  - apply (proj2 (los_buffers_de_enteros_y_acumula 9 (replicate 25 9)
                    ltac:(lia) ltac:(repeat constructor; lia))).
    simpl. lia.
Defined.

(* ===================================================================== *)
(** * The dissolved-oxygen reading                                        *)
(* ===================================================================== *)

Section OD.

Lemma adc_voltage_exacto adc_raw :
  0 <= adc_raw <= 1023 ->
  Oxigeno.adc_voltage adc_raw = 5000 * adc_raw / 1024 /\
  0 <= 5000 * adc_raw / 1024 <= 4995.
Proof.
  intros H. unfold Oxigeno.adc_voltage, Oxigeno.uint16, Oxigeno.DO_VREF,
    Oxigeno.DO_ADC_RES.
  rewrite uint32_id by lia.
  assert (0 <= 5000 * adc_raw / 1024 <= 4995) as Hq.
  { split; [apply Z.div_pos; lia|].
    apply Z.lt_succ_r, Z.div_lt_upper_bound; lia. }
  split; [|done]. apply Z.mod_small. lia.
Qed.

Lemma DO_ug_en_tabla adc_raw temp tabla vsat :
  0 <= adc_raw <= 1023 -> 0 <= temp <= 40 ->
  Oxigeno.DO_Table !! Z.to_nat temp = Some tabla ->
  Oxigeno.V_saturation temp = vsat ->
  0 < vsat -> 0 <= tabla <= 14460 ->
  3281 * tabla < 65536 * vsat ->
  Oxigeno.DO_ug adc_raw temp =
    Some ((5000 * adc_raw / 1024 * tabla / vsat) mod 65536) /\
  (adc_raw <= 672 ->
   Oxigeno.DO_ug adc_raw temp = Some (5000 * adc_raw / 1024 * tabla / vsat)).
Proof.
  intros Ha Ht Htab Hv Hpos Hrango Hcota.
  destruct (adc_voltage_exacto adc_raw Ha) as [Ev Hq].
  assert (Oxigeno.DO_ug adc_raw temp =
            Some ((5000 * adc_raw / 1024 * tabla / vsat) mod 65536)) as E.
  { unfold Oxigeno.DO_ug.
    destruct (Z.gtb_spec temp 40); [lia|]. rewrite Htab, Hv.
    destruct (Z.eqb_spec vsat 0); [lia|]. rewrite Ev.
    rewrite uint32_id by nia. done. }
  split; [done|]. intros Hraw. rewrite E. f_equal. apply Z.mod_small.
  assert (5000 * adc_raw / 1024 <= 3281) as Hq'
    by (apply Z.lt_succ_r, Z.div_lt_upper_bound; lia).
  split; [apply Z.div_pos; nia|].
  apply Z.div_lt_upper_bound; [lia|]. nia.
Qed.

End OD.

(** X21.  [leerOxigenoDisuelto] for every reading of the 10-bit converter and
    every temperature as an 8-bit value: the table is read inside its 41
    entries, the saturation voltage is never zero, and the microgrammes per
    litre are the quotient of the calibration formula cut to 16 bits.  Up
    to a reading of 672 nothing is cut; at 673 and 0 degrees the quotient
    no longer fits and the result is 2. *)
Theorem oxigeno_disuelto_en_16_bits adc_raw temperatura :
  0 <= adc_raw <= 1023 -> 0 <= temperatura <= 255 ->
  let temp := Z.min temperatura 40 in
  (exists tabla,
     Oxigeno.DO_Table !! Z.to_nat temp = Some tabla /\
     Oxigeno.DO_ug adc_raw temperatura =
       Some ((5000 * adc_raw / 1024 * tabla / (725 + 35 * temp)) mod 65536) /\
     (adc_raw <= 672 ->
      Oxigeno.DO_ug adc_raw temperatura =
        Some (5000 * adc_raw / 1024 * tabla / (725 + 35 * temp)))) /\
  Oxigeno.DO_ug 673 0 = Some 2.
Proof.
  intros Ha Ht temp. split; [|vm_compute; reflexivity].
  assert (Oxigeno.DO_ug adc_raw temperatura = Oxigeno.DO_ug adc_raw temp) as ->.
  { unfold Oxigeno.DO_ug, temp.
    destruct (Z.gtb_spec temperatura 40).
    - rewrite Z.min_r by lia. done.
    - rewrite Z.min_l by lia.
      destruct (Z.gtb_spec temperatura 40); [lia|done]. }
  assert (0 <= temp <= 40) as Hrango by (unfold temp; lia).
  clearbody temp.
  assert (exists n : nat, temp = Z.of_nat n /\ (n <= 40)%nat) as (n & -> & Hn)
    by (exists (Z.to_nat temp); lia).
  do 41 (destruct n as [|n];
         [eexists; split; [reflexivity|];
          apply DO_ug_en_tabla; try done; try lia; vm_compute; reflexivity|]).
  lia.
Qed.

Lemma oxigeno_disuelto_en_16_bits_testigo :
  exists tabla,
    Oxigeno.DO_Table !! Z.to_nat (Z.min 25 40) = Some tabla /\
    Oxigeno.DO_ug 300 25 =
      Some (5000 * 300 / 1024 * tabla / (725 + 35 * Z.min 25 40)).
Proof.
  destruct (proj1 (oxigeno_disuelto_en_16_bits 300 25 ltac:(lia) ltac:(lia)))
    as (tabla & H1 & _ & H3).
  exists tabla. split; [exact H1|]. apply H3. lia.
Defined.

(* ===================================================================== *)
(** * The v3.0 record, written and read back                              *)
(* ===================================================================== *)

Section IdaYVueltaV3.

Lemma itoa_valido n : campo_valido (Modular.itoa n).
Proof.
  split; [apply itoa_no_vacio|].
  repeat split; apply itoa_sin; try done; vm_compute; lia.
Qed.

Lemma campo_valido_limpio f c : campo_valido f -> c ∈ [NUL; LF; CR] -> c ∉ f.
Proof.
  intros (_ & H1 & H2 & H3 & _) Hc.
  apply elem_of_cons in Hc as [->|Hc]; [done|].
  apply elem_of_cons in Hc as [->|Hc]; [done|].
  by apply list_elem_of_singleton in Hc as ->.
Qed.

End IdaYVueltaV3.

(** X22.  The v3.0 drain reads back what [generarLineaCSV] wrote.  When the
    three renderings of [dtostrf] are not empty and hold no NUL, line break
    or semicolon, and the line fits the 150-byte buffer, the line read from
    the head of the pending log is the line written, its seven tokens are
    the seven fields, and the timestamp, the battery level, the voltage
    and the coverage come out of [atol] and [atoi] as the numbers that
    went in. *)
Theorem ida_y_vuelta_del_registro_v3
  (flotante : Type) (dtostrf : flotante -> Z -> Z -> bytes)
  (e : Modular.Estado flotante) datos ls :
  let t := dtostrf (Modular.temperatura _ datos) 5 2 in
  let c := dtostrf (Modular.conductividad _ datos) 6 1 in
  let o := dtostrf (Modular.oxigeno_disuelto _ datos) 5 2 in
  let l := Modular.generarLineaCSV dtostrf datos in
  Modular.montada e = true ->
  campo_valido t -> campo_valido c -> campo_valido o ->
  0 <= Modular.timestamp _ datos < 4294967296 ->
  -32768 <= Modular.bateria _ datos < 32768 ->
  -32768 <= Modular.voltaje _ datos < 32768 ->
  -32768 <= Modular.cobertura_gsm _ datos < 32768 ->
  (length l <= 149)%nat ->
  Modular.sd e !! Modular.ARCHIVO_PENDIENTES = Some (archivo_de (l :: ls)) ->
  exists t0 t4 t5 t6,
    Modular.leerPrimeraLinea e Modular.ARCHIVO_PENDIENTES = Some l /\
    Modular.tokens 7 l =
      [Some t0; Some t; Some c; Some o; Some t4; Some t5; Some t6] /\
    uint32 (Respaldo.toInt t0) = Modular.timestamp _ datos /\
    Libc.atoi t4 = Modular.bateria _ datos /\
    Libc.atoi t5 = Modular.voltaje _ datos /\
    Libc.atoi t6 = Modular.cobertura_gsm _ datos.
Proof.
  intros t c o l Hm Ht Hc Ho Hts Hb Hv Hg Hlen Hp.
  pose proof (decimal_valido (Modular.timestamp _ datos)) as H0.
  pose proof (itoa_valido (Modular.bateria _ datos)) as H4.
  pose proof (itoa_valido (Modular.voltaje _ datos)) as H5.
  pose proof (itoa_valido (Modular.cobertura_gsm _ datos)) as H6.
  assert (l = decimal (Modular.timestamp _ datos) ++ PYC :: t ++ PYC :: c
              ++ PYC :: o ++ PYC :: Modular.itoa (Modular.bateria _ datos)
              ++ PYC :: Modular.itoa (Modular.voltaje _ datos)
              ++ PYC :: Modular.itoa (Modular.cobertura_gsm _ datos)) as El.
  { subst l. unfold Modular.generarLineaCSV, Modular.ultoa. fold t c o.
    by rewrite !campo_valido_cstr. }
  assert (registro l) as Hreg.
  { split; [|split; [|done]].
    - rewrite El. destruct (decimal_cabeza (Modular.timestamp _ datos))
        as (a & r & -> & _). done.
    - intros x Hx. rewrite El.
      assert (x <> PYC) by (by apply control_no_pyc).
      repeat (rewrite not_elem_of_app || rewrite not_elem_of_cons).
      repeat split; try done; by apply campo_valido_limpio. }
  exists (decimal (Modular.timestamp _ datos)),
    (Modular.itoa (Modular.bateria _ datos)),
    (Modular.itoa (Modular.voltaje _ datos)),
    (Modular.itoa (Modular.cobertura_gsm _ datos)).
  split; [by apply (leerPrimeraLinea_registro e l ls)|]. split.
  - rewrite El. apply campo_valido_campo in Ht, Hc, Ho, H0, H4, H5, H6.
    cbn [Modular.tokens].
    rewrite !strtok_campo by done. by rewrite strtok_final.
  - split; [rewrite uint32_toInt, valor_decimal_decimal by lia; by apply uint32_id|].
    unfold Libc.atoi. rewrite !int16_toInt, !valor_decimal_itoa. by rewrite !int16_id.
Qed.

Lemma ida_y_vuelta_del_registro_v3_testigo :
  let dtostrf := fun (x : Z) (_ _ : Z) => decimal x in
  let datos := Modular.mkDatos 21 1413 8 87 3900 18 300 in
  let l := Modular.generarLineaCSV dtostrf datos in
  let e := Modular.mkEstado (flotante := Z) true
             (<[Modular.ARCHIVO_PENDIENTES := archivo_de [l]]> ∅) [] [] in
  exists t0 t4 t5 t6,
    Modular.leerPrimeraLinea e Modular.ARCHIVO_PENDIENTES = Some l /\
    Modular.tokens 7 l =
      [Some t0; Some (decimal 21); Some (decimal 1413); Some (decimal 8);
       Some t4; Some t5; Some t6] /\
    uint32 (Respaldo.toInt t0) = 300 /\
    Libc.atoi t4 = 87 /\ Libc.atoi t5 = 3900 /\ Libc.atoi t6 = 18.
Proof.
  apply (ida_y_vuelta_del_registro_v3 Z (fun (x : Z) (_ _ : Z) => decimal x)
           (Modular.mkEstado true
              (<[Modular.ARCHIVO_PENDIENTES :=
                   archivo_de [Modular.generarLineaCSV
                                 (fun (x : Z) (_ _ : Z) => decimal x)
                                 (Modular.mkDatos 21 1413 8 87 3900 18 300)]]> ∅)
              [] [])
           (Modular.mkDatos 21 1413 8 87 3900 18 300) []).
  - reflexivity.
  - apply decimal_valido.
  - apply decimal_valido.
  - apply decimal_valido.
  - cbn. lia.
  - cbn. lia.
  - cbn. lia.
  - cbn. lia.
  - vm_compute. lia.
  - vm_compute. reflexivity.
Defined.

Section DrenajeV3.
Context {flotante : Type} (dtostrf : flotante -> Z -> Z -> bytes).





End DrenajeV3.




(* ===================================================================== *)
(** * What the v2.0 sketch transmits                                      *)
(* ===================================================================== *)

Section Transmisiones.
Import Optimizado.

(** A drain on a pending log of one readable line, with the link up. *)
Lemma drenaje_de_una_linea e l m :
  sdDisponible e = true -> limpia l -> (length l <= 118)%nat ->
  sd e !! ARCHIVO_PENDIENTES = Some (l ++ [CR; LF]) ->
  sd e !! TEMP_TMP = None ->
  parsear (l ++ [CR]) = Campos m ->
  hd false (red e) = true ->
  exists e',
    reintentarPendientes e = (e', 1, 1) /\
    sd e' !! ARCHIVO_PENDIENTES = Some [] /\
    sd e' !! ARCHIVO_ENVIADOS =
      Some (default [] (sd e !! ARCHIVO_ENVIADOS) ++ l ++ [CR; CR; LF]) /\
    traza e' = traza e ++ [(m, true)].
Proof.
  intros Hd Hl Hn Hp Ht Hpar Hr.
  unfold reintentarPendientes, contarLineas. rewrite Hd, Hp. cbn [negb].
  assert (contarLineas_bucle (l ++ [CR; LF]) 0 = 1) as ->.
  { rewrite contarLineas_bucle_exacto.
    - replace (l ++ [CR; LF]) with ((l ++ [CR]) ++ LF :: []) by (by rewrite <- app_assoc).
      unfold lineas. rewrite lineas_desde_linea by (by apply limpia_sin_lf_cr). done.
    - lia.
    - replace (l ++ [CR; LF]) with ((l ++ [CR]) ++ LF :: []) by (by rewrite <- app_assoc).
      unfold lineas. rewrite lineas_desde_linea by (by apply limpia_sin_lf_cr).
      cbn. lia. }
  change (1 =? 0) with false. cbv iota.
  change (Z.to_nat MAX_REINTENTOS) with 3%nat.
  cbn [reintentar_bucle]. change ((0 <? MAX_REINTENTOS) && (0 <? 1)) with true.
  cbv iota.
  destruct (iteracion_enviada e l [] 0 0 m) as (e' & -> & G1 & G2 & G3 & G4 & G5 & G6);
    try done.
  change ((0 + 1 <? MAX_REINTENTOS) && (0 + 1 <? 1)) with false. cbv iota.
  exists e'. rewrite G2, G4, G6, Ht. cbn [from_option id app].
  repeat split; try done. by rewrite <- !app_assoc.
Qed.

End Transmisiones.

(** X23.  On a card without pending log the first drain after [setup] takes the
    header for a record: with the link up it sends one request whose values
    are the column names and moves the header line to the sent log. *)
Theorem el_encabezado_se_envia_como_medicion
  (tarjeta : gmap string bytes) enlace hechos :
  tarjeta !! Optimizado.ARCHIVO_PENDIENTES = None ->
  tarjeta !! Optimizado.TEMP_TMP = None ->
  hd false enlace = true ->
  let e := Optimizado.setup true tarjeta enlace hechos in
  exists e',
    Optimizado.reintentarPendientes e = (e', 1, 1) /\
    Optimizado.traza e' = hechos ++ [(envio_del_encabezado, true)] /\
    Optimizado.sd e' !! Optimizado.ARCHIVO_PENDIENTES = Some [] /\
    Optimizado.sd e' !! Optimizado.ARCHIVO_ENVIADOS =
      Some (default [] (Optimizado.sd e !! Optimizado.ARCHIVO_ENVIADOS)
            ++ Optimizado.ENCABEZADO ++ [CR; CR; LF]).
Proof.
  intros Hp Ht Hr e.
  assert (Optimizado.sd e !! Optimizado.ARCHIVO_PENDIENTES =
            Some (Optimizado.ENCABEZADO ++ [CR; LF])) as Hp'.
  { subst e. rewrite setup_pendientes by done. unfold println.
    by rewrite cstr_encabezado. }
  assert (Optimizado.sd e !! Optimizado.TEMP_TMP = None) as Ht'.
  { subst e. cbn [Optimizado.setup Optimizado.sd].
    unfold Optimizado.crear_si_falta. rewrite Hp.
    destruct (anexar tarjeta Optimizado.ARCHIVO_PENDIENTES _ !! Optimizado.ARCHIVO_ENVIADOS);
      rewrite ?lookup_anexar_ne by done; by rewrite ?lookup_anexar_ne by done. }
  destruct (drenaje_de_una_linea e Optimizado.ENCABEZADO envio_del_encabezado)
    as (e' & E & H1 & H2 & H3); try done.
  - apply limpia_b_ok. vm_compute. reflexivity.
  - vm_compute. lia.
  - exists e'. by rewrite H3.
Qed.

Lemma el_encabezado_se_envia_como_medicion_testigo :
  let e := Optimizado.setup true ∅ [true] [] in
  exists e',
    Optimizado.reintentarPendientes e = (e', 1, 1) /\
    Optimizado.traza e' = [] ++ [(envio_del_encabezado, true)] /\
    Optimizado.sd e' !! Optimizado.ARCHIVO_PENDIENTES = Some [] /\
    Optimizado.sd e' !! Optimizado.ARCHIVO_ENVIADOS =
      Some (default [] (Optimizado.sd e !! Optimizado.ARCHIVO_ENVIADOS)
            ++ Optimizado.ENCABEZADO ++ [CR; CR; LF]).
Proof.
  apply (el_encabezado_se_envia_como_medicion ∅ [true] []).
  - reflexivity.
  - reflexivity.
  - reflexivity.
Defined.

(** X24.  With the pending log empty and the link up, a cycle of the v2.0 sketch
    transmits its record and leaves it in the pending log (one line is not
    "more than one"), so the drain of the next cycle transmits the same
    record a second time before it promotes it. *)
Theorem cada_registro_se_envia_dos_veces e ms m :
  Optimizado.sdDisponible e = true ->
  Optimizado.sd e !! Optimizado.ARCHIVO_PENDIENTES = Some [] ->
  Optimizado.sd e !! Optimizado.TEMP_TMP = None ->
  hd false (Optimizado.red e) = true ->
  hd false (tl (Optimizado.red e)) = true ->
  medicion_valida m ->
  let l := Optimizado.lineaCSV (uint32 (Optimizado.contadorMediciones e + 1)) ms m in
  (length l <= 118)%nat ->
  let e1 := Optimizado.loop e ms m in
  Optimizado.sd e1 !! Optimizado.ARCHIVO_PENDIENTES = Some (l ++ [CR; LF]) /\
  Optimizado.sd e1 !! Optimizado.ARCHIVO_ENVIADOS =
    Optimizado.sd e !! Optimizado.ARCHIVO_ENVIADOS /\
  Optimizado.traza e1 = Optimizado.traza e ++ [(m, true)] /\
  exists e2 m',
    Optimizado.reintentarPendientes e1 = (e2, 1, 1) /\
    Optimizado.traza e2 = Optimizado.traza e ++ [(m, true); (m', true)] /\
    e_temp m' = e_temp m /\ e_cond m' = e_cond m /\ e_bat m' = e_bat m /\
    e_volt m' = e_volt m /\ e_cob m' = e_cob m ++ [CR] /\
    Optimizado.sd e2 !! Optimizado.ARCHIVO_PENDIENTES = Some [].
Proof.
  intros Hd Hp Ht Hr1 Hr2 Hm l Hlen e1.
  assert (Optimizado.reintentarPendientes e = (e, 0, 0)) as Edr.
  { unfold Optimizado.reintentarPendientes, Optimizado.contarLineas.
    by rewrite Hd, Hp. }
  assert (e1 =
          Optimizado.mkEstado true (uint32 (Optimizado.contadorMediciones e + 1))
            (Optimizado.bufferLinea e)
            (anexar (Optimizado.sd e) Optimizado.ARCHIVO_PENDIENTES (l ++ [CR; LF]))
            (tl (Optimizado.red e)) (Optimizado.traza e ++ [(m, true)])) as E1.
  { subst e1. unfold Optimizado.loop. rewrite Edr.
    unfold Optimizado.guardarMedicion.
    cbn [Optimizado.sdDisponible Optimizado.con_contador]. rewrite Hd. cbn [negb].
    unfold Optimizado.enviar_inmediato, Optimizado.enviarHTTP.
    cbn [Optimizado.red Optimizado.con_sd Optimizado.con_contador
         Optimizado.sdDisponible Optimizado.contadorMediciones Optimizado.sd
         Optimizado.traza Optimizado.bufferLinea].
    rewrite Hr1, Hd. cbn [andb]. fold l.
    set (e' := Optimizado.mkEstado _ _ _ _ _ _).
    assert (Optimizado.contarLineas e' Optimizado.ARCHIVO_PENDIENTES = 1) as ->.
    { unfold Optimizado.contarLineas. subst e'.
      cbn [Optimizado.sdDisponible Optimizado.sd negb].
      rewrite lookup_anexar_eq, Hp. cbn [from_option id app].
      assert (LF ∉ l ++ [CR]) as Hlf
        by (apply limpia_sin_lf_cr; by apply limpia_lineaCSV).
      replace (l ++ [CR; LF]) with ((l ++ [CR]) ++ LF :: [])
        by (by rewrite <- app_assoc).
      rewrite contarLineas_bucle_exacto;
        unfold lineas; rewrite ?lineas_desde_linea by done; cbn; lia. }
    done. }
  clearbody e1.
  assert (Optimizado.sd e1 !! Optimizado.ARCHIVO_PENDIENTES = Some (l ++ [CR; LF])) as Hp1.
  { rewrite E1. cbn [Optimizado.sd]. by rewrite lookup_anexar_eq, Hp. }
  split; [done|]. split.
  { rewrite E1. cbn [Optimizado.sd]. by rewrite lookup_anexar_ne. }
  split; [by rewrite E1|].
  destruct (drenaje_de_una_linea e1 l
              (mkEnvio (e_temp m) (e_cond m) (e_bat m) (e_volt m) (e_cob m ++ [CR])))
    as (e2 & E & H1 & H2 & H3); try done.
  - by rewrite E1.
  - by apply limpia_lineaCSV.
  - rewrite E1. cbn [Optimizado.sd]. by rewrite lookup_anexar_ne.
  - by apply parsear_linea.
  - by rewrite E1.
  - exists e2, (mkEnvio (e_temp m) (e_cond m) (e_bat m) (e_volt m) (e_cob m ++ [CR])).
    split; [exact E|]. split.
    { rewrite H3, E1. cbn [Optimizado.traza]. by rewrite <- app_assoc. }
    repeat split; done.
Qed.

Lemma cada_registro_se_envia_dos_veces_testigo :
  let e := estado_al_dia in
  let l := Optimizado.lineaCSV (uint32 (Optimizado.contadorMediciones e + 1)) 500 medicion1 in
  let e1 := Optimizado.loop e 500 medicion1 in
  Optimizado.sd e1 !! Optimizado.ARCHIVO_PENDIENTES = Some (l ++ [CR; LF]) /\
  Optimizado.sd e1 !! Optimizado.ARCHIVO_ENVIADOS =
    Optimizado.sd e !! Optimizado.ARCHIVO_ENVIADOS /\
  Optimizado.traza e1 = Optimizado.traza e ++ [(medicion1, true)] /\
  exists e2 m',
    Optimizado.reintentarPendientes e1 = (e2, 1, 1) /\
    Optimizado.traza e2 = Optimizado.traza e ++ [(medicion1, true); (m', true)] /\
    e_temp m' = e_temp medicion1 /\ e_cond m' = e_cond medicion1 /\
    e_bat m' = e_bat medicion1 /\
    e_volt m' = e_volt medicion1 /\ e_cob m' = e_cob medicion1 ++ [CR] /\
    Optimizado.sd e2 !! Optimizado.ARCHIVO_PENDIENTES = Some [].
Proof.
  apply (cada_registro_se_envia_dos_veces estado_al_dia 500 medicion1).
  - reflexivity.
  - vm_compute. reflexivity.
  - vm_compute. reflexivity.
  - reflexivity.
  - reflexivity.
  - apply medicion_valida_b_ok. vm_compute. reflexivity.
  - vm_compute. lia.
Defined.

Section MarcasRepetidas.

Lemma cuerpo_limpio id ms m c :
  medicion_valida m -> c ∈ [NUL; LF; CR] -> c ∉ cuerpo id ms m.
Proof.
  intros (H1 & H2 & H3 & H4 & H5) Hc. unfold cuerpo.
  pose proof (control_no_pyc c Hc).
  repeat (rewrite not_elem_of_app || rewrite not_elem_of_cons).
  repeat split; auto using campo_valido_control, decimal_valido, not_elem_of_nil.
Qed.

Lemma estado_limpio s c :
  s = Respaldo.PENDIENTE \/ s = Respaldo.ENVIADO -> c ∈ [NUL; LF; CR] -> c ∉ s.
Proof.
  intros Hs Hc. apply ausente_b.
  apply elem_of_cons in Hc as [->|Hc]; [by destruct Hs as [-> | ->]|].
  apply elem_of_cons in Hc as [->|Hc]; [by destruct Hs as [-> | ->]|].
  apply list_elem_of_singleton in Hc as ->. by destruct Hs as [-> | ->].
Qed.

Lemma lineas_dos_registros l1 l2 :
  LF ∉ l1 -> LF ∉ l2 ->
  lineas (l1 ++ [CR; LF] ++ l2 ++ [CR; LF]) = [l1 ++ [CR]; l2 ++ [CR]] /\
  cola_desde [] (l1 ++ [CR; LF] ++ l2 ++ [CR; LF]) = [].
Proof.
  intros H1 H2.
  assert (LF ∉ l1 ++ [CR]) as G1
    by (rewrite not_elem_of_app; split; [done|by apply ausente_b]).
  assert (LF ∉ l2 ++ [CR]) as G2
    by (rewrite not_elem_of_app; split; [done|by apply ausente_b]).
  replace (l1 ++ [CR; LF] ++ l2 ++ [CR; LF])
    with ((l1 ++ [CR]) ++ LF :: (l2 ++ [CR]) ++ LF :: [])
    by (by rewrite <- !app_assoc).
  split.
  - unfold lineas. rewrite lineas_desde_linea by done.
    unfold lineas. by rewrite lineas_desde_linea by done.
  - rewrite cola_desde_linea by done. by rewrite cola_desde_linea by done.
Qed.

End MarcasRepetidas.

(** X25.  One mark for every record of the identifier.  The counter of the
    single-file sketch starts again at every boot, so two records waiting
    in [datos.csv] can carry the same identifier; when the request for one
    of them is acknowledged, [marcarComoEnviado] puts ENVIADO on both. *)
Theorem una_marca_para_todos_los_registros_del_identificador
  e id ms1 m1 ms2 m2 :
  Respaldo.sdDisponible e = true ->
  medicion_valida m1 -> medicion_valida m2 ->
  Z.of_nat (length (Respaldo.lineaCSV id ms1 m1)) < 65534 ->
  Z.of_nat (length (Respaldo.lineaCSV id ms2 m2)) < 65534 ->
  Respaldo.sd e !! Respaldo.DATOS_CSV =
    Some (Respaldo.lineaCSV id ms1 m1 ++ [CR; LF]
          ++ Respaldo.lineaCSV id ms2 m2 ++ [CR; LF]) ->
  Respaldo.sd (Respaldo.marcarComoEnviado e id).2 !! Respaldo.DATOS_CSV =
    Some ((cuerpo id ms1 m1 ++ Respaldo.ENVIADO) ++ [CR; LF]
          ++ (cuerpo id ms2 m2 ++ Respaldo.ENVIADO) ++ [CR; LF]).
Proof.
  intros Hd Hm1 Hm2 Hl1 Hl2 Hf.
  assert (forall ms m, medicion_valida m -> forall c, c ∈ [NUL; LF; CR] ->
            c ∉ Respaldo.lineaCSV id ms m) as Hlimpia.
  { intros ms m Hm c Hc. rewrite lineaCSV_cuerpo, not_elem_of_app.
    split; [by apply cuerpo_limpio|apply estado_limpio; [by left|done]]. }
  assert (forall ms m, medicion_valida m ->
            Z.of_nat (length (Respaldo.lineaCSV id ms m)) < 65534 ->
            Respaldo.marcar_linea id (Respaldo.lineaCSV id ms m ++ [CR]) ++ [CR; LF] =
              (cuerpo id ms m ++ Respaldo.ENVIADO) ++ [CR; LF]) as Hmarca.
  { intros ms m Hm Hl. rewrite marcar_linea_propia.
    - done.
    - destruct Hm as ((_ & H1 & _) & (_ & H2 & _) & (_ & H3 & _)
                      & (_ & H4 & _) & (_ & H5 & _)). by repeat split.
    - by apply ausente_b.
    - rewrite length_app. cbn [length]. lia. }
  destruct (lineas_dos_registros (Respaldo.lineaCSV id ms1 m1)
              (Respaldo.lineaCSV id ms2 m2)) as [El Ec];
    [apply Hlimpia; [done|repeat constructor]..|].
  rewrite (marcarComoEnviado_lineas e id _ Hd Hf).
  cbn [snd Respaldo.sd Respaldo.con_sd]. rewrite lookup_insert_eq.
  rewrite El, Ec. cbn [map concat length Z.of_nat Z.ltb Z.compare].
  rewrite !Hmarca by done. by rewrite !app_nil_r, <- !app_assoc.
Qed.

Lemma una_marca_para_todos_los_registros_del_identificador_testigo :
  let e := Respaldo.mkEstado true 1
             (<[Respaldo.DATOS_CSV :=
                  Respaldo.lineaCSV 1 100 medicion1 ++ [CR; LF]
                  ++ Respaldo.lineaCSV 1 40 medicion2 ++ [CR; LF]]> ∅) [] [] in
  Respaldo.sd (Respaldo.marcarComoEnviado e 1).2 !! Respaldo.DATOS_CSV =
    Some ((cuerpo 1 100 medicion1 ++ Respaldo.ENVIADO) ++ [CR; LF]
          ++ (cuerpo 1 40 medicion2 ++ Respaldo.ENVIADO) ++ [CR; LF]).
Proof.
  apply (una_marca_para_todos_los_registros_del_identificador
           (Respaldo.mkEstado true 1
              (<[Respaldo.DATOS_CSV :=
                   Respaldo.lineaCSV 1 100 medicion1 ++ [CR; LF]
                   ++ Respaldo.lineaCSV 1 40 medicion2 ++ [CR; LF]]> ∅) [] [])
           1 100 medicion1 40 medicion2).
  - reflexivity.
  - apply medicion_valida_b_ok. vm_compute. reflexivity.
  - apply medicion_valida_b_ok. vm_compute. reflexivity.
  - vm_compute. reflexivity.
  - vm_compute. reflexivity.
  - vm_compute. reflexivity.
Defined.
